(** * Doyle packing: the accelerated geometry kernel

    A shallow embedding of [src/_geometry_accel.cpp]: segment/segment
    intersection, the even-odd point-in-polygon test, clipping of lines to a
    polygon, hatch-fill generation and circle/circle intersection.

    Doubles are Rocq's primitive binary64 floats, so every arithmetic
    operation and comparison below is the IEEE-754 one the C++ code performs
    (each operation rounded on its own, no fused multiply-add).  A
    [const double *] is the list of doubles it points to; pointer arithmetic
    [p + k] is [drop k p] and [p[i]] is [rd p i].  *)

From Stdlib Require Import ZArith Floats Bool Lia String Sorted.
From stdpp Require Import base list.

Set Warnings "-inexact-float,-register-all".

(** ** Doubles and buffers *)

Module Dbl.
  Local Open Scope float_scope.

(** [std::fabs]. *)
Definition fabs (a : float) : float := abs a.

(** [a > b] of C++, which is [b < a]. *)
Definition gtb (a b : float) : bool := b <? a.

(** [std::fmax]: the larger argument, a NaN argument being ignored. *)
Definition fmax (a b : float) : float :=
  if is_nan a then b else if is_nan b then a else if a <? b then b else a.

(** [static_cast<double>(i)] for a [Py_ssize_t] [i]. *)
Definition of_Z (i : Z) : float :=
  match i with
  | Z0 => 0
  | Zpos _ => of_uint63 (Uint63.of_Z i)
  | Zneg p => - of_uint63 (Uint63.of_Z (Zpos p))
  end.

(** [static_cast<Py_ssize_t>(a)]: truncation toward zero.  The cast of a
    NaN or an infinity is undefined in C++; it is [0] here.  So is the cast
    of a value outside the range of [Py_ssize_t]; it is the integer itself
    here. *)
Definition to_Z (a : float) : Z :=
  match Prim2SF a with
  | S754_finite s m e =>
      let v := match e with
               | Zneg k => Z.shiftr (Zpos m) (Zpos k)
               | _ => Z.shiftl (Zpos m) e
               end in
      if s then Z.opp v else v
  | _ => 0%Z
  end.
End Dbl.

Infix ">?" := Dbl.gtb (at level 70, no associativity) : float_scope.

(** [p[i]] for a pointer to doubles; a read past the end is [0]. *)
Definition rd (p : list float) (i : nat) : float := nth i p 0%float.

(** The functions of [<cmath>] whose results the C++ standard does not fix
    bit for bit. *)
Record libm := Libm {
  m_cos : float -> float;
  m_sin : float -> float;
  m_hypot : float -> float -> float
}.

(** ** Geometry primitives *)

Record IntersectionPoint := IP { ip_t : float; ip_x : float; ip_y : float }.

Section Primitives.
  Local Open Scope float_scope.

Definition kDegToRad : float := 0.017453292519943295769236907684886.

Definition effective_polygon_length (poly : list float) (rows : nat) : nat :=
  let length := rows in
  if (1 <? length)%nat then
    let first := poly in
    let last := drop ((rows - 1) * 2) poly in
    if (Dbl.fabs (rd first 0 - rd last 0) <? 1e-9)
       && (Dbl.fabs (rd first 1 - rd last 1) <? 1e-9)
    then (length - 1)%nat else length
  else length.

(** One turn of the loop of [point_in_polygon], at indices [i] and [j]. *)
Definition pip_step (x y : float) (poly : list float) (i j : nat)
    (inside : bool) : bool :=
  let xi := rd poly (i * 2) in
  let yi := rd poly (i * 2 + 1) in
  let xj := rd poly (j * 2) in
  let yj := rd poly (j * 2 + 1) in
  let intersect :=
    xorb (yi >? y) (yj >? y)
    && (x <? (xj - xi) * (y - yi) / (yj - yi + 1e-300) + xi) in
  if intersect then negb inside else inside.

(** [for (i = 0, j = n - 1; i < n; j = i++)]: the state is [(inside, j)]. *)
Definition point_in_polygon (x y : float) (poly : list float) (n : nat)
    : bool :=
  if (n <? 3)%nat then false
  else
    fst (fold_left
           (fun '(inside, j) i => (pip_step x y poly i j inside, i))
           (seq 0 n) (false, (n - 1)%nat)).

Definition compute_line_segment_intersection
    (p1 p2 p3 p4 : list float) (eps : float) : option IntersectionPoint :=
  let x1 := rd p1 0 in let y1 := rd p1 1 in
  let x2 := rd p2 0 in let y2 := rd p2 1 in
  let x3 := rd p3 0 in let y3 := rd p3 1 in
  let x4 := rd p4 0 in let y4 := rd p4 1 in
  let denom := (x1 - x2) * (y3 - y4) - (y1 - y2) * (x3 - x4) in
  if Dbl.fabs denom <? eps then None
  else
    let t := ((x1 - x3) * (y3 - y4) - (y1 - y3) * (x3 - x4)) / denom in
    let u := (- ((x1 - x2) * (y1 - y3) - (y1 - y2) * (x1 - x3))) / denom in
    if (t <? - eps) || (t >? 1.0 + eps) || (u <? - eps) || (u >? 1.0 + eps)
    then None
    else Some (IP t (x1 + t * (x2 - x1)) (y1 + t * (y2 - y1))).
End Primitives.

(** ** [std::sort]

    The library's sort, called with the comparator [a.t < b.t].  It is
    modelled by a stable insertion sort: [a] goes in front of the first
    element that is not below it.  The C++ standard fixes what [std::sort]
    leaves only when the comparator is a strict weak ordering, which
    [a.t < b.t] is as long as no [t] is a NaN; the statements about the
    order of the records carry that condition. *)

Section Sort.
  Context {A : Type} (lt : A -> A -> bool).

Fixpoint sort_insert (a : A) (l : list A) : list A :=
  match l with
  | [] => [a]
  | b :: l' => if lt b a then b :: sort_insert a l' else a :: l
  end.

Definition std_sort (l : list A) : list A := foldr sort_insert [] l.
End Sort.

(** The comparator lambda of both call sites. *)
Definition by_t (a b : IntersectionPoint) : bool :=
  (ip_t a <? ip_t b)%float.

(** ** The Python objects the module receives and returns *)

Inductive PyErr :=
| ValueError (msg : string)
| TypeError (msg : string)
| OverflowError (msg : string)
| BufferError (msg : string).

Definition err_msg (e : PyErr) : string :=
  match e with
  | ValueError m | TypeError m | OverflowError m | BufferError m => m
  end.

(** What [PyObject_GetBuffer] fills in.  [buf] holds the elements of the
    array as doubles: for an array of doubles, the only kind whose view the
    module accepts and reads, that is the exporter's memory itself. *)
Record Py_buffer := PyBuffer {
  ndim : Z;
  shape : list Z;
  format : option string;
  buf : list float
}.

Inductive PyObject :=
| Py_None
| PyFloat (v : float)
| PyLong (v : Z)
| PyTuple (items : list PyObject)
| PyArray (c_contiguous : bool) (view : Py_buffer).

(** A call returns, raises, writes outside a block it allocated, or reads
    through a null pointer. *)
Inductive outcome (A : Type) :=
| Returns (a : A)
| Raises (e : PyErr)
| OutOfBounds
| NullDereference.
Arguments Returns {A} a.
Arguments Raises {A} e.
Arguments OutOfBounds {A}.
Arguments NullDereference {A}.

Definition point : Type := float * float.
Definition segment : Type := point * point.

(** *** The C API calls the module makes *)

(** [PyObject_GetBuffer(obj, view, PyBUF_ND | PyBUF_C_CONTIGUOUS |
    PyBUF_FORMAT)]: the errors are CPython's own. *)
Definition PyObject_GetBuffer (obj : PyObject) : PyErr + Py_buffer :=
  match obj with
  | PyArray true view => inr view
  | PyArray false _ => inl (BufferError "ndarray is not C-contiguous")
  | _ => inl (TypeError "a bytes-like object is required")
  end.

(** [PyFloat_AsDouble]. *)
Definition PyFloat_AsDouble (obj : PyObject) : PyErr + float :=
  match obj with
  | PyFloat v => inr v
  | PyLong v =>
      match binary_normalize prec emax v 0 false with
      | S754_infinity _ =>
          inl (OverflowError "int too large to convert to float")
      | sf => inr (SF2Prim sf)
      end
  | _ => inl (TypeError "must be real number")
  end.

(** What iterating an array of two or more dimensions gives: its
    sub-arrays along the first axis. *)
Definition sub_arrays (c_contiguous : bool) (view : Py_buffer)
    : list PyObject :=
  let width := Z.to_nat (foldr Z.mul 1%Z (tail (shape view))) in
  map (fun i =>
         PyArray c_contiguous
           (PyBuffer (ndim view - 1) (tail (shape view)) (format view)
              (take width (drop (i * width) (buf view)))))
    (seq 0 (Z.to_nat (nth 0 (shape view) 0%Z))).

(** The failure of [PySequence_Fast(obj, m)] on an object that cannot be
    iterated: the [TypeError] of [PyObject_GetIter] is replaced by one
    whose text is [m], through [PyErr_SetString(PyExc_TypeError, m)], which
    reads the characters [m] points to.  With a null [m] that is a read
    through the null pointer. *)
Definition not_iterable {A : Type} (m : option string) : outcome A :=
  match m with
  | Some text => Raises (TypeError text)
  | None => NullDereference
  end.

(** [PySequence_Fast(obj, m)].  A tuple is returned as it is, and an array
    is iterated: one dimension gives its doubles, more give its sub-arrays.
    None, a number and an array of no dimension cannot be iterated. *)
Definition PySequence_Fast (obj : PyObject) (m : option string)
    : outcome (list PyObject) :=
  match obj with
  | PyTuple items => Returns items
  | PyArray c_contiguous view =>
      if (ndim view =? 1)%Z then Returns (map PyFloat (buf view))
      else if (1 <? ndim view)%Z then Returns (sub_arrays c_contiguous view)
      else not_iterable m
  | _ => not_iterable m
  end.

(** ** Argument checking *)

Definition ensure_double_2d (obj : PyObject) (name : string)
    : PyErr + Py_buffer :=
  match PyObject_GetBuffer obj with
  | inl e => inl e
  | inr view =>
      if negb (ndim view =? 2)%Z then
        inl (ValueError (name ++ " must be a 2D array"))
      else if negb (nth 1 (shape view) 0 =? 2)%Z then
        inl (ValueError (name ++ " must have shape (N, 2)"))
      else
        match format view with
        | Some "d"%string => inr view
        | _ => inl (TypeError (name ++ " must have dtype float64"))
        end
  end.

(** [PySequence_Fast] is called with a null message (line 107).  When it
    returns null an error is set, so the branch under [!PyErr_Occurred()]
    is not taken; on an object that cannot be iterated it does not return
    at all. *)
Definition parse_point_like (obj : PyObject) (name : string)
    : outcome (float * float) :=
  match PySequence_Fast obj None with
  | Raises e => Raises e
  | OutOfBounds => OutOfBounds
  | NullDereference => NullDereference
  | Returns seq =>
      let length := length seq in
      if negb (length =? 2)%nat then
        Raises (ValueError (name ++ " must have length 2"))
      else
        let item0 := nth 0 seq Py_None in
        let item1 := nth 1 seq Py_None in
        match PyFloat_AsDouble item0 with
        | inl e => Raises e
        | inr x =>
            match PyFloat_AsDouble item1 with
            | inl e => Raises e
            | inr y => Returns (x, y)
            end
        end
  end.

(** ** Clipping one line: the steps shared by both entry points *)

Definition ip0 : IntersectionPoint := IP 0 0 0.

(** [polygon + ((j + 1) % polygon_len) * 2]. *)
Definition next_vertex (polygon : list float) (polygon_len j : nat)
    : list float :=
  drop (((j + 1) mod polygon_len) * 2) polygon.

(** The body that follows the midpoint computation, on the records at
    positions [j] and [j + 1]: the segment, when the midpoint is inside. *)
Definition midpoint_segment (polygon : list float) (polygon_len : nat)
    (a b : IntersectionPoint) : option segment :=
  let x1 := ip_x a in
  let y1 := ip_y a in
  let x2 := ip_x b in
  let y2 := ip_y b in
  let mid_x := (0.5 * (x1 + x2))%float in
  let mid_y := (0.5 * (y1 + y2))%float in
  if negb (point_in_polygon mid_x mid_y polygon polygon_len) then None
  else Some ((x1, y1), (x2, y2)).

(** ** [clip_lines_to_polygon] *)

(** [block[i] = v] on an allocated block: [None] is a write outside it. *)
Definition store {A : Type} (block : list A) (i : nat) (v : A)
    : option (list A) :=
  if (i <? length block)%nat then Some (<[i:=v]> block) else None.

Section ClipLines.
  Variables (polygon : list float) (polygon_len : nat) (eps : float).

(** Lines 213-218, the body of the loop over the edges: the state is the
    scratch block and [count]. *)
Definition clip_collect_step (start end_ : list float)
    (st : option (list IntersectionPoint * nat)) (j : nat)
    : option (list IntersectionPoint * nat) :=
  match st with
  | None => None
  | Some (block, count) =>
      let p3 := drop (j * 2) polygon in
      let p4 := next_vertex polygon polygon_len j in
      match compute_line_segment_intersection start end_ p3 p4 eps with
      | Some ip =>
          match store block count ip with
          | Some block' => Some (block', S count)
          | None => None
          end
      | None => Some (block, count)
      end
  end.

(** Lines 210-219. *)
Definition clip_collect (start end_ : list float)
    (intersections : list IntersectionPoint)
    : option (list IntersectionPoint * nat) :=
  fold_left (clip_collect_step start end_) (seq 0 polygon_len)
    (Some (intersections, 0%nat)).

(** Line 225: [std::sort(intersections, intersections + count, ...)]. *)
Definition clip_sort (intersections : list IntersectionPoint) (count : nat)
    : list IntersectionPoint :=
  std_sort by_t (take count intersections) ++ drop count intersections.

(** Lines 229-235: the state is the block and [unique_count]. *)
Definition clip_unique (intersections : list IntersectionPoint)
    (count : nat) : option (list IntersectionPoint * nat) :=
  fold_left
    (fun st j =>
       match st with
       | None => None
       | Some (block, unique_count) =>
           if (0 <? unique_count)%nat
              && (Dbl.fabs (ip_t (nth j block ip0)
                            - ip_t (nth (unique_count - 1) block ip0))
                  <? 1e-9)%float
           then Some (block, unique_count)
           else
             match store block unique_count (nth j block ip0) with
             | Some block' => Some (block', S unique_count)
             | None => None
             end
       end)
    (seq 0 count) (Some (intersections, 0%nat)).

(** Lines 237-286: [for (j = 0; j + 1 < unique_count; j += 2)] runs
    [unique_count / 2] times, the [i]-th time with [j = 2 * i]. *)
Definition clip_emit (intersections : list IntersectionPoint)
    (unique_count : nat) (result : list segment) : list segment :=
  fold_left
    (fun result i =>
       let j := (2 * i)%nat in
       match midpoint_segment polygon polygon_len
               (nth j intersections ip0) (nth (j + 1) intersections ip0) with
       | None => result
       | Some seg => result ++ [seg]
       end)
    (seq 0 (unique_count / 2)) result.

(** The body of the loop over the lines (lines 208-286). *)
Definition clip_line (start end_ : list float)
    (st : list IntersectionPoint * list segment)
    : option (list IntersectionPoint * list segment) :=
  let '(intersections, result) := st in
  match clip_collect start end_ intersections with
  | None => None
  | Some (block, count) =>
      if (count <? 2)%nat then Some (block, result)
      else
        match clip_unique (clip_sort block count) count with
        | None => None
        | Some (block', unique_count) =>
            Some (block', clip_emit block' unique_count result)
        end
  end.

(** Lines 207-287. *)
Definition clip_lines (line_starts line_ends : list float)
    (num_lines : nat) (intersections : list IntersectionPoint)
    : option (list IntersectionPoint * list segment) :=
  fold_left
    (fun st i =>
       match st with
       | None => None
       | Some st =>
           clip_line (drop (i * 2) line_starts) (drop (i * 2) line_ends) st
       end)
    (seq 0 num_lines) (Some (intersections, [])).
End ClipLines.

(** [PyMem_Malloc(sizeof(IntersectionPoint) * n)]: a block of [n] records
    whose contents are whatever [heap] happens to hold. *)
Definition PyMem_Malloc (heap : list IntersectionPoint) (n : nat)
    : list IntersectionPoint :=
  take n (heap ++ replicate n ip0).

Definition clip_lines_to_polygon (heap : list IntersectionPoint)
    (polygon_obj line_starts_obj line_ends_obj : PyObject) (eps : float)
    : outcome (list segment) :=
  match ensure_double_2d polygon_obj "polygon" with
  | inl e => Raises e
  | inr poly_view =>
  match ensure_double_2d line_starts_obj "line_starts" with
  | inl e => Raises e
  | inr start_view =>
  match ensure_double_2d line_ends_obj "line_ends" with
  | inl e => Raises e
  | inr end_view =>
      if negb (nth 0 (shape start_view) 0 =? nth 0 (shape end_view) 0)%Z then
        Raises
          (ValueError "line_starts and line_ends must have the same length")
      else
        let polygon := buf poly_view in
        let line_starts := buf start_view in
        let line_ends := buf end_view in
        let polygon_len :=
          effective_polygon_length polygon
            (Z.to_nat (nth 0 (shape poly_view) 0%Z)) in
        let num_lines := nth 0 (shape start_view) 0%Z in
        if (polygon_len <? 3)%nat || (num_lines <=? 0)%Z then Returns []
        else
          let intersections := PyMem_Malloc heap polygon_len in
          match clip_lines polygon polygon_len eps line_starts line_ends
                  (Z.to_nat num_lines) intersections with
          | None => OutOfBounds
          | Some (_, result) => Returns result
          end
  end end end.

(** ** [generate_line_fill] *)

Section LineFill.
  Variable M : libm.
  Local Open Scope float_scope.

(** Lines 349-354. *)
Definition mean_vertex (polygon : list float) (polygon_len : nat)
    : float * float :=
  let '(centroid_x, centroid_y) :=
    fold_left
      (fun '(cx, cy) i =>
         (cx + rd polygon (i * 2), cy + rd polygon (i * 2 + 1)))
      (seq 0 polygon_len) (0.0, 0.0) in
  (centroid_x / Dbl.of_Z (Z.of_nat polygon_len),
   centroid_y / Dbl.of_Z (Z.of_nat polygon_len)).

(** Lines 367-387. *)
Definition bbox_diagonal (polygon : list float) (polygon_len : nat)
    : float :=
  let '(min_x, max_x, min_y, max_y) :=
    fold_left
      (fun '(min_x, max_x, min_y, max_y) i =>
         let x := rd polygon (i * 2) in
         let y := rd polygon (i * 2 + 1) in
         let min_x := if x <? min_x then x else min_x in
         let max_x := if x >? max_x then x else max_x in
         let min_y := if y <? min_y then y else min_y in
         let max_y := if y >? max_y then y else max_y in
         (min_x, max_x, min_y, max_y))
      (seq 1 (polygon_len - 1))
      (rd polygon 0, rd polygon 0, rd polygon 1, rd polygon 1) in
  m_hypot M (max_x - min_x) (max_y - min_y).

Section Lines.
  Variables (polygon : list float) (polygon_len : nat).
  Variables (spacing centroid_x centroid_y bbox_diag overshoot : float).
  Variables (line_dir_x line_dir_y : float).

Definition perp_x := - line_dir_y.
Definition perp_y := line_dir_x.

Definition safe_spacing := if spacing <? 1e-6 then 1e-6 else spacing.
Definition num_lines : Z := (Dbl.to_Z (bbox_diag / safe_spacing) + 3)%Z.

Definition span_scale := bbox_diag * overshoot.
Definition span_x := line_dir_x * span_scale.
Definition span_y := line_dir_y * span_scale.
Definition start_base_x := centroid_x - span_x.
Definition start_base_y := centroid_y - span_y.
Definition end_base_x := centroid_x + span_x.
Definition end_base_y := centroid_y + span_y.

(** Lines 423-431: the two arrays [start] and [end] of offset [idx]. *)
Definition candidate_line (idx : Z) : list float * list float :=
  let offset := Dbl.of_Z idx * spacing in
  ([start_base_x + offset * perp_x; start_base_y + offset * perp_y],
   [end_base_x + offset * perp_x; end_base_y + offset * perp_y]).

(** Lines 433-441. *)
Definition fill_collect (start end_ : list float) (eps : float)
    : list IntersectionPoint :=
  fold_left
    (fun intersections j =>
       let p3 := drop (j * 2) polygon in
       let p4 := next_vertex polygon polygon_len j in
       match compute_line_segment_intersection start end_ p3 p4 eps with
       | Some ip => intersections ++ [ip]
       | None => intersections
       end)
    (seq 0 polygon_len) [].

(** Lines 451-457. *)
Definition fill_unique (intersections : list IntersectionPoint)
    : list IntersectionPoint :=
  fold_left
    (fun unique_intersections ip =>
       match last unique_intersections with
       | Some back =>
           if Dbl.fabs (ip_t ip - ip_t back) <? 1e-9
           then unique_intersections
           else unique_intersections ++ [ip]
       | None => unique_intersections ++ [ip]
       end)
    intersections [].

(** Lines 459-475: [for (k = 0; k + 1 < size; k += 2)] runs [size / 2]
    times, the [i]-th time with [k = 2 * i]. *)
Definition fill_emit (unique_intersections : list IntersectionPoint)
    (segments : list float) : list float :=
  fold_left
    (fun segments i =>
       let k := (2 * i)%nat in
       match midpoint_segment polygon polygon_len
               (nth k unique_intersections ip0)
               (nth (k + 1) unique_intersections ip0) with
       | None => segments
       | Some ((x1, y1), (x2, y2)) => segments ++ [x1; y1; x2; y2]
       end)
    (seq 0 (length unique_intersections / 2)) segments.

(** The body of the loop over [idx] (lines 423-475). *)
Definition fill_line (segments : list float) (idx : Z) : list float :=
  let eps := 1e-10 in
  let '(start, end_) := candidate_line idx in
  let intersections := fill_collect start end_ eps in
  if (length intersections <? 2)%nat then segments
  else
    let intersections := std_sort by_t intersections in
    fill_emit (fill_unique intersections) segments.

(** [idx] runs from [-num_lines] to [num_lines]. *)
Definition fill_indices : list Z :=
  seqZ (- num_lines) (2 * num_lines + 1).

(** Lines 478-512: the flat vector read back four doubles at a time. *)
Definition fill_result (segments : list float) : list segment :=
  map (fun i =>
         ((rd segments (i * 4), rd segments (i * 4 + 1)),
          (rd segments (i * 4 + 2), rd segments (i * 4 + 3))))
      (seq 0 (length segments / 4)).

(** Lines 398-516. *)
Definition fill_lines : list segment :=
  fill_result (fold_left fill_line fill_indices []).
End Lines.

Definition generate_line_fill (polygon_obj : PyObject)
    (spacing angle_deg : float) (centroid_obj bbox_obj : PyObject)
    (overshoot : float) : outcome (list segment) :=
  if spacing <=? 0.0 then Raises (ValueError "spacing must be positive")
  else
    let overshoot := if overshoot <=? 0.0 then 2.0 else overshoot in
    match ensure_double_2d polygon_obj "polygon" with
    | inl e => Raises e
    | inr poly_view =>
        let polygon := buf poly_view in
        let polygon_len :=
          effective_polygon_length polygon
            (Z.to_nat (nth 0 (shape poly_view) 0%Z)) in
        if (polygon_len <? 3)%nat then Returns []
        else
          match
            match centroid_obj with
            | Py_None => Returns (mean_vertex polygon polygon_len)
            | _ => parse_point_like centroid_obj "centroid"
            end
          with
          | Raises e => Raises e
          | OutOfBounds => OutOfBounds
          | NullDereference => NullDereference
          | Returns (centroid_x, centroid_y) =>
              match
                match bbox_obj with
                | Py_None => inr 0.0
                | _ => PyFloat_AsDouble bbox_obj
                end
              with
              | inl e => Raises e
              | inr bbox_diag =>
                  let bbox_diag :=
                    if bbox_diag <=? 0.0
                    then bbox_diagonal polygon polygon_len
                    else bbox_diag in
                  if bbox_diag <=? 0.0 then Returns []
                  else
                    let radians := angle_deg * kDegToRad in
                    let line_dir_x := m_cos M radians in
                    let line_dir_y := m_sin M radians in
                    Returns
                      (fill_lines polygon polygon_len spacing
                         centroid_x centroid_y bbox_diag overshoot
                         line_dir_x line_dir_y)
              end
          end
    end.
End LineFill.

(** A [libm] for running the module: [cos] and [sin] by their Taylor
    polynomials (exact at [0]), [hypot] without protection against overflow. *)
Definition taylor_libm : libm :=
  Libm (fun a => 1 - a * a / 2 + a * a * a * a / 24)%float
       (fun a => a - a * a * a / 6 + a * a * a * a * a / 120)%float
       (fun a b => sqrt (a * a + b * b))%float.

(** ** [circle_circle_intersections]

    Each returned complex number is the pair of its real and imaginary
    parts. *)

Section Circles.
  Variable M : libm.
  Local Open Scope float_scope.

Definition circle_circle_intersections
    (cx1 cy1 r1 cx2 cy2 r2 tol : float) : list point :=
  let dx := cx2 - cx1 in
  let dy := cy2 - cy1 in
  let d := m_hypot M dx dy in
  let sum_r := r1 + r2 in
  let diff_r := Dbl.fabs (r1 - r2) in
  if (d >? sum_r + tol) || (d <? diff_r - tol) || (d <? tol) then []
  else
    let a := (r1 * r1 - r2 * r2 + d * d) / (2.0 * d) in
    let h_sq := r1 * r1 - a * a in
    if h_sq <? - tol then []
    else
      let h := if h_sq >? 0.0 then sqrt (Dbl.fmax h_sq 0.0) else 0.0 in
      let mid_x := cx1 + a * dx / d in
      let mid_y := cy1 + a * dy / d in
      let rx := (- dy) / d in
      let ry := dx / d in
      let p1x := mid_x + h * rx in
      let p1y := mid_y + h * ry in
      let result := [(p1x, p1y)] in
      if h >? tol then
        let p2x := mid_x - h * rx in
        let p2y := mid_y - h * ry in
        result ++ [(p2x, p2y)]
      else result.
End Circles.

(** ** The clipping of one line, step by step as the specification words it *)

Section ClipSpec.
  Variables (polygon : list float) (polygon_len : nat) (eps : float).

(** Step 1: the accepted records, edge [j] joining vertex [j] to vertex
    [(j + 1) mod polygon_len]. *)
Definition edge_record (start end_ : list float) (j : nat)
    : option IntersectionPoint :=
  compute_line_segment_intersection start end_
    (drop (j * 2) polygon) (next_vertex polygon polygon_len j) eps.

Definition edge_records (start end_ : list float)
    : list IntersectionPoint :=
  omap (edge_record start end_) (seq 0 polygon_len).

(** Step 4: a record within 1e-9 of the record kept last is dropped. *)
Definition near_t (r kept : IntersectionPoint) : bool :=
  (Dbl.fabs (ip_t r - ip_t kept) <? 1e-9)%float.

Fixpoint collapse_from (kept : IntersectionPoint)
    (l : list IntersectionPoint) : list IntersectionPoint :=
  match l with
  | [] => []
  | r :: l' =>
      if near_t r kept then collapse_from kept l'
      else r :: collapse_from r l'
  end.

Definition collapse (l : list IntersectionPoint)
    : list IntersectionPoint :=
  match l with
  | [] => []
  | r :: l' => r :: collapse_from r l'
  end.

(** Step 5: (0,1), (2,3), ...; an odd record left over is dropped. *)
Fixpoint pair_up {A : Type} (l : list A) : list (A * A) :=
  match l with
  | a :: b :: l' => (a, b) :: pair_up l'
  | _ => []
  end.

(** Steps 2 to 5. *)
Definition kept_pairs (start end_ : list float)
    : list (IntersectionPoint * IntersectionPoint) :=
  let records := edge_records start end_ in
  if (length records <? 2)%nat then []
  else pair_up (collapse (std_sort by_t records)).

(** Step 6. *)
Definition midpoint_inside (p : IntersectionPoint * IntersectionPoint)
    : bool :=
  point_in_polygon (0.5 * (ip_x p.1 + ip_x p.2))%float
                   (0.5 * (ip_y p.1 + ip_y p.2))%float
                   polygon polygon_len.

Definition endpoints (p : IntersectionPoint * IntersectionPoint)
    : segment :=
  ((ip_x p.1, ip_y p.1), (ip_x p.2, ip_y p.2)).

Definition emitted_pairs (start end_ : list float)
    : list (IntersectionPoint * IntersectionPoint) :=
  List.filter midpoint_inside (kept_pairs start end_).

Definition clip_spec (start end_ : list float) : list segment :=
  map endpoints (emitted_pairs start end_).
End ClipSpec.

(** ** Inputs used in the statements below *)

(** A C-contiguous array of doubles of shape [(length data / 2, 2)]. *)
Definition array2 (data : list float) : PyObject :=
  PyArray true
    (PyBuffer 2 [Z.of_nat (length data / 2); 2%Z] (Some "d"%string) data).

(** The unit square [(0,0), (1,0), (1,1), (0,1)] as a buffer. *)
Definition unit_square_buf : list float := [0; 0; 1; 0; 1; 1; 0; 1]%float.

Definition unit_square : PyObject := array2 unit_square_buf.

(** ** What the statements below are written with *)

(** *** The order of doubles

    The comparisons of binary64 are read on the [spec_float] of their
    operands: every value that is not a NaN has a place in one chain, the
    two zeros sharing theirs. *)

Module FloatOrder.
  Local Open Scope Z_scope.

(** The place of a value: sign class, then exponent, then mantissa. *)
Definition key (x : spec_float) : Z * Z * Z :=
  match x with
  | S754_infinity true => (-2, 0, 0)
  | S754_finite true m e => (-1, - e, - Zpos m)
  | S754_zero _ => (0, 0, 0)
  | S754_finite false m e => (1, e, Zpos m)
  | S754_infinity false => (2, 0, 0)
  | S754_nan => (3, 0, 0)
  end.

Definition key_lt (k1 k2 : Z * Z * Z) : Prop :=
  k1.1.1 < k2.1.1
  \/ (k1.1.1 = k2.1.1
      /\ (k1.1.2 < k2.1.2 \/ (k1.1.2 = k2.1.2 /\ k1.2 < k2.2))).

Definition not_nan (x : spec_float) : Prop := x <> S754_nan.

Definition SFinfinite (x : spec_float) : bool :=
  match x with S754_infinity _ => true | _ => false end.

Definition SFfin (x : spec_float) : bool :=
  match x with S754_zero _ | S754_finite _ _ _ => true | _ => false end.

(** A value that is not negative: a zero, a positive number or +infinity. *)
Definition SFnonneg (x : spec_float) : bool :=
  match x with
  | S754_zero _ | S754_finite false _ _ | S754_infinity false => true
  | _ => false
  end.

(** A zero of either sign. *)
Definition SFzero (x : spec_float) : bool :=
  match x with S754_zero _ => true | _ => false end.
End FloatOrder.

(** *** Records along a line *)

(** What is known of a record the intersection primitive returned for the
    line from [p1] to [p2]. *)
Definition accepted (p1 p2 : list float) (eps : float)
    (r : IntersectionPoint) : Prop :=
  (ip_t r <? - eps)%float = false
  /\ (ip_t r >? 1.0 + eps)%float = false
  /\ ip_x r = (rd p1 0 + ip_t r * (rd p2 0 - rd p1 0))%float
  /\ ip_y r = (rd p1 1 + ip_t r * (rd p2 1 - rd p1 1))%float.

(** [P] holds of every two neighbours of a list. *)
Fixpoint adjacent {A : Type} (P : A -> A -> Prop) (l : list A) : Prop :=
  match l with
  | a :: (b :: _) as l' => P a b /\ adjacent P l'
  | _ => True
  end.

(** [b] is not before [a] on the line. *)
Definition le_t (a b : IntersectionPoint) : Prop := by_t b a = false.

(** [b] is not before [a], and not within 1e-9 of it. *)
Definition apart (a b : IntersectionPoint) : Prop :=
  le_t a b /\ near_t b a = false.

(** The two records of an emitted segment, on the line from [start] to
    [end_]: the first has the strictly smaller [t], and the two [t] differ
    by at least 1e-9. *)
Definition runs_forward (start end_ : list float) (eps : float)
    (p : IntersectionPoint * IntersectionPoint) : Prop :=
  (ip_t p.1 <? ip_t p.2)%float = true
  /\ (1e-9 <=? Dbl.fabs (ip_t p.2 - ip_t p.1))%float = true
  /\ accepted start end_ eps p.1
  /\ accepted start end_ eps p.2.




(** *** The lines of the hatch fill *)

(** A segment as the four doubles pushed on the flat vector. *)
Definition flat4 (s : segment) : list float := [s.1.1; s.1.2; s.2.1; s.2.2].

(** What the candidate line of offset [idx] contributes. *)
Definition fill_line_spec (polygon : list float) (polygon_len : nat)
    (spacing centroid_x centroid_y bbox_diag overshoot : float)
    (line_dir_x line_dir_y : float) (idx : Z) : list segment :=
  let candidate :=
    candidate_line spacing centroid_x centroid_y bbox_diag overshoot
      line_dir_x line_dir_y idx in
  clip_spec polygon polygon_len 1e-10 candidate.1 candidate.2.

(** *** The ring of edges seen by the ray cast *)

(** The buffer of a vertex list: x and y of each vertex in turn. *)
Definition flat (vs : list point) : list float :=
  concat (map (fun v => [v.1; v.2]) vs).

(** The test of one edge, from vertex [vi] back to its predecessor [vj]. *)
Definition crosses (x y : float) (e : point * point) : bool :=
  let '((xi, yi), (xj, yj)) := e in
  (xorb (yi >? y) (yj >? y)
   && (x <? (xj - xi) * (y - yi) / (yj - yi + 1e-300) + xi))%float.

(** Each vertex of [l] paired with its predecessor, [p] being the
    predecessor of the first. *)
Fixpoint chain (p : point) (l : list point) : list (point * point) :=
  match l with
  | [] => []
  | v :: l' => (v, p) :: chain v l'
  end.

(** The edges of the closed ring: the first vertex follows the last. *)
Definition ring (vs : list point) : list (point * point) :=
  match last vs with
  | None => []
  | Some z => chain z vs
  end.

Definition parity (l : list bool) : bool := foldr xorb false l.

(** *** Segment against segment *)

Section Cramer.
  Local Open Scope float_scope.
  Variables (p1 p2 p3 p4 : list float).

Let x1 := rd p1 0.
Let y1 := rd p1 1.
Let x2 := rd p2 0.
Let y2 := rd p2 1.
Let x3 := rd p3 0.
Let y3 := rd p3 1.
Let x4 := rd p4 0.
Let y4 := rd p4 1.

(** The determinant, and the two positions Cramer's rule gives. *)
Definition cramer_denom : float :=
  (x1 - x2) * (y3 - y4) - (y1 - y2) * (x3 - x4).

Definition cramer_t : float :=
  ((x1 - x3) * (y3 - y4) - (y1 - y3) * (x3 - x4)) / cramer_denom.

Definition cramer_u : float :=
  (- ((x1 - x2) * (y1 - y3) - (y1 - y2) * (x1 - x3))) / cramer_denom.

(** The point at position [t] on the first segment. *)
Definition point_at (t : float) : IntersectionPoint :=
  IP t (x1 + t * (x2 - x1)) (y1 + t * (y2 - y1)).
End Cramer.

(** [v] lies in [[-eps, 1 + eps]]. *)
Definition in_range (eps v : float) : bool :=
  ((- eps <=? v) && (v <=? 1.0 + eps))%float.

(** *** Circle against circle *)

Section CircleQuantities.
  Variable M : libm.
  Variables (cx1 cy1 r1 cx2 cy2 r2 : float).
  Local Open Scope float_scope.

(** The distance [d] of the centres. *)
Definition centre_distance : float := m_hypot M (cx2 - cx1) (cy2 - cy1).

(** [h_sq = r1^2 - a^2] with [a = (r1^2 - r2^2 + d^2) / (2 d)]. *)
Definition half_chord_sq : float :=
  let d := centre_distance in
  let a := (r1 * r1 - r2 * r2 + d * d) / (2.0 * d) in
  r1 * r1 - a * a.

(** [h = sqrt (max h_sq 0)]. *)
Definition half_chord : float := sqrt (Dbl.fmax half_chord_sq 0.0).

(** The four tests after which the list is empty. *)
Definition no_intersection (tol : float) : bool :=
  let d := centre_distance in
  (d >? r1 + r2 + tol) || (d <? Dbl.fabs (r1 - r2) - tol) || (d <? tol)
  || (half_chord_sq <? - tol).
End CircleQuantities.

(** *** Views, heights and error texts *)

(** [shape[0]] of a view. *)
Definition rows (view : Py_buffer) : Z := nth 0 (shape view) 0%Z.

(** [a] and [b] differ by at most [tol]. *)
Definition near (tol a b : float) : bool := (abs (a - b) <=? tol)%float.

(** [seg] runs from x = 0 to x = 1 at height [y], each within [tol]. *)
Definition spans_unit_width (tol y : float) (seg : segment) : bool :=
  near tol seg.1.2 y && near tol seg.2.2 y
  && near tol seg.1.1 0 && near tol seg.2.1 1.

(** The segments are full-width segments at the heights [ys], and every
    height of [ys] has one. *)
Definition hatch_at (tol : float) (ys : list float) (segs : list segment)
    : bool :=
  forallb (fun seg => existsb (fun y => spans_unit_width tol y seg) ys) segs
  && forallb (fun y => existsb (spans_unit_width tol y) segs) ys.

Definition horizontal (seg : segment) : bool := (seg.1.2 =? seg.2.2)%float.

(** The text of [e] contains [name]. *)
Definition mentions (name : string) (e : PyErr) : Prop :=
  exists before after, err_msg e = (before ++ name ++ after)%string.

(** [obj] exports a buffer, which is not a two-dimensional array of doubles
    with two columns. *)
Definition bad_buffer (obj : PyObject) : Prop :=
  exists view,
    PyObject_GetBuffer obj = inr view
    /\ (ndim view <> 2%Z \/ nth 1 (shape view) 0%Z <> 2%Z
        \/ format view <> Some "d"%string).

(** *** Buffers of points *)

(** Two buffers hold the same first [n] rows. *)
Definition agree (n : nat) (p q : list float) : Prop :=
  forall k, k < 2 * n -> rd p k = rd q k.

(** The row [i] of a buffer of points, as the two doubles read there. *)
Definition row (vs : list point) (i : nat) : list float :=
  let v := nth i vs (0, 0)%float in [v.1; v.2].

(** *** Emitted segments *)

(** The midpoint the emitting loops test. *)
Definition midpoint (seg : segment) : point :=
  ((0.5 * (seg.1.1 + seg.2.1))%float, (0.5 * (seg.1.2 + seg.2.2))%float).

(** What holds of a segment emitted against [polygon]: its midpoint passes
    the point-in-polygon test, its two heights are finite and none of its
    abscissas is a NaN. *)
Definition emitted_inside (polygon : list float) (polygon_len : nat)
    (seg : segment) : Prop :=
  point_in_polygon (midpoint seg).1 (midpoint seg).2 polygon polygon_len
  = true
  /\ is_finite seg.1.2 = true /\ is_finite seg.2.2 = true
  /\ is_nan seg.1.1 = false /\ is_nan seg.2.1 = false.

(** The segment of [q] starts strictly after the segment of [p] ends. *)
Definition follows (p q : IntersectionPoint * IntersectionPoint) : Prop :=
  (ip_t p.2 <? ip_t q.1)%float = true.

(** [q] starts after [p] ends, when [p] ends at a finite [t]. *)
Definition follows_finite (p q : IntersectionPoint * IntersectionPoint)
    : Prop :=
  is_finite (ip_t p.2) = true -> follows p q.

(** [t] is a number, and not the negative zero. *)
Definition plain_t (r : IntersectionPoint) : Prop :=
  is_nan (ip_t r) = false /\ Prim2SF (ip_t r) <> S754_zero true.

(** *** The candidate lines as arrays *)

(** The start points and the end points of the candidate lines, in the
    order of the loop over [idx]. *)
Definition candidate_starts (spacing centroid_x centroid_y bbox_diag overshoot
    line_dir_x line_dir_y : float) : list point :=
  map (fun idx =>
         let start :=
           (candidate_line spacing centroid_x centroid_y bbox_diag overshoot
              line_dir_x line_dir_y idx).1 in
         (rd start 0, rd start 1))
    (fill_indices spacing bbox_diag).

Definition candidate_ends (spacing centroid_x centroid_y bbox_diag overshoot
    line_dir_x line_dir_y : float) : list point :=
  map (fun idx =>
         let end_ :=
           (candidate_line spacing centroid_x centroid_y bbox_diag overshoot
              line_dir_x line_dir_y idx).2 in
         (rd end_ 0, rd end_ 1))
    (fill_indices spacing bbox_diag).

(** *** The bounding box *)

(** Lines 372-385, the body of the loop over the vertices: the state is
    [(min_x, max_x, min_y, max_y)]. *)
Definition bbox_step (polygon : list float)
    : float * float * float * float -> nat -> float * float * float * float :=
  fun '(min_x, max_x, min_y, max_y) i =>
    let x := rd polygon (i * 2) in
    let y := rd polygon (i * 2 + 1) in
    let min_x := if (x <? min_x)%float then x else min_x in
    let max_x := if (x >? max_x)%float then x else max_x in
    let min_y := if (y <? min_y)%float then y else min_y in
    let max_y := if (y >? max_y)%float then y else max_y in
    (min_x, max_x, min_y, max_y).

(** Lines 367-386: the bounds the loop ends with. *)
Definition bbox_bounds (polygon : list float) (polygon_len : nat)
    : float * float * float * float :=
  fold_left (bbox_step polygon) (seq 1 (polygon_len - 1))
    (rd polygon 0, rd polygon 0, rd polygon 1, rd polygon 1).

(** *** The centroid and the diagonal of the hatch fill *)



(** *** Optional arguments *)

(** An object made of None, numbers and tuples only. *)
Fixpoint array_free (obj : PyObject) : bool :=
  match obj with
  | PyTuple items => forallb array_free items
  | PyArray _ _ => false
  | _ => true
  end.

(** A Python float or int. *)
Definition a_number (obj : PyObject) : Prop :=
  (exists v, obj = PyFloat v) \/ (exists v, obj = PyLong v).

(** The centroid argument is absent or a pair of objects that convert to
    doubles, and the diagonal argument is absent or converts to a double. *)
Definition optional_arguments_parse (centroid_obj bbox_obj : PyObject)
    : Prop :=
  (centroid_obj = Py_None
   \/ exists a b x y,
        centroid_obj = PyTuple [a; b]
        /\ PyFloat_AsDouble a = inr x /\ PyFloat_AsDouble b = inr y)
  /\ (bbox_obj = Py_None \/ exists v, PyFloat_AsDouble bbox_obj = inr v).


(** * Loops as list operations *)

Section FoldLemmas.
  Context {A B : Type}.

Lemma fold_left_push (f : A -> option B) (l : list A) (acc : list B) :
  fold_left
    (fun acc a => match f a with Some b => acc ++ [b] | None => acc end)
    l acc
  = acc ++ omap f l.
Proof.
  revert acc; induction l as [|a l IH]; intros acc; simpl.
  - by rewrite app_nil_r.
  - rewrite IH. destruct (f a); simpl; [|done].
    by rewrite <- app_assoc.
Qed.

Lemma omap_snoc (f : A -> option B) (l : list A) (a : A) :
  omap f (l ++ [a]) = omap f l ++ match f a with Some b => [b] | None => [] end.
Proof. rewrite omap_app. simpl. by destruct (f a). Qed.
End FoldLemmas.

Lemma store_Some {A : Type} (block : list A) (i : nat) (v : A) :
  i < length block -> store block i v = Some (<[i:=v]> block).
Proof.
  intros Hi. unfold store.
  destruct (Nat.ltb_spec i (length block)); [done|lia].
Qed.

Lemma take_S_insert {A : Type} (block : list A) (i : nat) (v : A) :
  i < length block -> take (S i) (<[i:=v]> block) = take i block ++ [v].
Proof.
  intros Hi.
  rewrite (take_S_r _ i v); [|by apply list_lookup_insert_eq].
  by rewrite take_insert_ge.
Qed.

(** * The scratch block of [clip_lines_to_polygon] (C10) *)

Section Collect.
  Variables (polygon : list float) (polygon_len : nat) (eps : float).
  Variables (start end_ : list float).

(** After the first [n] edges the block holds their records, in order, in
    its first [count] cells, and [count] has grown by at most one per
    edge. *)
Lemma clip_collect_prefix (block : list IntersectionPoint) (n : nat) :
  n <= length block ->
  exists block' count,
    fold_left (clip_collect_step polygon polygon_len eps start end_)
      (seq 0 n) (Some (block, 0))
    = Some (block', count)
    /\ length block' = length block
    /\ count <= n
    /\ take count block'
       = omap (edge_record polygon polygon_len eps start end_) (seq 0 n)
    /\ drop n block' = drop n block.
Proof.
  induction n as [|n IH]; intros Hn.
  - exists block, 0. simpl. by rewrite take_0.
  - destruct IH as (b & c & Hf & Hlen & Hc & Htake & Hdrop); [lia|].
    rewrite seq_S, fold_left_app, Hf, omap_snoc. simpl.
    unfold edge_record at 2.
    destruct (compute_line_segment_intersection _ _ _ _ _) as [ip|].
    + rewrite store_Some by lia.
      exists (<[c:=ip]> b), (S c).
      rewrite length_insert, take_S_insert by lia.
      rewrite drop_insert_lt by lia.
      repeat split; [done|lia|by rewrite Htake|].
      replace (S n) with (n + 1) by lia.
      by rewrite <- !drop_drop, Hdrop.
    + exists b, c. rewrite app_nil_r.
      repeat split; [done|lia|done|].
      replace (S n) with (n + 1) by lia.
      by rewrite <- !drop_drop, Hdrop.
Qed.
End Collect.

(** * Sorting, collapsing and pairing *)

Section SortLemmas.
  Context {A : Type} (lt : A -> A -> bool).

Lemma sort_insert_perm (a : A) (l : list A) :
  Permutation (sort_insert lt a l) (a :: l).
Proof.
  induction l as [|b l IH]; simpl; [done|].
  destruct (lt b a); [|done].
  rewrite IH. apply perm_swap.
Qed.

Lemma std_sort_perm (l : list A) : Permutation (std_sort lt l) l.
Proof.
  induction l as [|a l IH]; simpl; [done|].
  rewrite sort_insert_perm. by constructor.
Qed.

Lemma length_std_sort (l : list A) : length (std_sort lt l) = length l.
Proof. apply Permutation_length, std_sort_perm. Qed.
End SortLemmas.

Lemma last_cons_default {A : Type} (x : A) (l : list A) :
  last (x :: l) = Some (default x (last l)).
Proof.
  revert x; induction l as [|y l IH]; intros x; [done|].
  by rewrite last_cons_cons, IH.
Qed.

Lemma collapse_from_snoc kept l r :
  collapse_from kept (l ++ [r])
  = if near_t r (default kept (last (collapse_from kept l)))
    then collapse_from kept l
    else collapse_from kept l ++ [r].
Proof.
  revert kept; induction l as [|x l IH]; intros kept; simpl.
  - by destruct (near_t r kept).
  - destruct (near_t x kept); [apply IH|].
    rewrite IH, last_cons_default. simpl.
    by destruct (near_t r _).
Qed.

(** What the scan does with one more record at the end. *)
Lemma collapse_snoc l r :
  collapse (l ++ [r])
  = match last (collapse l) with
    | None => [r]
    | Some kept =>
        if near_t r kept then collapse l else collapse l ++ [r]
    end.
Proof.
  destruct l as [|x l]; [done|].
  simpl. rewrite collapse_from_snoc, last_cons_default.
  by destruct (near_t r _).
Qed.

Lemma length_collapse_from kept l : length (collapse_from kept l) <= length l.
Proof.
  revert kept; induction l as [|x l IH]; intros kept; simpl; [done|].
  destruct (near_t x kept); [specialize (IH kept)|specialize (IH x)];
    simpl; lia.
Qed.

Lemma length_collapse l : length (collapse l) <= length l.
Proof.
  destruct l as [|x l]; simpl; [done|].
  pose proof (length_collapse_from x l). lia.
Qed.

(** The pairs by index: pair [i] is made of records [2 i] and [2 i + 1]. *)
Lemma pair_up_nth {A : Type} (d : A) (l : list A) :
  pair_up l
  = map (fun i => (nth (2 * i) l d, nth (2 * i + 1) l d))
        (seq 0 (length l / 2)).
Proof.
  remember (length l) as n eqn:Hn.
  revert l Hn; induction (lt_wf n) as [n _ IH]; intros l Hn.
  destruct l as [|a [|b l]]; simpl in Hn; subst n; [done..|].
  replace (S (S (length l)) / 2) with (S (length l / 2)).
  2:{ replace (S (S (length l))) with (1 * 2 + length l) by lia.
      rewrite Nat.div_add_l by lia. lia. }
  cbn [pair_up seq map]. f_equal.
  rewrite (IH (length l)) with (l := l); [|simpl; lia|done].
  rewrite <- seq_shift, map_map.
  apply map_ext; intros i.
  replace (2 * S i) with (S (S (2 * i))) by lia.
  replace (S (S (2 * i)) + 1) with (S (S (2 * i + 1))) by lia.
  done.
Qed.

Lemma omap_midpoint_segment polygon polygon_len prs :
  omap (fun p => midpoint_segment polygon polygon_len p.1 p.2) prs
  = map endpoints (List.filter (midpoint_inside polygon polygon_len) prs).
Proof.
  induction prs as [|[a b] prs IH]; [done|].
  cbn [omap list_omap List.filter]. unfold midpoint_segment at 1.
  unfold midpoint_inside at 1. cbn [fst snd].
  destruct (point_in_polygon _ _ _ _); simpl; by rewrite <- IH.
Qed.

(** * One line of [clip_lines_to_polygon] against the specification (C2) *)

Lemma nth_take_lt {A : Type} (l : list A) (n i : nat) (d : A) :
  i < n -> nth i (take n l) d = nth i l d.
Proof. intros Hi. by rewrite !nth_lookup, lookup_take_lt. Qed.

Lemma nth_drop_0 {A : Type} (l l' : list A) (n : nat) (d : A) :
  drop n l = drop n l' -> nth n l d = nth n l' d.
Proof.
  intros H. rewrite !nth_lookup.
  replace n with (n + 0) by lia. by rewrite <- !lookup_drop, H.
Qed.

(** The in-place scan keeps, in the first [unique_count] cells, exactly the
    records the specification keeps, and never writes past cell [j]. *)
Lemma clip_unique_prefix (block : list IntersectionPoint) (count : nat) :
  count <= length block ->
  exists block',
    clip_unique block count
    = Some (block', length (collapse (take count block)))
    /\ length block' = length block
    /\ take (length (collapse (take count block))) block'
       = collapse (take count block).
Proof.
  unfold clip_unique.
  set (step := fun (st : option (list IntersectionPoint * nat)) (j : nat) => _).
  assert (forall n, n <= length block ->
    exists block',
      fold_left step (seq 0 n) (Some (block, 0))
      = Some (block', length (collapse (take n block)))
      /\ length block' = length block
      /\ take (length (collapse (take n block))) block'
         = collapse (take n block)
      /\ drop n block' = drop n block) as Hinv.
  { induction n as [|n IH]; intros Hn.
    - exists block. by rewrite take_0.
    - destruct IH as (b & Hf & Hlen & Htake & Hdrop); [lia|].
      destruct (lookup_lt_is_Some_2 block n) as [r Hr]; [lia|].
      rewrite seq_S, fold_left_app, Hf. simpl.
      rewrite (take_S_r _ _ _ Hr), collapse_snoc.
      set (c := collapse (take n block)) in *.
      assert (length c <= n) as Hc.
      { pose proof (length_collapse (take n block)).
        rewrite length_take in *. subst c. lia. }
      assert (nth n b ip0 = r) as ->.
      { rewrite (nth_drop_0 _ block) by done. by apply nth_lookup_Some. }
      assert (drop (S n) (<[length c:=r]> b) = drop (S n) block) as Hdrop'.
      { rewrite drop_insert_lt by lia.
        replace (S n) with (n + 1) by lia.
        by rewrite <- !drop_drop, Hdrop. }
      destruct (last c) as [kept|] eqn:Hlast.
      + assert (0 < length c) as Hpos.
        { destruct c; [done|simpl; lia]. }
        assert (nth (length c - 1) b ip0 = kept) as ->.
        { rewrite <- (nth_take_lt _ (length c)) by lia.
          rewrite Htake. apply nth_lookup_Some.
          rewrite <- Hlast, last_lookup. f_equal. lia. }
        destruct (Nat.ltb_spec 0 (length c)); [|lia]. simpl.
        fold (near_t r kept).
        destruct (near_t r kept).
        * exists b. repeat split; [done..|].
          replace (S n) with (n + 1) by lia.
          by rewrite <- !drop_drop, Hdrop.
        * rewrite store_Some by lia.
          exists (<[length c:=r]> b).
          rewrite length_app, length_insert. simpl.
          replace (length c + 1) with (S (length c)) by lia.
          rewrite take_S_insert by lia.
          by rewrite Htake.
      + apply last_None in Hlast. rewrite Hlast in *. simpl.
        rewrite store_Some by lia.
        exists (<[0:=r]> b). rewrite length_insert.
        repeat split; [done| |done].
        rewrite (take_S_insert b 0) by lia. by rewrite take_0. }
  intros Hcount. destruct (Hinv count Hcount) as (b & ? & ? & ? & _).
  by exists b.
Qed.

Lemma omap_pairs_take polygon polygon_len
    (block : list IntersectionPoint) (unique_count : nat) (ks : list nat) :
  Forall (fun i => 2 * i + 1 < unique_count) ks ->
  omap (fun i => midpoint_segment polygon polygon_len
                   (nth (2 * i) block ip0) (nth (2 * i + 1) block ip0)) ks
  = omap (fun p => midpoint_segment polygon polygon_len p.1 p.2)
      (map (fun i => (nth (2 * i) (take unique_count block) ip0,
                      nth (2 * i + 1) (take unique_count block) ip0)) ks).
Proof.
  induction 1 as [|j js Hj _ IH]; [done|].
  cbn [omap list_omap map fst snd].
  rewrite !nth_take_lt by lia. by rewrite IH.
Qed.

Lemma clip_emit_spec polygon polygon_len
    (block : list IntersectionPoint) (unique_count : nat)
    (result : list segment) :
  unique_count <= length block ->
  clip_emit polygon polygon_len block unique_count result
  = result
    ++ map endpoints
         (List.filter (midpoint_inside polygon polygon_len)
            (pair_up (take unique_count block))).
Proof.
  intros Hu. unfold clip_emit.
  rewrite (fold_left_push
             (fun i => midpoint_segment polygon polygon_len
                         (nth (2 * i) block ip0)
                         (nth (2 * i + 1) block ip0))).
  f_equal. rewrite <- omap_midpoint_segment, (pair_up_nth ip0).
  rewrite length_take_le by done.
  apply omap_pairs_take, Forall_forall. intros i Hi.
  apply elem_of_seq in Hi.
  pose proof (Nat.Div0.mul_div_le unique_count 2). lia.
Qed.

Section ClipLine.
  Variables (polygon : list float) (polygon_len : nat) (eps : float).

Lemma clip_line_refines (start end_ : list float)
    (block : list IntersectionPoint) (result : list segment) :
  length block = polygon_len ->
  exists block',
    clip_line polygon polygon_len eps start end_ (block, result)
    = Some (block',
            result ++ clip_spec polygon polygon_len eps start end_)
    /\ length block' = polygon_len.
Proof.
  intros Hlen. unfold clip_line, clip_collect.
  destruct (clip_collect_prefix polygon polygon_len eps start end_
              block polygon_len)
    as (b & c & -> & Hb & Hc & Htake & _); [lia|].
  fold (edge_records polygon polygon_len eps start end_) in Htake.
  unfold clip_spec, emitted_pairs, kept_pairs.
  set (records := edge_records polygon polygon_len eps start end_) in *.
  assert (length records = c) as Hrec.
  { rewrite <- Htake, length_take_le; [done|lia]. }
  rewrite Hrec.
  destruct (c <? 2) eqn:Hc2.
  { exists b. simpl. rewrite app_nil_r. split; [done|lia]. }
  assert (length (clip_sort b c) = length b) as Hsort.
  { unfold clip_sort.
    rewrite length_app, length_std_sort, length_take, length_drop. lia. }
  assert (take c (clip_sort b c) = std_sort by_t records) as Hsorted.
  { unfold clip_sort. rewrite Htake.
    apply take_app_length'. by rewrite length_std_sort. }
  destruct (clip_unique_prefix (clip_sort b c) c)
    as (b' & -> & Hb' & Htake'); [lia|].
  rewrite Hsorted in *.
  exists b'. split; [|lia].
  rewrite clip_emit_spec, Htake'; [done|].
  pose proof (length_collapse (std_sort by_t records)) as Hle.
  rewrite length_std_sort in Hle. lia.
Qed.

(** All the lines: the outputs of the lines one after the other, and the
    scratch block never overrun. *)
Lemma clip_lines_refines (line_starts line_ends : list float)
    (num_lines : nat) (block : list IntersectionPoint) :
  length block = polygon_len ->
  exists block',
    clip_lines polygon polygon_len eps line_starts line_ends num_lines
      block
    = Some (block',
            concat
              (map (fun i => clip_spec polygon polygon_len eps
                               (drop (i * 2) line_starts)
                               (drop (i * 2) line_ends))
                   (seq 0 num_lines)))
    /\ length block' = polygon_len.
Proof.
  intros Hlen. unfold clip_lines.
  induction num_lines as [|n IH].
  - by exists block.
  - destruct IH as (b & Hf & Hb).
    rewrite seq_S, fold_left_app, Hf. cbn [fold_left Nat.add].
    destruct (clip_line_refines (drop (n * 2) line_starts)
                (drop (n * 2) line_ends) b
                (concat
                   (map (fun i => clip_spec polygon polygon_len eps
                                    (drop (i * 2) line_starts)
                                    (drop (i * 2) line_ends))
                      (seq 0 n)))) as (b' & -> & Hb'); [done|].
    exists b'. split; [|done].
    by rewrite map_app, concat_app; simpl; rewrite app_nil_r.
Qed.
End ClipLine.

Lemma length_PyMem_Malloc heap n : length (PyMem_Malloc heap n) = n.
Proof.
  unfold PyMem_Malloc.
  rewrite length_take, length_app, length_replicate. lia.
Qed.

(** * The order of doubles

    The comparisons of binary64, read on the [spec_float] of their
    operands: every value that is not a NaN has a place in one chain, the
    two zeros sharing theirs. *)

Section FloatOrderFacts.
  Import FloatOrder.
  Local Open Scope Z_scope.


Lemma SFltb_key x y :
  not_nan x -> not_nan y -> SFltb x y = true <-> key_lt (key x) (key y).
Proof.
  unfold not_nan, SFltb, key_lt.
  destruct x as [sx|sx| |sx mx ex], y as [sy|sy| |sy my ey];
    intros Hx Hy; try done;
    try (destruct sx); try (destruct sy); cbn;
    try (split; [intros; lia | intros; try done; lia]).
  all: change (Pos.compare_cont Eq ?a ?b) with (Pos.compare a b).
  all: destruct (Z.compare_spec ex ey); subst;
    try destruct (Pos.compare_spec mx my); subst; cbn;
    split; intros; try done; try lia.
Qed.

Lemma nan_or_not x : x = S754_nan \/ not_nan x.
Proof. destruct x; (by left) || (by right). Qed.

Lemma SFltb_nan_r x : SFltb x S754_nan = false.
Proof. by destruct x. Qed.

Lemma SFltb_asym x y : SFltb x y = true -> SFltb y x = false.
Proof.
  intros H.
  destruct x as [sx|sx| |sx mx ex] eqn:Ex; try done;
    destruct y as [sy|sy| |sy my ey] eqn:Ey; try done.
  all: rewrite <- Ex, <- Ey in *.
  all: apply SFltb_key in H; [|by subst..].
  all: apply not_true_is_false; intros H'.
  all: apply SFltb_key in H'; [|by subst..].
  all: unfold key_lt in *; lia.
Qed.

(** [x <= y <= z] gives [x <= z] when [y] is not a NaN. *)
Lemma SFltb_le_trans x y z :
  not_nan y ->
  SFltb y x = false -> SFltb z y = false -> SFltb z x = false.
Proof.
  intros Hy Hxy Hyz.
  destruct (nan_or_not x) as [->|Hx]; [apply SFltb_nan_r|].
  destruct (nan_or_not z) as [->|Hz]; [done|].
  apply not_true_is_false; intros Hzx.
  apply SFltb_key in Hzx; [|done..].
  assert (~ key_lt (key y) (key x)) as Hxy'.
  { intros H. apply SFltb_key in H; [congruence|done..]. }
  assert (~ key_lt (key z) (key y)) as Hyz'.
  { intros H. apply SFltb_key in H; [congruence|done..]. }
  unfold key_lt in *. lia.
Qed.

(** Two values that are not NaN and neither of which is below the other
    have the same place. *)
Lemma SFltb_same_key x y :
  not_nan x -> not_nan y ->
  SFltb x y = false -> SFltb y x = false -> key x = key y.
Proof.
  intros Hx Hy Hxy Hyx.
  assert (~ key_lt (key x) (key y)) as H1.
  { intros H. apply SFltb_key in H; [congruence|done..]. }
  assert (~ key_lt (key y) (key x)) as H2.
  { intros H. apply SFltb_key in H; [congruence|done..]. }
  destruct (key x) as [[a b] c], (key y) as [[a' b'] c'].
  unfold key_lt in *; cbn in *.
  f_equal; [f_equal|]; lia.
Qed.
End FloatOrderFacts.

(** * Rounding never invents a NaN *)

Section Rounding.
  Import FloatOrder.
  Local Open Scope Z_scope.

Lemma shr_1_nonneg mrs : 0 <= shr_m mrs -> 0 <= shr_m (shr_1 mrs).
Proof.
  destruct mrs as [m r s]. cbn [shr_m]. intros Hm.
  destruct m as [|[p|p|]|p]; cbn; lia.
Qed.

Lemma iter_shr_1_nonneg p mrs :
  0 <= shr_m mrs -> 0 <= shr_m (SpecFloat.iter_pos shr_1 p mrs).
Proof.
  revert mrs; induction p as [p IH|p IH|]; intros mrs Hm;
    cbn [SpecFloat.iter_pos].
  - by apply IH, IH, shr_1_nonneg.
  - by apply IH, IH.
  - by apply shr_1_nonneg.
Qed.

Lemma shr_fexp_nonneg m e l :
  0 <= m -> 0 <= shr_m (shr_fexp prec emax m e l).1.
Proof.
  intros Hm. unfold shr_fexp, shr.
  assert (0 <= shr_m (shr_record_of_loc m l)) as H0.
  { by destruct l as [|[]]. }
  destruct (_ - e); cbn [fst]; [done| |done].
  by apply iter_shr_1_nonneg.
Qed.

Lemma round_nearest_even_nonneg m l : 0 <= m -> 0 <= round_nearest_even m l.
Proof.
  intros Hm. unfold round_nearest_even.
  destruct l as [|[]]; try done; [destruct (Z.even m)|]; lia.
Qed.

(** Rounding a mantissa that is not negative does not yield a NaN. *)
Lemma binary_round_aux_not_nan sx mx ex lx :
  0 <= mx -> not_nan (binary_round_aux prec emax sx mx ex lx).
Proof.
  intros Hm. unfold binary_round_aux, not_nan.
  pose proof (shr_fexp_nonneg mx ex lx Hm) as H1.
  destruct (shr_fexp prec emax mx ex lx) as [mrs' e']. cbn [fst] in H1.
  pose proof (shr_fexp_nonneg
                (round_nearest_even (shr_m mrs') (loc_of_shr_record mrs'))
                e' loc_Exact
                (round_nearest_even_nonneg _ _ H1)) as H2.
  destruct (shr_fexp prec emax _ e' loc_Exact) as [mrs'' e''].
  cbn [fst] in H2.
  destruct (shr_m mrs'') as [|m|m]; [done| |lia].
  by destruct (e'' <=? emax - prec).
Qed.

Lemma binary_normalize_not_nan m e szero :
  not_nan (binary_normalize prec emax m e szero).
Proof.
  unfold binary_normalize, binary_round.
  destruct m as [|m|m]; [done|..];
    destruct (shl_align _ _ _) as [mz ez];
    by apply binary_round_aux_not_nan.
Qed.

(** The difference of two finite values is a number. *)
Lemma SFsub_finite_not_nan x y :
  SFfin x = true -> SFfin y = true -> not_nan (SF64sub x y).
Proof.
  unfold SF64sub, SFsub.
  destruct x as [[]|[]| |[] mx ex], y as [[]|[]| |[] my ey];
    intros Hx Hy; try done; cbv zeta; apply binary_normalize_not_nan.
Qed.

(** The square root of a value that is not negative is a number. *)
Lemma SFsqrt_not_nan x : SFnonneg x = true -> not_nan (SF64sqrt x).
Proof.
  unfold SF64sqrt, SFsqrt.
  destruct x as [[]|[]| |[] m e]; intros Hx; try done.
  destruct (SFsqrt_core_binary prec emax (Z.pos m) e) as [[mz ez] lz]
    eqn:Hcore.
  apply binary_round_aux_not_nan.
  unfold SFsqrt_core_binary in Hcore.
  destruct (Z.sqrtrem _) as [q r] eqn:Hq.
  injection Hcore as <- _ _.
  change q with (fst (q, r)). rewrite <- Hq, Z.sqrtrem_sqrt.
  apply Z.sqrt_nonneg.
Qed.
End Rounding.

Section FloatFacts.
  Import FloatOrder.
  Local Open Scope float_scope.

Lemma SFeqb_refl x : SFeqb x x = negb match x with S754_nan => true | _ => false end.
Proof.
  unfold SFeqb. destruct x as [s|s| |s m e]; try (by destruct s); try done.
  cbn. rewrite Z.compare_refl.
  change (Pos.compare_cont Eq m m) with (Pos.compare m m).
  rewrite Pos.compare_refl. by destruct s.
Qed.

Lemma is_nan_true a : is_nan a = true <-> Prim2SF a = S754_nan.
Proof.
  unfold is_nan. rewrite FloatAxioms.eqb_spec, SFeqb_refl.
  by destruct (Prim2SF a).
Qed.

Lemma is_nan_false a : is_nan a = false <-> not_nan (Prim2SF a).
Proof.
  unfold not_nan. rewrite <- is_nan_true. by destruct (is_nan a).
Qed.

Lemma ltb_nan_l a b : is_nan a = true -> (a <? b) = false.
Proof. intros H%is_nan_true. by rewrite FloatAxioms.ltb_spec, H. Qed.

Lemma ltb_asym a b : (a <? b) = true -> (b <? a) = false.
Proof. rewrite !FloatAxioms.ltb_spec. apply SFltb_asym. Qed.

Lemma ltb_le_trans a b c :
  is_nan b = false ->
  (b <? a) = false -> (c <? b) = false -> (c <? a) = false.
Proof.
  rewrite !FloatAxioms.ltb_spec. intros H%is_nan_false. by apply SFltb_le_trans.
Qed.

Lemma sub_nan_l a b : is_nan a = true -> is_nan (a - b) = true.
Proof. intros H%is_nan_true. apply is_nan_true. by rewrite FloatAxioms.sub_spec, H. Qed.

Lemma add_nan_r a b : is_nan b = true -> is_nan (a + b) = true.
Proof.
  intros H%is_nan_true. apply is_nan_true. rewrite FloatAxioms.add_spec, H.
  by destruct (Prim2SF a).
Qed.

Lemma abs_nan a : is_nan a = true -> is_nan (abs a) = true.
Proof. intros H%is_nan_true. apply is_nan_true. by rewrite FloatAxioms.abs_spec, H. Qed.

(** A record within 1e-9 of another has a [t] that is a number. *)
Lemma near_t_not_nan r kept :
  near_t r kept = true -> is_nan (ip_t r) = false.
Proof.
  unfold near_t, Dbl.fabs. intros H.
  destruct (is_nan (ip_t r)) eqn:Hn; [|done].
  by rewrite ltb_nan_l in H by by apply abs_nan, sub_nan_l.
Qed.


(** The difference of two values with the same place is a zero, unless
    they are the same infinity. *)
Lemma SFsub_same_key x y :
  not_nan x -> not_nan y -> SFinfinite x = false ->
  key x = key y -> SFabs (SF64sub y x) = S754_zero false.
Proof.
  unfold not_nan, SF64sub, SFsub.
  destruct x as [sx|sx| |sx mx ex], y as [sy|sy| |sy my ey];
    intros Hx Hy Hinf Hk; try done;
    try (destruct sx); try (destruct sy); try done.
  all: cbn in Hk; injection Hk as He Hm.
  all: assert (ex = ey) as -> by lia; assert (mx = my) as -> by lia.
  all: cbv zeta; rewrite Z.sub_diag; done.
Qed.

Lemma is_infinity_false a :
  is_infinity a = false -> SFinfinite (Prim2SF a) = false.
Proof.
  unfold is_infinity. rewrite FloatAxioms.eqb_spec, FloatAxioms.abs_spec.
  change (Prim2SF infinity) with (S754_infinity false).
  by destruct (Prim2SF a).
Qed.

(** Two numbers in order and not within 1e-9 of each other are strictly
    in order. *)
Lemma apart_lt a b :
  is_nan a = false -> is_nan b = false -> is_infinity a = false ->
  (b <? a) = false -> (Dbl.fabs (b - a) <? 1e-9) = false ->
  (a <? b) = true.
Proof.
  intros Ha%is_nan_false Hb%is_nan_false Hinf%is_infinity_false Hle Hfar.
  apply not_false_iff_true; intros Hab.
  rewrite FloatAxioms.ltb_spec in Hle, Hab.
  pose proof (SFltb_same_key _ _ Ha Hb Hab Hle) as Hk.
  unfold Dbl.fabs in Hfar.
  rewrite FloatAxioms.ltb_spec, FloatAxioms.abs_spec, FloatAxioms.sub_spec in Hfar.
  rewrite SFsub_same_key in Hfar by done.
  by vm_compute in Hfar.
Qed.

Lemma is_infinity_SF a : is_infinity a = SFinfinite (Prim2SF a).
Proof.
  unfold is_infinity. rewrite FloatAxioms.eqb_spec, FloatAxioms.abs_spec.
  change (Prim2SF infinity) with (S754_infinity false).
  by destruct (Prim2SF a) as [[]|[]| |[]].
Qed.

Lemma is_finite_SF a : is_finite a = SFfin (Prim2SF a).
Proof.
  unfold is_finite. rewrite is_infinity_SF.
  destruct (is_nan a) eqn:Hn.
  - apply is_nan_true in Hn. by rewrite Hn.
  - apply is_nan_false in Hn. unfold not_nan in Hn.
    by destruct (Prim2SF a).
Qed.

(** A finite product or sum has finite operands. *)
Lemma mul_finite a b :
  is_finite (a * b) = true -> is_finite a = true /\ is_finite b = true.
Proof.
  rewrite !is_finite_SF, FloatAxioms.mul_spec. unfold SF64mul, SFmul.
  by destruct (Prim2SF a) as [[]|[]| |[]], (Prim2SF b) as [[]|[]| |[]].
Qed.

Lemma add_finite a b :
  is_finite (a + b) = true -> is_finite a = true /\ is_finite b = true.
Proof.
  rewrite !is_finite_SF, FloatAxioms.add_spec. unfold SF64add, SFadd.
  by destruct (Prim2SF a) as [[]|[]| |[]], (Prim2SF b) as [[]|[]| |[]].
Qed.

(** The difference of two finite doubles is a number, and so is its
    absolute value. *)
Lemma sub_finite_not_nan a b :
  is_finite a = true -> is_finite b = true -> is_nan (a - b) = false.
Proof.
  rewrite !is_finite_SF, is_nan_false, FloatAxioms.sub_spec.
  apply SFsub_finite_not_nan.
Qed.

Lemma abs_not_nan a : is_nan a = false -> is_nan (abs a) = false.
Proof.
  rewrite !is_nan_false, FloatAxioms.abs_spec. unfold not_nan.
  by destruct (Prim2SF a).
Qed.
End FloatFacts.

(** * Intervals and clamping *)

Section Intervals.
  Import FloatOrder.
  Local Open Scope float_scope.

Lemma SFleb_negb_SFltb x y :
  not_nan x -> not_nan y -> SFleb x y = negb (SFltb y x).
Proof.
  unfold not_nan, SFleb, SFltb.
  destruct x as [sx|sx| |sx mx ex], y as [sy|sy| |sy my ey];
    intros Hx Hy; try done;
    try (destruct sx); try (destruct sy); cbn; try done.
  all: change (Pos.compare_cont Eq ?a ?b) with (Pos.compare a b).
  all: rewrite (Z.compare_antisym ex ey), (Pos.compare_antisym mx my).
  all: by destruct (ex ?= ey)%Z, (mx ?= my)%positive.
Qed.

Lemma leb_negb_ltb a b :
  is_nan a = false -> is_nan b = false -> (a <=? b) = negb (b <? a).
Proof.
  intros Ha%is_nan_false Hb%is_nan_false.
  rewrite FloatAxioms.leb_spec, FloatAxioms.ltb_spec.
  by apply SFleb_negb_SFltb.
Qed.

Lemma opp_not_nan a : is_nan a = false -> is_nan (- a) = false.
Proof.
  rewrite !is_nan_false, FloatAxioms.opp_spec. unfold not_nan.
  by destruct (Prim2SF a).
Qed.

(** A value that is a number and neither above nor below zero is a zero. *)
Lemma SF_zero_of_compare x :
  not_nan x ->
  SFltb (S754_zero false) x = false -> SFltb x (S754_zero false) = false ->
  exists s, x = S754_zero s.
Proof.
  intros Hx H1 H2. destruct x as [s|[]| |[] m e]; try done. by exists s.
Qed.

(** The comparison with the clamped root is the comparison the code makes:
    [h] is set to [0.0] unless [h_sq > 0.0]. *)
Lemma clamped_root_gtb h_sq tol :
  ((if h_sq >? 0.0 then sqrt (Dbl.fmax h_sq 0.0) else 0.0) >? tol)
  = (sqrt (Dbl.fmax h_sq 0.0) >? tol).
Proof.
  destruct (h_sq >? 0.0) eqn:Hpos; [done|].
  unfold Dbl.fmax. destruct (is_nan h_sq) eqn:Hnan; [done|].
  change (is_nan 0.0) with false. cbv iota.
  destruct (h_sq <? 0.0) eqn:Hneg; [done|].
  unfold Dbl.gtb in *.
  rewrite FloatAxioms.ltb_spec in Hpos, Hneg.
  apply is_nan_false in Hnan.
  change (Prim2SF 0) with (S754_zero false) in *.
  destruct (SF_zero_of_compare _ Hnan Hpos Hneg) as [s Hs].
  rewrite !FloatAxioms.ltb_spec, FloatAxioms.sqrt_spec, Hs.
  change (Prim2SF 0) with (S754_zero false).
  unfold SF64sqrt, SFsqrt.
  by destruct (Prim2SF tol) as [[]|[]| |[]], s.
Qed.

(** The clamped root is a number. *)
Lemma fmax_zero_nonneg a : SFnonneg (Prim2SF (Dbl.fmax a 0.0)) = true.
Proof.
  unfold Dbl.fmax. destruct (is_nan a) eqn:Hnan; [done|].
  change (is_nan 0.0) with false. cbv iota.
  destruct (a <? 0.0) eqn:Hneg; [done|].
  apply is_nan_false in Hnan. rewrite FloatAxioms.ltb_spec in Hneg.
  change (Prim2SF 0) with (S754_zero false) in Hneg.
  unfold not_nan in Hnan.
  by destruct (Prim2SF a) as [[]|[]| |[]].
Qed.

Lemma clamped_root_not_nan h_sq : is_nan (sqrt (Dbl.fmax h_sq 0.0)) = false.
Proof.
  apply is_nan_false. rewrite FloatAxioms.sqrt_spec.
  apply SFsqrt_not_nan, fmax_zero_nonneg.
Qed.

(** The difference of a finite number with itself is [+0]. *)
Lemma sub_diag_finite a : is_finite a = true -> a - a = 0.
Proof.
  unfold is_finite. intros [Hnan Hinf]%negb_true_iff%orb_false_elim.
  apply is_nan_false in Hnan. apply is_infinity_false in Hinf.
  apply Prim2SF_inj. rewrite FloatAxioms.sub_spec.
  change (Prim2SF 0) with (S754_zero false).
  unfold not_nan, SF64sub, SFsub in *.
  destruct (Prim2SF a) as [[]|[]| |[] m e]; try done.
  all: cbv zeta; by rewrite Z.sub_diag.
Qed.
End Intervals.

(** * Order along the line (C9) *)


Section Ascending.
Lemma by_t_asym a b : by_t a b = true -> le_t a b.
Proof. apply ltb_asym. Qed.

Lemma sort_insert_adjacent_cons a x l :
  by_t x a = true -> adjacent le_t (x :: l) ->
  adjacent le_t (x :: sort_insert by_t a l).
Proof.
  revert x; induction l as [|c l IH]; intros x Hxa Hadj.
  - simpl. split; [by apply by_t_asym|done].
  - destruct Hadj as [Hxc Hadj]. cbn [sort_insert].
    destruct (by_t c a) eqn:Hca.
    + split; [done|]. by apply IH.
    + split; [by apply by_t_asym|]. by split.
Qed.

Lemma sort_insert_adjacent a l :
  adjacent le_t l -> adjacent le_t (sort_insert by_t a l).
Proof.
  destruct l as [|c l]; [done|]. intros Hadj. cbn [sort_insert].
  destruct (by_t c a) eqn:Hca.
  - by apply sort_insert_adjacent_cons.
  - by split.
Qed.

(** The sorted records ascend: no record is before its predecessor. *)
Lemma std_sort_adjacent l : adjacent le_t (std_sort by_t l).
Proof.
  induction l as [|a l IH]; [done|]. by apply sort_insert_adjacent.
Qed.

Lemma le_t_trans a b c :
  is_nan (ip_t b) = false -> le_t a b -> le_t b c -> le_t a c.
Proof. unfold le_t, by_t. apply ltb_le_trans. Qed.

(** In the collapsed list every record is apart from its predecessor. *)
Lemma collapse_from_adjacent kept l :
  match l with [] => True | r :: _ => le_t kept r end ->
  adjacent le_t l ->
  adjacent apart (kept :: collapse_from kept l).
Proof.
  revert kept; induction l as [|r l IH]; intros kept Hhead Hadj; [done|].
  cbn [collapse_from]. destruct (near_t r kept) eqn:Hnear.
  - apply IH.
    + destruct l as [|r' l]; [done|]. destruct Hadj as [Hrr' _].
      apply (le_t_trans kept r r'); [|done..].
      by apply (near_t_not_nan r kept).
    + destruct l as [|r' l]; [done|]. by destruct Hadj.
  - split; [done|]. apply IH.
    + destruct l as [|r' l]; [done|]. by destruct Hadj.
    + destruct l as [|r' l]; [done|]. by destruct Hadj.
Qed.

Lemma collapse_adjacent l : adjacent le_t l -> adjacent apart (collapse l).
Proof.
  destruct l as [|r l]; [done|]. intros Hadj.
  apply collapse_from_adjacent.
  - destruct l; [done|]. by destruct Hadj.
  - destruct l; [done|]. by destruct Hadj.
Qed.

Lemma pair_up_adjacent {A : Type} (P : A -> A -> Prop) (l : list A) :
  adjacent P l -> Forall (fun p => P p.1 p.2) (pair_up l).
Proof.
  remember (length l) as n eqn:Hn.
  revert l Hn; induction (lt_wf n) as [n _ IH]; intros l Hn Hadj.
  destruct l as [|a [|b l]]; [constructor..|].
  destruct Hadj as [Hab Hadj]. cbn [pair_up].
  constructor; [done|].
  apply (IH (length l)); [subst n; simpl; lia|done|].
  destruct l; [done|]. by destruct Hadj.
Qed.

Lemma elem_of_pair_up {A : Type} (l : list A) (a b : A) :
  (a, b) ∈ pair_up l -> a ∈ l /\ b ∈ l.
Proof.
  remember (length l) as n eqn:Hn.
  revert l Hn; induction (lt_wf n) as [n _ IH]; intros l Hn Hin.
  destruct l as [|x [|y l]]; [by apply elem_of_nil in Hin..|].
  cbn [pair_up] in Hin. rewrite !elem_of_cons.
  apply elem_of_cons in Hin as [Heq|Hin].
  - injection Heq as -> ->. auto.
  - destruct (IH (length l)) with (l := l) as [? ?];
      [subst n; simpl; lia|done..|].
    auto.
Qed.

Lemma elem_of_collapse_from kept l r :
  r ∈ collapse_from kept l -> r ∈ l.
Proof.
  revert kept; induction l as [|x l IH]; intros kept; [done|].
  cbn [collapse_from]. rewrite elem_of_cons.
  destruct (near_t x kept); [eauto|].
  rewrite elem_of_cons. intros [->|?]; eauto.
Qed.

Lemma elem_of_collapse l r : r ∈ collapse l -> r ∈ l.
Proof.
  destruct l as [|x l]; [done|]. cbn [collapse].
  rewrite !elem_of_cons. intros [->|?]; [auto|].
  right. by eapply elem_of_collapse_from.
Qed.
(** Ascending neighbours make a sorted list when every [t] is a number. *)
Lemma adjacent_sorted l :
  adjacent le_t l -> Forall (fun r => is_nan (ip_t r) = false) l ->
  StronglySorted le_t l.
Proof.
  induction l as [|a l IH]; intros Hadj Hnan; [constructor|].
  apply Forall_cons in Hnan as [_ Hnan].
  assert (adjacent le_t l) as Hadj' by (destruct l; [done|by destruct Hadj]).
  specialize (IH Hadj' Hnan). constructor; [done|].
  destruct l as [|b l]; [constructor|].
  destruct Hadj as [Hab _].
  apply StronglySorted_inv in IH as [_ Hb].
  apply Forall_cons in Hnan as [Hbn _].
  constructor; [done|].
  eapply Forall_impl; [exact Hb|].
  intros c Hbc. by apply (le_t_trans a b c).
Qed.
End Ascending.

Section Accepted.
  Import FloatOrder.
  Local Open Scope float_scope.


Lemma intersection_accepted p1 p2 p3 p4 eps r :
  compute_line_segment_intersection p1 p2 p3 p4 eps = Some r ->
  accepted p1 p2 eps r.
Proof.
  unfold compute_line_segment_intersection, accepted.
  destruct (Dbl.fabs _ <? eps); [done|].
  destruct (_ || _) eqn:Hrange; [done|].
  intros [= <-]. cbn [ip_t ip_x ip_y].
  apply orb_false_elim in Hrange as [Hrange _].
  apply orb_false_elim in Hrange as [Hrange _].
  by apply orb_false_elim in Hrange as [-> ->].
Qed.

Lemma edge_records_accepted polygon polygon_len eps start end_ r :
  r ∈ edge_records polygon polygon_len eps start end_ ->
  accepted start end_ eps r.
Proof.
  unfold edge_records. rewrite list_elem_of_omap.
  intros (j & _ & Hj). by eapply intersection_accepted.
Qed.

(** At an infinite height no edge is counted: either both ends of the edge
    are on the same side, or the abscissa of the crossing is a NaN. *)
Lemma SF_crossing_at_infinite_height s X XI D1 YI YJ E :
  xorb (SFltb (S754_infinity s) YI) (SFltb (S754_infinity s) YJ)
  && SFltb X
       (SF64add
          (SF64div (SF64mul D1 (SF64sub (S754_infinity s) YI))
             (SF64add (SF64sub YJ YI) E))
          XI)
  = false.
Proof.
  destruct s.
  2:{ assert (forall Y, SFltb (S754_infinity false) Y = false) as H.
      { by intros [[]|[]| |[]]. }
      by rewrite !H. }
  assert (forall N, SF64div N S754_nan = S754_nan) as Hdiv_nan.
  { by intros [[]|[]| |[]]. }
  assert (forall Q, Q = S754_nan -> SFltb X (SF64add Q XI) = false) as Hnan.
  { intros Q ->. apply SFltb_nan_r. }
  destruct YI as [[]|[]| |[] mi ei], YJ as [[]|[]| |[] mj ej];
    cbn [SFltb SFcompare xorb andb]; try reflexivity.
  all: apply Hnan.
  all: cbn [SF64sub SFsub SF64add SFadd].
  all: try (by destruct D1 as [[]|[]| |[]]).
  all: try (by rewrite Hdiv_nan).
  all: try (by destruct D1 as [[]|[]| |[]], E as [[]|[]| |[]]).
Qed.

Lemma pip_step_infinite_height x y poly i j inside :
  is_infinity y = true -> pip_step x y poly i j inside = inside.
Proof.
  rewrite is_infinity_SF. intros Hy. unfold pip_step, Dbl.gtb.
  rewrite !FloatAxioms.ltb_spec, FloatAxioms.add_spec, FloatAxioms.div_spec,
    FloatAxioms.mul_spec, FloatAxioms.add_spec, !FloatAxioms.sub_spec.
  destruct (Prim2SF y) as [|s| |]; try done.
  by rewrite SF_crossing_at_infinite_height.
Qed.

Lemma pip_step_nan_height x y poly i j inside :
  is_nan y = true -> pip_step x y poly i j inside = inside.
Proof.
  intros Hy. unfold pip_step, Dbl.gtb. by rewrite !(ltb_nan_l y).
Qed.

(** A point the test puts inside has a finite height. *)
Lemma point_in_polygon_finite_height x y poly n :
  point_in_polygon x y poly n = true -> is_finite y = true.
Proof.
  intros Hin. apply not_false_iff_true. intros Hy.
  assert (forall i j inside, pip_step x y poly i j inside = inside) as Hstep.
  { intros i j inside. unfold is_finite in Hy.
    apply negb_false_iff, orb_true_iff in Hy as [Hy|Hy].
    - by apply pip_step_nan_height.
    - by apply pip_step_infinite_height. }
  revert Hin. unfold point_in_polygon.
  destruct (n <? 3)%nat; [done|].
  generalize (n - 1)%nat as j. generalize (seq 0 n) as l.
  induction l as [|i l IH]; intros j; [done|].
  cbn [fold_left]. rewrite Hstep. apply IH.
Qed.

(** A record with a finite point has a finite [t]. *)
Lemma accepted_finite_t p1 p2 eps r :
  accepted p1 p2 eps r -> is_finite (ip_y r) = true ->
  is_finite (ip_t r) = true.
Proof.
  intros (_ & _ & _ & ->) Hy.
  apply add_finite in Hy as [_ Hy]. by apply mul_finite in Hy as [Hy _].
Qed.

(** Both records of a pair whose midpoint is inside have a finite [t]. *)
Lemma midpoint_inside_finite polygon polygon_len p1 p2 eps a b :
  accepted p1 p2 eps a -> accepted p1 p2 eps b ->
  midpoint_inside polygon polygon_len (a, b) = true ->
  is_finite (ip_t a) = true /\ is_finite (ip_t b) = true.
Proof.
  intros Ha Hb Hin. unfold midpoint_inside in Hin. cbn [fst snd] in Hin.
  apply point_in_polygon_finite_height, mul_finite in Hin as [_ Hin].
  apply add_finite in Hin as [Hay Hby].
  split; by eapply accepted_finite_t.
Qed.
End Accepted.

Section Ordered.
  Variables (polygon : list float) (polygon_len : nat) (eps : float).
  Variables (start end_ : list float).

Lemma kept_pairs_apart a b :
  (a, b) ∈ kept_pairs polygon polygon_len eps start end_ ->
  apart a b
  /\ a ∈ edge_records polygon polygon_len eps start end_
  /\ b ∈ edge_records polygon polygon_len eps start end_.
Proof.
  unfold kept_pairs.
  set (records := edge_records polygon polygon_len eps start end_).
  destruct (length records <? 2); [by intros ?%elem_of_nil|].
  intros Hin. split.
  - pose proof (pair_up_adjacent apart _
                  (collapse_adjacent _ (std_sort_adjacent records))) as HF.
    rewrite Forall_forall in HF. apply (HF (a, b) Hin).
  - apply elem_of_pair_up in Hin as [Ha Hb].
    apply elem_of_collapse in Ha, Hb.
    by rewrite (std_sort_perm by_t records) in Ha, Hb.
Qed.

(** An emitted pair runs forward along the line, its two records more
    than the collapsing distance apart. *)
Lemma emitted_pairs_ordered a b :
  (a, b) ∈ emitted_pairs polygon polygon_len eps start end_ ->
  runs_forward start end_ eps (a, b).
Proof.
  unfold emitted_pairs.
  rewrite list_elem_of_In, filter_In, <- list_elem_of_In.
  intros [Hkept Hmid].
  apply kept_pairs_apart in Hkept as ([Hle Hfar] & Ha & Hb).
  apply edge_records_accepted in Ha, Hb.
  destruct (midpoint_inside_finite _ _ _ _ _ _ _ Ha Hb Hmid) as [Hfa Hfb].
  split; [|split; [|by split]]; cbn [fst snd].
  - unfold is_finite in Hfa, Hfb.
    apply negb_true_iff, orb_false_elim in Hfa as [Hna Hia].
    apply negb_true_iff, orb_false_elim in Hfb as [Hnb _].
    by apply apart_lt.
  - unfold near_t in Hfar. rewrite leb_negb_ltb, Hfar; [done..|].
    by apply abs_not_nan, sub_finite_not_nan.
Qed.

End Ordered.

(** * One line of [generate_line_fill] against the specification *)


Section FillLine.
  Variables (polygon : list float) (polygon_len : nat).

Lemma fill_collect_spec start end_ eps :
  fill_collect polygon polygon_len start end_ eps
  = edge_records polygon polygon_len eps start end_.
Proof.
  unfold fill_collect, edge_records.
  by rewrite (fold_left_push (edge_record polygon polygon_len eps start end_)).
Qed.

Lemma fill_unique_spec l : fill_unique l = collapse l.
Proof.
  unfold fill_unique. induction l as [|r l IH] using rev_ind; [done|].
  rewrite fold_left_app, IH, collapse_snoc. cbn [fold_left].
  destruct (last (collapse l)) eqn:Hl; [done|].
  apply last_None in Hl. by rewrite Hl.
Qed.

Lemma fill_emit_spec unique segments :
  fill_emit polygon polygon_len unique segments
  = segments
    ++ concat (map flat4
         (map endpoints
            (List.filter (midpoint_inside polygon polygon_len)
               (pair_up unique)))).
Proof.
  unfold fill_emit.
  rewrite <- omap_midpoint_segment, (pair_up_nth ip0).
  generalize (seq 0 (length unique / 2)) as ks.
  intros ks; revert segments.
  induction ks as [|k ks IH]; intros segments.
  - simpl. by rewrite app_nil_r.
  - cbn [fold_left map omap list_omap fst snd]. rewrite IH.
    destruct (midpoint_segment _ _ _ _) as [[[x1 y1] [x2 y2]]|]; [|done].
    cbn [map concat]. by rewrite <- app_assoc.
Qed.

Lemma fill_result_flat (segs : list segment) :
  fill_result (concat (map flat4 segs)) = segs.
Proof.
  unfold fill_result.
  assert (length (concat (map flat4 segs)) = 4 * length segs) as ->.
  { induction segs as [|s segs IH]; [done|].
    cbn [map concat]. rewrite length_app, IH. simpl. lia. }
  rewrite Nat.mul_comm, Nat.div_mul by lia.
  induction segs as [|[[x1 y1] [x2 y2]] segs IH]; [done|].
  cbn [length seq map]. f_equal.
  rewrite <- seq_shift, map_map. etrans; [|exact IH].
  apply map_ext; intros i. cbn [map concat flat4 fst snd].
  replace (S i * 4) with (4 + i * 4) by lia.
  done.
Qed.
End FillLine.

Section FillLines.
  Variables (polygon : list float) (polygon_len : nat).
  Variables (spacing centroid_x centroid_y bbox_diag overshoot : float).
  Variables (line_dir_x line_dir_y : float).

Local Abbreviation line_spec :=
  (fill_line_spec polygon polygon_len spacing centroid_x centroid_y
     bbox_diag overshoot line_dir_x line_dir_y).

Lemma fill_line_refines segments idx :
  fill_line polygon polygon_len spacing centroid_x centroid_y bbox_diag
    overshoot line_dir_x line_dir_y segments idx
  = segments ++ concat (map flat4 (line_spec idx)).
Proof.
  unfold fill_line, fill_line_spec, clip_spec, emitted_pairs, kept_pairs.
  cbv zeta.
  destruct (candidate_line _ _ _ _ _ _ _ idx) as [start end_]. cbn [fst snd].
  rewrite fill_collect_spec.
  destruct (length _ <? 2); [by rewrite app_nil_r|].
  by rewrite fill_unique_spec, fill_emit_spec.
Qed.

Lemma fill_lines_refines :
  fill_lines polygon polygon_len spacing centroid_x centroid_y bbox_diag
    overshoot line_dir_x line_dir_y
  = concat (map line_spec (fill_indices spacing bbox_diag)).
Proof.
  unfold fill_lines.
  generalize (fill_indices spacing bbox_diag) as idxs. intros idxs.
  rewrite <- (fill_result_flat (concat (map line_spec idxs))).
  f_equal. change (concat (map flat4 (concat (map line_spec idxs))))
    with ([] ++ concat (map flat4 (concat (map line_spec idxs)))).
  generalize (@nil float) as acc.
  induction idxs as [|idx idxs IH]; intros acc.
  - simpl. by rewrite app_nil_r.
  - cbn [fold_left map concat].
    rewrite IH, fill_line_refines, map_app, concat_app.
    by rewrite app_assoc.
Qed.
End FillLines.

(** * The ring of edges seen by the ray cast (C8) *)


Section Ring.
  Variables (x y : float).

Lemma rd_flat (vs : list point) (i : nat) :
  rd (flat vs) (i * 2) = (nth i vs (0, 0)%float).1
  /\ rd (flat vs) (i * 2 + 1) = (nth i vs (0, 0)%float).2.
Proof.
  revert i; induction vs as [|v vs IH]; intros [|i]; try done.
  replace (S i * 2) with (S (S (i * 2))) by lia.
  apply (IH i).
Qed.

Lemma pip_step_crosses (vs : list point) (i j : nat) (inside : bool) :
  pip_step x y (flat vs) i j inside
  = xorb inside (crosses x y (nth i vs (0, 0)%float, nth j vs (0, 0)%float)).
Proof.
  unfold pip_step, crosses.
  destruct (rd_flat vs i) as [-> ->], (rd_flat vs j) as [-> ->].
  destruct (nth i vs _) as [xi yi], (nth j vs _) as [xj yj]. cbn [fst snd].
  destruct (_ && _), inside; done.
Qed.

(** The loop, started at index [a] with [j] behind it, toggles [inside]
    once for every crossing edge of the chain it walks. *)
Lemma pip_loop_chain (vs l : list point) (a j : nat) (inside : bool) :
  (forall i, i < length l ->
     nth (a + i) vs (0, 0)%float = nth i l (0, 0)%float) ->
  fst (fold_left
         (fun '(inside, j) i => (pip_step x y (flat vs) i j inside, i))
         (seq a (length l)) (inside, j))
  = xorb inside
      (parity (map (crosses x y) (chain (nth j vs (0, 0)%float) l))).
Proof.
  revert a j inside; induction l as [|v l IH]; intros a j inside Hl.
  - simpl. by destruct inside.
  - cbn [length seq fold_left chain map].
    rewrite (IH (S a) a).
    + rewrite pip_step_crosses.
      specialize (Hl 0 ltac:(simpl; lia)).
      rewrite Nat.add_0_r in Hl. cbn [nth] in Hl. rewrite Hl.
      unfold parity. cbn [foldr]. by rewrite xorb_assoc.
    + intros i Hi. specialize (Hl (S i) ltac:(simpl; lia)).
      by replace (a + S i) with (S a + i) in Hl by lia.
Qed.

Lemma point_in_polygon_ring (vs : list point) :
  point_in_polygon x y (flat vs) (length vs)
  = if (length vs <? 3)%nat then false
    else parity (map (crosses x y) (ring vs)).
Proof.
  unfold point_in_polygon. destruct (length vs <? 3)%nat eqn:Hn; [done|].
  rewrite (pip_loop_chain vs vs 0); [|done].
  unfold ring. rewrite last_lookup, nth_lookup.
  replace (pred (length vs)) with (length vs - 1) by lia.
  destruct (vs !! (length vs - 1)) eqn:Hlast; [done|].
  apply lookup_ge_None in Hlast. apply Nat.ltb_ge in Hn. lia.
Qed.

Lemma chain_app p l1 l2 :
  chain p (l1 ++ l2) = chain p l1 ++ chain (default p (last l1)) l2.
Proof.
  revert p; induction l1 as [|v l1 IH]; intros p; [done|].
  cbn [app chain]. by rewrite IH, last_cons_default.
Qed.

(** Cutting the ring elsewhere yields the same edges, in another order. *)
Lemma ring_cut l1 l2 : Permutation (ring (l2 ++ l1)) (ring (l1 ++ l2)).
Proof.
  destruct l1 as [|v1 l1]; [by rewrite app_nil_r|].
  destruct l2 as [|v2 l2]; [by rewrite app_nil_r|].
  unfold ring. rewrite !last_app, !last_cons_default. cbn [default].
  rewrite !chain_app, !last_cons_default. cbn [default].
  apply Permutation_app_comm.
Qed.

Lemma parity_perm l1 l2 : Permutation l1 l2 -> parity l1 = parity l2.
Proof.
  unfold parity. induction 1 as [|b l l' _ IH|b c l|l l' l'' _ IH1 _ IH2];
    simpl; [done|by rewrite IH| |congruence].
  by rewrite <- !xorb_assoc, (xorb_comm c b).
Qed.

(** The test reads the first [n] rows only: what follows them in the
    buffer, such as a closing vertex, is of no account. *)
Lemma point_in_polygon_prefix (vs : list point) (extra : list float) :
  point_in_polygon x y (flat vs ++ extra) (length vs)
  = point_in_polygon x y (flat vs) (length vs).
Proof.
  assert (length (flat vs) = 2 * length vs) as Hflat.
  { unfold flat. induction vs as [|v vs IH]; [done|].
    cbn [map concat]. rewrite length_app, IH. simpl. lia. }
  assert (forall k, k < 2 * length vs ->
            rd (flat vs ++ extra) k = rd (flat vs) k) as Hrd.
  { intros k Hk. unfold rd. apply app_nth1. lia. }
  assert (forall i j inside, i < length vs -> j < length vs ->
            pip_step x y (flat vs ++ extra) i j inside
            = pip_step x y (flat vs) i j inside) as Hstep.
  { intros i j inside Hi Hj. unfold pip_step.
    by rewrite !Hrd by lia. }
  unfold point_in_polygon.
  destruct (Nat.ltb_spec (length vs) 3) as [|Hn]; [done|]. f_equal.
  assert (forall l j acc,
            Forall (fun i => i < length vs) l -> j < length vs ->
            fold_left
              (fun '(inside, j) i =>
                 (pip_step x y (flat vs ++ extra) i j inside, i)) l (acc, j)
            = fold_left
                (fun '(inside, j) i =>
                   (pip_step x y (flat vs) i j inside, i)) l (acc, j))
    as Hfold.
  { induction l as [|i l IH]; intros j acc Hl Hj; [done|].
    apply Forall_cons in Hl as [Hi Hl]. cbn [fold_left].
    rewrite Hstep by done. by apply IH. }
  apply Hfold; [|lia].
  apply Forall_forall. intros i Hi%elem_of_seq. lia.
Qed.

Lemma ring_rotate (k : nat) (vs : list point) :
  Permutation (ring (rotate k vs)) (ring vs).
Proof.
  unfold rotate.
  etrans; [apply ring_cut|]. by rewrite take_drop.
Qed.
End Ring.


(** * The entry point [clip_lines_to_polygon] on accepted arguments *)


Lemma clip_lines_to_polygon_accepted heap polygon_obj line_starts_obj
    line_ends_obj eps poly_view start_view end_view :
  ensure_double_2d polygon_obj "polygon" = inr poly_view ->
  ensure_double_2d line_starts_obj "line_starts" = inr start_view ->
  ensure_double_2d line_ends_obj "line_ends" = inr end_view ->
  rows start_view = rows end_view ->
  let polygon := buf poly_view in
  let polygon_len :=
    effective_polygon_length polygon (Z.to_nat (rows poly_view)) in
  clip_lines_to_polygon heap polygon_obj line_starts_obj line_ends_obj eps
  = Returns
      (if (polygon_len <? 3)%nat || (rows start_view <=? 0)%Z then []
       else
         concat
           (map (fun i => clip_spec polygon polygon_len eps
                            (drop (i * 2) (buf start_view))
                            (drop (i * 2) (buf end_view)))
              (seq 0 (Z.to_nat (rows start_view))))).
Proof.
  intros Hp Hs He Hrows. unfold clip_lines_to_polygon, rows in *.
  rewrite Hp, Hs, He, Hrows, Z.eqb_refl. cbn [negb].
  destruct (_ || _); [done|].
  destruct (clip_lines_refines (buf poly_view)
              (effective_polygon_length (buf poly_view)
                 (Z.to_nat (nth 0 (shape poly_view) 0%Z)))
              eps (buf start_view) (buf end_view)
              (Z.to_nat (nth 0 (shape end_view) 0%Z))
              (PyMem_Malloc heap
                 (effective_polygon_length (buf poly_view)
                    (Z.to_nat (nth 0 (shape poly_view) 0%Z)))))
    as (block & -> & _); [apply length_PyMem_Malloc|done].
Qed.

(** * The order [std::sort] must produce *)

Section SortedOrder.
  Import FloatOrder.
  Local Open Scope float_scope.

Lemma key_inj x y :
  not_nan x -> not_nan y -> x <> S754_zero true -> y <> S754_zero true ->
  key x = key y -> x = y.
Proof.
  unfold not_nan.
  destruct x as [[]|[]| |[] mx ex], y as [[]|[]| |[] my ey];
    intros Hx Hy Hx0 Hy0 Hkey; try done; cbn in Hkey;
    injection Hkey as He Hm; f_equal; lia.
Qed.

(** Two records of one line that are at the same place are one record. *)
Lemma tie_is_equal p1 p2 eps a b :
  accepted p1 p2 eps a -> accepted p1 p2 eps b ->
  plain_t a -> plain_t b ->
  le_t a b -> le_t b a -> a = b.
Proof.
  intros (_ & _ & Hax & Hay) (_ & _ & Hbx & Hby) [Han Ha0] [Hbn Hb0].
  unfold le_t, by_t. rewrite !FloatAxioms.ltb_spec. intros Hba Hab.
  apply is_nan_false in Han, Hbn.
  assert (ip_t a = ip_t b) as Ht.
  { apply Prim2SF_inj, key_inj; try done. by apply SFltb_same_key. }
  destruct a as [ta xa ya], b as [tb xb yb]. cbn [ip_t ip_x ip_y] in *.
  by subst.
Qed.

(** A list has one sorted arrangement, when its ties are equal records. *)
Lemma sorted_unique (l1 l2 : list IntersectionPoint) :
  (forall a b, a ∈ l1 -> b ∈ l1 -> le_t a b -> le_t b a -> a = b) ->
  StronglySorted le_t l1 -> StronglySorted le_t l2 ->
  l1 ≡ₚ l2 -> l1 = l2.
Proof.
  revert l2. induction l1 as [|a l1 IH]; intros l2 Hanti H1 H2 Hperm.
  - by apply Permutation_nil in Hperm.
  - destruct l2 as [|b l2].
    { symmetry in Hperm. by apply Permutation_nil_cons in Hperm. }
    apply StronglySorted_inv in H1 as [H1 Ha], H2 as [H2 Hb].
    rewrite Forall_forall in Ha, Hb.
    assert (a = b) as <-.
    { assert (a ∈ b :: l2) as Hin by (rewrite <- Hperm; by left).
      assert (b ∈ a :: l1) as Hin' by (rewrite Hperm; by left).
      apply elem_of_cons in Hin as [?|Hin]; [done|].
      apply elem_of_cons in Hin' as [?|Hin']; [done|].
      apply Hanti; [by left|by right|by apply Ha|by apply Hb]. }
    f_equal. apply IH; [|done..|by apply Permutation_cons_inv in Hperm].
    intros c d Hc Hd. apply Hanti; by right.
Qed.
End SortedOrder.

(** ** Ascending order *)

Section AscendingOrder.
  Local Open Scope float_scope.









End AscendingOrder.

(** * The claims *)

(** C10.  While one line is scanned against the polygon, every edge adds at
    most one record to the scratch block: after the first [n] edges the
    count is at most [n], so it never exceeds [polygon_len], the capacity
    the block was allocated with, and no write falls outside the block.
    Hence [clip_lines_to_polygon] never writes out of bounds. *)
Theorem C10_scratch_block_in_bounds :
  forall heap polygon polygon_len eps,
    (forall start end_ n,
       exists block count,
         fold_left (clip_collect_step polygon polygon_len eps start end_)
           (take n (seq 0 polygon_len))
           (Some (PyMem_Malloc heap polygon_len, 0))
         = Some (block, count)
         /\ count <= n /\ count <= polygon_len
         /\ length block = polygon_len)
    /\ (forall start end_,
          exists block,
            clip_collect polygon polygon_len eps start end_
              (PyMem_Malloc heap polygon_len)
            = Some (block,
                    length (edge_records polygon polygon_len eps start end_))
            /\ length (edge_records polygon polygon_len eps start end_)
               <= polygon_len)
    /\ (forall polygon_obj line_starts_obj line_ends_obj,
          clip_lines_to_polygon heap polygon_obj line_starts_obj
            line_ends_obj eps
          <> OutOfBounds).
Proof.
  intros heap polygon polygon_len eps.
  pose proof (length_PyMem_Malloc heap polygon_len) as Hcap.
  split; [|split].
  - intros start end_ n. rewrite take_seq.
    destruct (clip_collect_prefix polygon polygon_len eps start end_
                (PyMem_Malloc heap polygon_len) (n `min` polygon_len))
      as (block & count & Hfold & Hlen & Hcount & _); [lia|].
    exists block, count. repeat split; [done|lia..].
  - intros start end_.
    destruct (clip_collect_prefix polygon polygon_len eps start end_
                (PyMem_Malloc heap polygon_len) polygon_len)
      as (block & count & Hfold & Hlen & Hcount & Htake & _); [lia|].
    fold (edge_records polygon polygon_len eps start end_) in Htake.
    assert (length (edge_records polygon polygon_len eps start end_) = count)
      as ->.
    { rewrite <- Htake, length_take_le; [done|lia]. }
    by exists block.
  - intros polygon_obj line_starts_obj line_ends_obj.
    unfold clip_lines_to_polygon.
    destruct (ensure_double_2d polygon_obj _); [done|].
    destruct (ensure_double_2d line_starts_obj _); [done|].
    destruct (ensure_double_2d line_ends_obj _); [done|].
    destruct (negb _); [done|]. destruct (_ || _); [done|].
    match goal with
    | |- context [clip_lines ?p ?n ?e ?s ?t ?m ?b] =>
        destruct (clip_lines_refines p n e s t m b) as (block & -> & _)
    end; [apply length_PyMem_Malloc|done].
Qed.




(** C8.  The even-odd test of a point against a vertex list gives the same
    answer when the list is rotated to start at any other vertex of the
    ring, whatever follows the effective vertices in either buffer (a
    closing vertex for instance). *)
Theorem C8_point_in_polygon_rotation :
  forall (x y : float) (vs : list point) (k : nat)
         (closing closing' : list float),
    point_in_polygon x y (flat (rotate k vs) ++ closing') (length vs)
    = point_in_polygon x y (flat vs ++ closing) (length vs).
Proof.
  intros x y vs k closing closing'.
  rewrite <- (length_rotate vs k) at 1.
  rewrite !point_in_polygon_prefix, !point_in_polygon_ring, length_rotate.
  destruct (length vs <? 3)%nat; [done|].
  apply parity_perm, Permutation_map, ring_rotate.
Qed.




(** C5.  When the three buffers are accepted and the two line arrays have
    the same number of rows, a polygon of effective length below 3, or an
    empty set of lines, makes [clip_lines_to_polygon] return the empty
    list: it does not raise. *)
Theorem C5_degenerate_input_returns_empty :
  forall heap polygon_obj line_starts_obj line_ends_obj eps
         poly_view start_view end_view,
    ensure_double_2d polygon_obj "polygon" = inr poly_view ->
    ensure_double_2d line_starts_obj "line_starts" = inr start_view ->
    ensure_double_2d line_ends_obj "line_ends" = inr end_view ->
    rows start_view = rows end_view ->
    effective_polygon_length (buf poly_view) (Z.to_nat (rows poly_view)) < 3
    \/ (rows start_view <= 0)%Z ->
    clip_lines_to_polygon heap polygon_obj line_starts_obj line_ends_obj eps
    = Returns [].
Proof.
  intros heap polygon_obj line_starts_obj line_ends_obj eps
    poly_view start_view end_view Hp Hs He Hrows Hdeg.
  rewrite (clip_lines_to_polygon_accepted _ _ _ _ _ _ _ _ Hp Hs He Hrows).
  cbv zeta.
  destruct (Nat.ltb_spec
              (effective_polygon_length (buf poly_view)
                 (Z.to_nat (rows poly_view))) 3) as [|Hge]; [done|].
  destruct (Z.leb_spec (rows start_view) 0) as [|Hpos]; [done|].
  lia.
Qed.

Lemma C5_degenerate_input_returns_empty_witness :
  clip_lines_to_polygon [] (array2 [0; 0; 1; 1; 0; 0]%float)
    (array2 [-1; 0.5]%float) (array2 [2; 0.5]%float) 1e-10
  = Returns [].
Proof.
  eapply (C5_degenerate_input_returns_empty []
            (array2 [0; 0; 1; 1; 0; 0]%float)
            (array2 [-1; 0.5]%float) (array2 [2; 0.5]%float) 1e-10);
    [reflexivity..|].
  left. vm_compute. lia.
Defined.

(** ** Segment against segment (C3) *)

Lemma in_range_negb eps v :
  is_nan v = false -> is_nan (1.0 + eps)%float = false ->
  in_range eps v = negb ((v <? - eps) || (v >? 1.0 + eps))%float.
Proof.
  intros Hv Heps. unfold in_range, Dbl.gtb.
  assert (is_nan eps = false) as Heps'.
  { apply not_true_is_false. intros H.
    by rewrite (add_nan_r 1.0%float eps H) in Heps. }
  rewrite !leb_negb_ltb by (try done; by apply opp_not_nan).
  by rewrite negb_orb.
Qed.

(** C3, as the code has it.  With [denom], [t] and [u] as above: the
    primitive returns nothing when [|denom| < eps].  Otherwise it rejects
    exactly when [t] or [u] compares below [-eps] or above [1 + eps]; so,
    [t], [u] and [1 + eps] being numbers, it accepts exactly when [t] and
    [u] both lie in [[-eps, 1 + eps]].  Whenever it accepts, the record it
    returns is [t] with the point [p1 + t (p2 - p1)]. *)
Theorem C3_intersection_in_range :
  forall p1 p2 p3 p4 eps,
    let denom := cramer_denom p1 p2 p3 p4 in
    let t := cramer_t p1 p2 p3 p4 in
    let u := cramer_u p1 p2 p3 p4 in
    let found := compute_line_segment_intersection p1 p2 p3 p4 eps in
    ((Dbl.fabs denom <? eps)%float = true -> found = None)
    /\ ((Dbl.fabs denom <? eps)%float = false ->
        (found = None
         <-> ((t <? - eps) || (t >? 1.0 + eps)
              || (u <? - eps) || (u >? 1.0 + eps))%float = true))
    /\ ((Dbl.fabs denom <? eps)%float = false ->
        is_nan t = false -> is_nan u = false ->
        is_nan (1.0 + eps)%float = false ->
        found = if in_range eps t && in_range eps u
                then Some (point_at p1 p2 t) else None)
    /\ (forall r, found = Some r -> r = point_at p1 p2 t).
Proof.
  intros p1 p2 p3 p4 eps denom t u found.
  unfold found, compute_line_segment_intersection.
  fold (cramer_denom p1 p2 p3 p4). fold denom.
  fold (cramer_t p1 p2 p3 p4). fold t.
  fold (cramer_u p1 p2 p3 p4). fold u.
  fold (point_at p1 p2 t).
  split; [by intros ->|]. split; [|split].
  - intros ->. by destruct (_ || _).
  - intros -> Ht Hu Heps. rewrite !in_range_negb by done.
    rewrite <- negb_orb, orb_assoc. by destruct (_ || _).
  - intros r. destruct (Dbl.fabs denom <? eps)%float; [done|].
    destruct (_ || _); [done|]. by intros [= <-].
Qed.

Lemma C3_intersection_in_range_witness :
  compute_line_segment_intersection
    [-1; 0.5]%float [2; 0.5]%float [1; 0]%float [1; 1]%float 1e-10
  = Some (point_at [-1; 0.5]%float [2; 0.5]%float
            (cramer_t [-1; 0.5]%float [2; 0.5]%float
               [1; 0]%float [1; 1]%float)).
Proof.
  rewrite (proj1 (proj2 (proj2 (C3_intersection_in_range
                                  [-1; 0.5]%float [2; 0.5]%float
                                  [1; 0]%float [1; 1]%float 1e-10))));
    reflexivity.
Defined.

(** C3 as stated fails when overflow makes [t] a NaN: the primitive accepts
    although [t] is in no interval. *)
Lemma C3_nan_position_is_accepted :
  exists r,
    compute_line_segment_intersection
      [1e308; 0]%float [-1e308; 0]%float [0; -1]%float [0; 1]%float 1e-10
    = Some r
    /\ (Dbl.fabs (cramer_denom [1e308; 0]%float [-1e308; 0]%float
                    [0; -1]%float [0; 1]%float) <? 1e-10)%float = false
    /\ ip_t r = cramer_t [1e308; 0]%float [-1e308; 0]%float
                  [0; -1]%float [0; 1]%float
    /\ in_range 1e-10 (ip_t r) = false.
Proof. eexists. repeat split; reflexivity. Qed.

(** ** Circle against circle (C4) *)

(** C4, as the code has it.  With [d] the distance of the centres,
    [a = (r1^2 - r2^2 + d^2) / (2 d)], [h_sq = r1^2 - a^2] and
    [h = sqrt (max h_sq 0)], the list is empty when [d > r1 + r2 + tol],
    [d < |r1 - r2| - tol], [d < tol] or [h_sq < -tol]; otherwise it has two
    points when [h > tol] and one point when not, which for a [tol] that is
    a number is: one point when [h <= tol], two otherwise.  Two identical
    circles with a finite centre give the empty list, through [d < tol],
    when [tol] is positive. *)
Theorem C4_circle_intersections_count :
  forall M, m_hypot M 0%float 0%float = 0%float ->
    (forall cx1 cy1 r1 cx2 cy2 r2 tol,
       let h := half_chord M cx1 cy1 r1 cx2 cy2 r2 in
       length (circle_circle_intersections M cx1 cy1 r1 cx2 cy2 r2 tol)
       = (if no_intersection M cx1 cy1 r1 cx2 cy2 r2 tol then 0
          else if (h >? tol)%float then 2 else 1)
       /\ (is_nan tol = false ->
           length (circle_circle_intersections M cx1 cy1 r1 cx2 cy2 r2 tol)
           = if no_intersection M cx1 cy1 r1 cx2 cy2 r2 tol then 0
             else if (h <=? tol)%float then 1 else 2))
    /\ (forall cx cy r tol,
          is_finite cx = true -> is_finite cy = true ->
          (0 <? tol)%float = true ->
          (centre_distance M cx cy cx cy <? tol)%float = true
          /\ circle_circle_intersections M cx cy r cx cy r tol = []).
Proof.
  intros M Hhypot. split.
  - intros cx1 cy1 r1 cx2 cy2 r2 tol h.
    assert (length (circle_circle_intersections M cx1 cy1 r1 cx2 cy2 r2 tol)
            = if no_intersection M cx1 cy1 r1 cx2 cy2 r2 tol then 0
              else if (h >? tol)%float then 2 else 1) as Hcount.
    { unfold circle_circle_intersections, no_intersection, h, half_chord,
        half_chord_sq, centre_distance. cbv zeta.
      destruct (_ || _ || _)%float; [done|]. cbn [orb].
      destruct (_ <? - tol)%float; [done|].
      rewrite clamped_root_gtb.
      by destruct (_ >? tol)%float. }
    split; [done|]. intros Htol. rewrite Hcount.
    unfold Dbl.gtb.
    rewrite (leb_negb_ltb h tol); [|apply clamped_root_not_nan|done].
    by destruct (tol <? h)%float.
  - intros cx cy r tol Hcx Hcy Htol.
    unfold circle_circle_intersections, centre_distance.
    rewrite !sub_diag_finite by done. rewrite Hhypot, Htol.
    by rewrite orb_true_r.
Qed.

Lemma C4_circle_intersections_count_witness :
  m_hypot taylor_libm 0%float 0%float = 0%float
  /\ length (circle_circle_intersections taylor_libm 0 0 2 3 0 2 1e-9) = 2
  /\ length (circle_circle_intersections taylor_libm 0 0 1 2 0 1 1e-9) = 1
  /\ circle_circle_intersections taylor_libm 0.5 0.25 1 0.5 0.25 1 1e-9 = [].
Proof.
  split; [reflexivity|]. split; [|split].
  - rewrite (proj2 (proj1 (C4_circle_intersections_count taylor_libm eq_refl)
                      0 0 2 3 0 2 1e-9)%float); reflexivity.
  - rewrite (proj2 (proj1 (C4_circle_intersections_count taylor_libm eq_refl)
                      0 0 1 2 0 1 1e-9)%float); reflexivity.
  - apply (proj2 (C4_circle_intersections_count taylor_libm eq_refl));
      reflexivity.
Defined.

(** C4 as stated fails for [tol = 0]: two identical circles are not caught
    by [d < tol], and one point (of NaN coordinates) is returned.  It also
    fails for a [tol] that is a NaN: [h <= tol] is false, and one point is
    returned, not two. *)
Lemma C4_identical_circles_zero_tol :
  circle_circle_intersections taylor_libm 0 0 1 0 0 1 0
  = [(nan, nan)]
  /\ length (circle_circle_intersections taylor_libm 0 0 1 1 0 1 nan) = 1
  /\ no_intersection taylor_libm 0 0 1 1 0 1 nan = false
  /\ (half_chord taylor_libm 0 0 1 1 0 1 <=? nan)%float = false.
Proof. repeat split; reflexivity. Qed.

(** ** The hatch fill of the unit square (C1) *)


Lemma generate_line_fill_unit_square M :
  generate_line_fill M unit_square 0.25 0 Py_None Py_None 2.0
  = let d := m_hypot M 1%float 1%float in
    if (d <=? 0.0)%float then Returns []
    else
      Returns
        (fill_lines unit_square_buf 4 0.25 0.5 0.5 d 2.0
           (m_cos M 0%float) (m_sin M 0%float)).
Proof. reflexivity. Qed.

(** C1, as the code has it.  With a [cos], [sin] and [hypot] that are exact
    at the arguments met ([cos 0 = 1], [sin 0 = 0], [hypot (1, 1)] the
    double nearest the square root of 2), the fill of the unit square with
    spacing 0.25 and angle 0 has 17 candidate lines, of offsets [k] from -8
    to 8, both ends of line [k] at height [0.5 + k * 0.25]; it returns four
    segments, all horizontal, spanning x from 0 to 1 at the heights 0, 0.25,
    0.5 and 0.75 (within 1e-9).  For any arguments the candidate line of
    offset [idx] is the base line from [centroid - span] to
    [centroid + span] moved by [idx * spacing] along the perpendicular, for
    [idx] from [-num_lines] to [num_lines]. *)
Theorem C1_unit_square_fill :
  forall M,
    m_cos M 0%float = 1%float -> m_sin M 0%float = 0%float ->
    m_hypot M 1%float 1%float = sqrt 2%float ->
    (exists segs,
       generate_line_fill M unit_square 0.25 0 Py_None Py_None 2.0
       = Returns segs
       /\ length segs = 4
       /\ forallb horizontal segs = true
       /\ hatch_at 1e-9 [0; 0.25; 0.5; 0.75]%float segs = true)
    /\ fill_indices 0.25 (sqrt 2%float) = seqZ (-8) 17
    /\ map (fun k =>
              let '(start, end_) :=
                candidate_line 0.25 0.5 0.5 (sqrt 2%float) 2.0
                  (m_cos M 0%float) (m_sin M 0%float) k in
              (rd start 1, rd end_ 1))
           (seqZ (-8) 17)
       = map (fun k => (0.5 + Dbl.of_Z k * 0.25, 0.5 + Dbl.of_Z k * 0.25)%float)
           (seqZ (-8) 17)
    /\ (forall spacing centroid_x centroid_y bbox_diag overshoot
               line_dir_x line_dir_y idx,
          let span_x := (line_dir_x * (bbox_diag * overshoot))%float in
          let span_y := (line_dir_y * (bbox_diag * overshoot))%float in
          let offset := (Dbl.of_Z idx * spacing)%float in
          candidate_line spacing centroid_x centroid_y bbox_diag overshoot
            line_dir_x line_dir_y idx
          = ([centroid_x - span_x + offset * (- line_dir_y);
              centroid_y - span_y + offset * line_dir_x]%float,
             [centroid_x + span_x + offset * (- line_dir_y);
              centroid_y + span_y + offset * line_dir_x]%float)
          /\ fill_indices spacing bbox_diag
             = seqZ (- num_lines spacing bbox_diag)
                 (2 * num_lines spacing bbox_diag + 1)).
Proof.
  intros M Hcos Hsin Hhypot.
  split; [|split; [|split]].
  - rewrite generate_line_fill_unit_square, Hhypot, Hcos, Hsin.
    eexists. split; [reflexivity|]. by vm_compute.
  - by vm_compute.
  - rewrite Hcos, Hsin. by vm_compute.
  - done.
Qed.

Lemma C1_unit_square_fill_witness :
  (exists segs,
     generate_line_fill taylor_libm unit_square 0.25 0 Py_None Py_None 2.0
     = Returns segs
     /\ length segs = 4
     /\ forallb horizontal segs = true
     /\ hatch_at 1e-9 [0; 0.25; 0.5; 0.75]%float segs = true).
Proof.
  apply (proj1 (C1_unit_square_fill taylor_libm eq_refl eq_refl eq_refl)).
Defined.

(** C1 as stated fails: no returned segment is within 0.1 of any of the
    heights 0.125, 0.375, 0.625 and 0.875. *)
Lemma C1_no_segment_at_midline_heights :
  exists segs,
    generate_line_fill taylor_libm unit_square 0.25 0 Py_None Py_None 2.0
    = Returns segs
    /\ existsb
         (fun seg =>
            existsb (fun y => spans_unit_width 0.1 y seg)
              [0.125; 0.375; 0.625; 0.875]%float)
         segs
       = false
    /\ hatch_at 0.1 [0.125; 0.375; 0.625; 0.875]%float segs = false.
Proof. eexists. repeat split; by vm_compute. Qed.

(** ** Rejected arguments (C6) *)


Lemma ensure_double_2d_bad obj name :
  bad_buffer obj ->
  exists e, ensure_double_2d obj name = inl e /\ mentions name e.
Proof.
  intros (view & Hview & Hbad). unfold ensure_double_2d. rewrite Hview.
  destruct (Z.eqb_spec (ndim view) 2) as [Hn|Hn]; cbn [negb].
  2:{ eexists. split; [done|]. by exists ""%string, " must be a 2D array"%string. }
  destruct (Z.eqb_spec (nth 1 (shape view) 0%Z) 2) as [Hs|Hs]; cbn [negb].
  2:{ eexists. split; [done|].
      by exists ""%string, " must have shape (N, 2)"%string. }
  destruct Hbad as [?|[?|Hf]]; [done..|].
  assert (forall s, s <> "d"%string ->
    exists e,
      match Some s with
      | Some "d"%string => inr view
      | _ => inl (TypeError (name ++ " must have dtype float64"))
      end = inl e /\ mentions name e) as Hother.
  { intros s Hsd. eexists. split.
    - destruct s as [|[[] [] [] [] [] [] [] []] [|??]]; try done.
    - by exists ""%string, " must have dtype float64"%string. }
  destruct (format view) as [s|].
  - apply Hother. congruence.
  - eexists. split; [done|].
    by exists ""%string, " must have dtype float64"%string.
Qed.

(** C6, as the code has it.  A buffer that is not two-dimensional with two
    columns of doubles, [line_starts] and [line_ends] of different lengths,
    and a [spacing] that is not positive each make the call raise an error
    whose text names the parameter, and no list is returned.  A [centroid]
    sequence whose length is not 2 raises such an error when
    [generate_line_fill] comes to read it, that is when [spacing] and the
    polygon are accepted and the polygon has an effective length of at
    least 3. *)
Theorem C6_contract_violations_raise :
  (forall obj name,
     bad_buffer obj ->
     exists e, ensure_double_2d obj name = inl e /\ mentions name e)
  /\ (forall heap polygon_obj line_starts_obj line_ends_obj eps,
        (bad_buffer polygon_obj ->
         exists e,
           clip_lines_to_polygon heap polygon_obj line_starts_obj
             line_ends_obj eps = Raises e
           /\ mentions "polygon" e)
        /\ (forall poly_view,
              ensure_double_2d polygon_obj "polygon" = inr poly_view ->
              (bad_buffer line_starts_obj ->
               exists e,
                 clip_lines_to_polygon heap polygon_obj line_starts_obj
                   line_ends_obj eps = Raises e
                 /\ mentions "line_starts" e)
              /\ (forall start_view,
                    ensure_double_2d line_starts_obj "line_starts"
                    = inr start_view ->
                    (bad_buffer line_ends_obj ->
                     exists e,
                       clip_lines_to_polygon heap polygon_obj
                         line_starts_obj line_ends_obj eps = Raises e
                       /\ mentions "line_ends" e)
                    /\ (forall end_view,
                          ensure_double_2d line_ends_obj "line_ends"
                          = inr end_view ->
                          rows start_view <> rows end_view ->
                          exists e,
                            clip_lines_to_polygon heap polygon_obj
                              line_starts_obj line_ends_obj eps = Raises e
                            /\ mentions "line_starts" e
                            /\ mentions "line_ends" e))))
  /\ (forall M polygon_obj spacing angle_deg centroid_obj bbox_obj overshoot,
        ((spacing <=? 0.0)%float = true ->
         exists e,
           generate_line_fill M polygon_obj spacing angle_deg centroid_obj
             bbox_obj overshoot = Raises e
           /\ mentions "spacing" e)
        /\ ((spacing <=? 0.0)%float = false ->
            (bad_buffer polygon_obj ->
             exists e,
               generate_line_fill M polygon_obj spacing angle_deg
                 centroid_obj bbox_obj overshoot = Raises e
               /\ mentions "polygon" e)
            /\ (forall poly_view items,
                  ensure_double_2d polygon_obj "polygon" = inr poly_view ->
                  3 <= effective_polygon_length (buf poly_view)
                         (Z.to_nat (rows poly_view)) ->
                  centroid_obj = PyTuple items -> length items <> 2 ->
                  exists e,
                    generate_line_fill M polygon_obj spacing angle_deg
                      centroid_obj bbox_obj overshoot = Raises e
                    /\ mentions "centroid" e))).
Proof.
  split; [apply ensure_double_2d_bad|]. split.
  - intros heap polygon_obj line_starts_obj line_ends_obj eps.
    unfold clip_lines_to_polygon. split.
    { intros (e & -> & He)%(ensure_double_2d_bad _ "polygon"). by exists e. }
    intros poly_view ->. split.
    { intros (e & -> & He)%(ensure_double_2d_bad _ "line_starts").
      by exists e. }
    intros start_view ->. split.
    { intros (e & -> & He)%(ensure_double_2d_bad _ "line_ends").
      by exists e. }
    intros end_view -> Hrows. unfold rows in Hrows.
    destruct (Z.eqb_spec (nth 0 (shape start_view) 0%Z)
                (nth 0 (shape end_view) 0%Z)); [done|].
    eexists. split; [done|]. split.
    + by exists ""%string, " and line_ends must have the same length"%string.
    + by exists "line_starts and "%string, " must have the same length"%string.
  - intros M polygon_obj spacing angle_deg centroid_obj bbox_obj overshoot.
    unfold generate_line_fill. split.
    { intros ->. eexists. split; [done|].
      by exists ""%string, " must be positive"%string. }
    intros ->. split.
    { intros (e & -> & He)%(ensure_double_2d_bad _ "polygon"). by exists e. }
    intros poly_view items -> Hlen -> Hitems. unfold rows in Hlen.
    destruct (Nat.ltb_spec
                (effective_polygon_length (buf poly_view)
                   (Z.to_nat (nth 0 (shape poly_view) 0%Z))) 3); [lia|].
    unfold parse_point_like, PySequence_Fast.
    destruct (Nat.eqb_spec (length items) 2); [done|]. cbn [negb].
    eexists. split; [done|].
    by exists ""%string, " must have length 2"%string.
Qed.

Lemma C6_contract_violations_raise_witness :
  exists e,
    generate_line_fill taylor_libm unit_square (-1) 0 Py_None Py_None 2.0
    = Raises e
    /\ mentions "spacing" e.
Proof.
  apply (proj1 (proj2 (proj2 C6_contract_violations_raise)
                 taylor_libm unit_square (-1)%float 0%float Py_None Py_None
                 2.0%float)).
  reflexivity.
Defined.

(** C6 as stated fails: with a polygon of two vertices a [centroid] of
    three numbers raises nothing, the empty list being returned before the
    centroid is read. *)
Lemma C6_centroid_unread_for_degenerate_polygon :
  generate_line_fill taylor_libm (array2 [0; 0; 1; 1]%float) 1 0
    (PyTuple [PyFloat 1; PyFloat 2; PyFloat 3]) Py_None 2.0
  = Returns [].
Proof. reflexivity. Qed.

(** ** Clipping a clipped segment again (C7) *)

(** C7, as the code has it.  On the example of the specification
    idempotence holds: against the unit square the line from (-1, 0.5) to
    (2, 0.5) is clipped to the segment from (0, 0.5) to (1, 0.5), and that
    segment, clipped again with the same [eps], comes back unchanged. *)
Theorem C7_reclip_unit_square_example :
  forall heap heap',
    clip_lines_to_polygon heap unit_square (array2 [-1; 0.5]%float)
      (array2 [2; 0.5]%float) 1e-10
    = Returns [((0, 0.5), (1, 0.5))%float]
    /\ clip_lines_to_polygon heap' unit_square (array2 [0; 0.5]%float)
         (array2 [1; 0.5]%float) 1e-10
       = Returns [((0, 0.5), (1, 0.5))%float].
Proof.
  intros heap heap'. split.
  - by rewrite (clip_lines_to_polygon_accepted heap unit_square
                  (array2 [-1; 0.5]%float) (array2 [2; 0.5]%float) 1e-10
                  _ _ _ eq_refl eq_refl eq_refl eq_refl).
  - by rewrite (clip_lines_to_polygon_accepted heap' unit_square
                  (array2 [0; 0.5]%float) (array2 [1; 0.5]%float) 1e-10
                  _ _ _ eq_refl eq_refl eq_refl eq_refl).
Qed.

(** C7 as stated fails.  Against the unit square the line at height 0.25
    through the whole bounding diagonal is clipped to a segment ending at
    x = 1 + 2^-51, and that segment clipped again ends at x = 1.  Against a
    square of side 2^-17 the emitted segment is so short that every edge
    fails the test on the determinant, and clipping it again returns
    nothing. *)
Lemma C7_reclip_changes_segment :
  (clip_lines_to_polygon [] unit_square
     (array2 [0.5 - 2 * sqrt 2; 0.25]%float)
     (array2 [0.5 + 2 * sqrt 2; 0.25]%float) 1e-10
   = Returns [((0, 0.25), (0x1.0000000000002p+0, 0.25))%float]
   /\ clip_lines_to_polygon [] unit_square (array2 [0; 0.25]%float)
        (array2 [0x1.0000000000002p+0; 0.25]%float) 1e-10
      = Returns [((0, 0.25), (1, 0.25))%float])
  /\ (clip_lines_to_polygon []
        (array2 [0; 0; 0x1p-17; 0; 0x1p-17; 0x1p-17; 0; 0x1p-17]%float)
        (array2 [-1; 0x1p-18]%float) (array2 [1; 0x1p-18]%float) 1e-10
      = Returns [((0, 0x1p-18), (0x1p-17, 0x1p-18))%float]
      /\ clip_lines_to_polygon []
           (array2 [0; 0; 0x1p-17; 0; 0x1p-17; 0x1p-17; 0; 0x1p-17]%float)
           (array2 [0; 0x1p-18]%float) (array2 [0x1p-17; 0x1p-18]%float)
           1e-10
         = Returns []).
Proof. repeat split; by vm_compute. Qed.

(** * Further properties of the kernel *)

(** ** Buffers read row by row *)

Section Rows.
  Local Open Scope float_scope.

Lemma rd_drop (p : list float) (k i : nat) : rd (drop k p) i = rd p (k + i).
Proof. unfold rd. by rewrite !nth_lookup, lookup_drop. Qed.

Lemma length_flat (vs : list point) : length (flat vs) = (2 * length vs)%nat.
Proof.
  unfold flat. induction vs as [|v vs IH]; [done|].
  cbn [map concat]. rewrite length_app, IH. simpl. lia.
Qed.

Lemma flat_app (vs ws : list point) : flat (vs ++ ws) = flat vs ++ flat ws.
Proof. unfold flat. by rewrite map_app, concat_app. Qed.

Lemma rows_flat (vs : list point) : (length (flat vs) / 2)%nat = length vs.
Proof. rewrite length_flat, Nat.mul_comm. apply Nat.div_mul. lia. Qed.

Lemma ensure_double_2d_array2 data name :
  ensure_double_2d (array2 data) name
  = inr (PyBuffer 2 [Z.of_nat (length data / 2); 2%Z] (Some "d"%string) data).
Proof. reflexivity. Qed.

Lemma seq_from (a n : nat) : seq a n = map (Nat.add a) (seq 0 n).
Proof.
  revert a; induction n as [|n IH]; intros a; [done|].
  cbn [seq map]. rewrite Nat.add_0_r. f_equal.
  rewrite (IH (S a)), (IH 1%nat), map_map. apply map_ext. intros i. lia.
Qed.

Lemma nth_map_lt {A B : Type} (f : A -> B) (l : list A) (i : nat) (d : B)
    (d' : A) :
  (i < length l)%nat -> nth i (map f l) d = f (nth i l d').
Proof.
  intros Hi. rewrite (nth_indep _ d (f d')) by (rewrite length_map; lia).
  apply map_nth.
Qed.

Lemma map_nth_seq {A B : Type} (f : A -> B) (l : list A) (d : A) :
  map (fun i => f (nth i l d)) (seq 0 (length l)) = map f l.
Proof.
  induction l as [|a l IH]; [done|].
  cbn [length seq map]. f_equal.
  rewrite <- seq_shift, map_map. exact IH.
Qed.

Lemma omap_seq_ext {B : Type} (f g : nat -> option B) (a n : nat) :
  (forall i, (a <= i < a + n)%nat -> f i = g i) ->
  omap f (seq a n) = omap g (seq a n).
Proof.
  revert a; induction n as [|n IH]; intros a Hfg; [done|].
  simpl. rewrite Hfg by lia. destruct (g a).
  - f_equal. apply IH. intros i Hi. apply Hfg. lia.
  - apply IH. intros i Hi. apply Hfg. lia.
Qed.

Lemma fold_left_ext_in {A B : Type} (f g : A -> B -> A) (l : list B) (a : A) :
  (forall acc b, In b l -> f acc b = g acc b) ->
  fold_left f l a = fold_left g l a.
Proof.
  revert a; induction l as [|b l IH]; intros a Hfg; [done|].
  cbn [fold_left]. rewrite Hfg by (by left). apply IH.
  intros acc b' Hb'. apply Hfg. by right.
Qed.

(** The primitive reads two doubles at each of its four pointers. *)
Lemma intersection_ext p1 p2 p3 p4 q1 q2 q3 q4 eps :
  rd p1 0 = rd q1 0 -> rd p1 1 = rd q1 1 ->
  rd p2 0 = rd q2 0 -> rd p2 1 = rd q2 1 ->
  rd p3 0 = rd q3 0 -> rd p3 1 = rd q3 1 ->
  rd p4 0 = rd q4 0 -> rd p4 1 = rd q4 1 ->
  compute_line_segment_intersection p1 p2 p3 p4 eps
  = compute_line_segment_intersection q1 q2 q3 q4 eps.
Proof.
  intros H1 H2 H3 H4 H5 H6 H7 H8. unfold compute_line_segment_intersection.
  by rewrite H1, H2, H3, H4, H5, H6, H7, H8.
Qed.

Lemma clip_spec_line_ext polygon n eps s e s' e' :
  rd s 0 = rd s' 0 -> rd s 1 = rd s' 1 ->
  rd e 0 = rd e' 0 -> rd e 1 = rd e' 1 ->
  clip_spec polygon n eps s e = clip_spec polygon n eps s' e'.
Proof.
  intros Hs0 Hs1 He0 He1.
  unfold clip_spec, emitted_pairs, kept_pairs, edge_records.
  rewrite (omap_seq_ext (edge_record polygon n eps s e)
             (edge_record polygon n eps s' e')); [done|].
  intros j _. by apply intersection_ext.
Qed.

Lemma clip_spec_row polygon n eps (starts ends : list point) i :
  clip_spec polygon n eps (drop (i * 2) (flat starts))
    (drop (i * 2) (flat ends))
  = clip_spec polygon n eps (row starts i) (row ends i).
Proof.
  apply clip_spec_line_ext; rewrite rd_drop; unfold row, rd; cbn [nth];
    first [rewrite Nat.add_0_r; apply rd_flat | apply rd_flat].
Qed.

(** [clip_lines_to_polygon] on two arrays of points. *)
Lemma clip_lines_to_polygon_flat heap polygon_obj (starts ends : list point)
    eps :
  clip_lines_to_polygon heap polygon_obj (array2 (flat starts))
    (array2 (flat ends)) eps
  = match ensure_double_2d polygon_obj "polygon" with
    | inl e => Raises e
    | inr poly_view =>
        if negb (length starts =? length ends)%nat then
          Raises
            (ValueError "line_starts and line_ends must have the same length")
        else
          let n :=
            effective_polygon_length (buf poly_view)
              (Z.to_nat (rows poly_view)) in
          Returns
            (if (n <? 3)%nat then []
             else
               concat
                 (map (fun i => clip_spec (buf poly_view) n eps
                                  (row starts i) (row ends i))
                    (seq 0 (length starts))))
    end.
Proof.
  destruct (ensure_double_2d polygon_obj "polygon") as [e|poly_view] eqn:Hp.
  { unfold clip_lines_to_polygon. by rewrite Hp. }
  destruct (Nat.eqb_spec (length starts) (length ends)) as [Hlen|Hlen];
    cbn [negb].
  2:{ unfold clip_lines_to_polygon.
      rewrite Hp, !ensure_double_2d_array2. cbn [shape nth].
      rewrite !rows_flat.
      destruct (Z.eqb_spec (Z.of_nat (length starts))
                  (Z.of_nat (length ends))) as [|]; [lia|done]. }
  rewrite (clip_lines_to_polygon_accepted heap polygon_obj _ _ eps poly_view
             _ _ Hp (ensure_double_2d_array2 _ _)
             (ensure_double_2d_array2 _ _)).
  2:{ unfold rows. cbn [shape nth]. rewrite !rows_flat. lia. }
  cbv zeta. unfold rows. cbn [shape nth buf]. rewrite rows_flat.
  rewrite Nat2Z.id. f_equal.
  destruct (_ <? 3)%nat; [done|]. cbn [orb].
  destruct (Z.leb_spec (Z.of_nat (length starts)) 0) as [Hz|Hz].
  - assert (length starts = 0%nat) as -> by lia. done.
  - f_equal. apply map_ext. intros i. apply clip_spec_row.
Qed.
End Rows.

(** ** The closing vertex ([effective_polygon_length]) *)

Section Closing.
  Import FloatOrder.
  Local Open Scope float_scope.

Lemma sub_diag_not_finite a : is_finite a = false -> is_nan (a - a) = true.
Proof.
  rewrite is_finite_SF, is_nan_true, FloatAxioms.sub_spec.
  unfold SF64sub, SFsub.
  by destruct (Prim2SF a) as [[]|[]| |[]].
Qed.

(** A double is within 1e-9 of itself exactly when it is finite. *)
Lemma near_diag a : (Dbl.fabs (a - a) <? 1e-9) = is_finite a.
Proof.
  destruct (is_finite a) eqn:Hfin.
  - by rewrite sub_diag_finite.
  - apply ltb_nan_l, abs_nan. by apply sub_diag_not_finite.
Qed.
End Closing.

(** X1.  A buffer whose last row repeats its first row exactly loses that
    row when, and only when, both coordinates of the first vertex are
    finite: a NaN or an infinite coordinate is not within 1e-9 of itself,
    and the closing vertex is then kept.  For any buffer the effective
    length is the number of rows or one less, and it is one less only when
    there are at least two rows. *)
Theorem X1_closing_vertex_dropped_iff_finite :
  (forall (v : point) (vs : list point),
     effective_polygon_length (flat (v :: vs ++ [v])) (S (S (length vs)))
     = if is_finite v.1 && is_finite v.2 then S (length vs)
       else S (S (length vs)))
  /\ (forall poly rows,
        effective_polygon_length poly rows = rows
        \/ (1 < rows /\ effective_polygon_length poly rows = rows - 1)).
Proof.
  split.
  - intros v vs.
    assert (drop ((S (S (length vs)) - 1) * 2) (flat (v :: vs ++ [v]))
            = [v.1; v.2]) as Hlast.
    { change (v :: vs ++ [v]) with ((v :: vs) ++ [v]).
      rewrite flat_app. apply drop_app_length'.
      rewrite length_flat. cbn [length]. lia. }
    unfold effective_polygon_length. cbv zeta. rewrite Hlast.
    change (rd (flat (v :: vs ++ [v])) 0) with v.1.
    change (rd (flat (v :: vs ++ [v])) 1) with v.2.
    change (rd [v.1; v.2] 0) with v.1. change (rd [v.1; v.2] 1) with v.2.
    rewrite !near_diag. cbn [Nat.ltb Nat.leb].
    by destruct (_ && _).
  - intros poly rows. unfold effective_polygon_length.
    destruct (Nat.ltb_spec 1 rows) as [Hr|]; [|by left].
    destruct (_ && _); [right|left]; done.
Qed.

(** ** Points the ray cast leaves outside ([point_in_polygon]) *)

Section Outside.
  Import FloatOrder.
  Local Open Scope float_scope.

(** A value that is not below [+infinity] is below nothing. *)
Lemma ltb_top x z : (x <? infinity) = false -> (x <? z) = false.
Proof.
  rewrite !FloatAxioms.ltb_spec.
  change (Prim2SF infinity) with (S754_infinity false).
  destruct (Prim2SF x) as [[]|[]| |[] m e]; try done;
    by destruct (Prim2SF z) as [[]|[]| |[]].
Qed.

Lemma point_in_polygon_abscissa x y poly n :
  point_in_polygon x y poly n = true -> (x <? infinity) = true.
Proof.
  intros Hin. apply not_false_iff_true. intros Hx.
  assert (forall i j inside, pip_step x y poly i j inside = inside) as Hstep.
  { intros i j inside. unfold pip_step.
    by rewrite (ltb_top _ _ Hx), andb_false_r. }
  revert Hin. unfold point_in_polygon.
  destruct (n <? 3)%nat; [done|].
  generalize (n - 1)%nat as j. generalize (seq 0 n) as l.
  induction l as [|i l IH]; intros j; [done|].
  cbn [fold_left]. rewrite Hstep. apply IH.
Qed.

(** No edge straddles a height that has all the vertices on one side. *)
Lemma point_in_polygon_one_side x y poly n (above : bool) :
  (forall i, (i < n)%nat -> (rd poly (i * 2 + 1) >? y) = above) ->
  point_in_polygon x y poly n = false.
Proof.
  intros Hside. unfold point_in_polygon.
  destruct (Nat.ltb_spec n 3) as [|Hn]; [done|].
  assert (forall l j,
            Forall (fun i => (i < n)%nat) l -> (j < n)%nat ->
            fst (fold_left
                   (fun '(inside, j) i => (pip_step x y poly i j inside, i))
                   l (false, j)) = false) as Hfold.
  { induction l as [|i l IH]; intros j Hl Hj; [done|].
    apply Forall_cons in Hl as [Hi Hl]. cbn [fold_left].
    unfold pip_step at 2. rewrite !Hside by done.
    rewrite xorb_nilpotent. cbn [andb]. by apply IH. }
  apply Hfold; [|lia].
  apply Forall_forall. intros i Hi%elem_of_seq. lia.
Qed.
End Outside.

(** X2.  A point with every vertex of the polygon on one side of its
    height (all vertices strictly above it, or none) is outside: no edge
    straddles the height, so the ray cast toggles nothing. *)
Theorem X2_point_beside_all_vertices_is_outside :
  forall x y poly n (above : bool),
    (forall i, i < n -> (rd poly (i * 2 + 1) >? y)%float = above) ->
    point_in_polygon x y poly n = false.
Proof. intros x y poly n above. apply point_in_polygon_one_side. Qed.

Lemma X2_point_beside_all_vertices_is_outside_witness :
  point_in_polygon 0.5 2 unit_square_buf 4 = false.
Proof.
  apply (X2_point_beside_all_vertices_is_outside 0.5 2 unit_square_buf 4
           false).
  intros [|[|[|[|i]]]] Hi; [reflexivity..|lia].
Defined.

(** X3.  The ray cast puts no point inside whose height is a NaN or an
    infinity, nor one whose abscissa is a NaN or [+infinity]: every
    comparison the loop makes with such a coordinate is false. *)
Theorem X3_point_inside_has_coordinates :
  forall x y poly n,
    point_in_polygon x y poly n = true ->
    is_finite y = true /\ (x <? infinity)%float = true.
Proof.
  intros x y poly n Hin. split.
  - by eapply point_in_polygon_finite_height.
  - by eapply point_in_polygon_abscissa.
Qed.

Lemma X3_point_inside_has_coordinates_witness :
  is_finite 0.5 = true /\ (0.5 <? infinity)%float = true.
Proof.
  apply (X3_point_inside_has_coordinates 0.5 0.5 unit_square_buf 4).
  reflexivity.
Defined.

(** ** Segments of no length ([compute_line_segment_intersection]) *)

Section NoLength.
  Import FloatOrder.
  Local Open Scope float_scope.

Lemma mul_zero_l a b :
  SFzero (Prim2SF a) = true -> is_finite b = true ->
  SFzero (Prim2SF (a * b)) = true.
Proof.
  rewrite is_finite_SF, FloatAxioms.mul_spec. unfold SF64mul, SFmul.
  by destruct (Prim2SF a) as [[]|[]| |[]], (Prim2SF b) as [[]|[]| |[]].
Qed.

Lemma mul_zero_r a b :
  is_finite a = true -> SFzero (Prim2SF b) = true ->
  SFzero (Prim2SF (a * b)) = true.
Proof.
  rewrite is_finite_SF, FloatAxioms.mul_spec. unfold SF64mul, SFmul.
  by destruct (Prim2SF a) as [[]|[]| |[]], (Prim2SF b) as [[]|[]| |[]].
Qed.

Lemma sub_zero_zero a b :
  SFzero (Prim2SF a) = true -> SFzero (Prim2SF b) = true ->
  SFzero (Prim2SF (a - b)) = true.
Proof.
  rewrite FloatAxioms.sub_spec. unfold SF64sub, SFsub.
  by destruct (Prim2SF a) as [[]|[]| |[]], (Prim2SF b) as [[]|[]| |[]].
Qed.

Lemma fabs_zero_ltb a eps :
  SFzero (Prim2SF a) = true -> (Dbl.fabs a <? eps) = (0 <? eps).
Proof.
  unfold Dbl.fabs. rewrite !FloatAxioms.ltb_spec, FloatAxioms.abs_spec.
  change (Prim2SF 0) with (S754_zero false).
  by destruct (Prim2SF a) as [[]|[]| |[]].
Qed.

Lemma sub_diag_zero a : is_finite a = true -> SFzero (Prim2SF (a - a)) = true.
Proof. intros Ha. by rewrite sub_diag_finite. Qed.
End NoLength.

(** X4.  With a positive [eps], a segment of no length meets nothing: when
    the two ends of the query line coincide at a finite point, or the two
    ends of the polygon edge do (a vertex given twice in a row), and the
    coordinate differences of the other segment are finite, the
    determinant is a zero and the primitive returns no intersection. *)
Theorem X4_zero_length_segment_never_intersects :
  forall p1 p2 p3 p4 eps,
    (0 <? eps)%float = true ->
    (rd p2 0 = rd p1 0 -> rd p2 1 = rd p1 1 ->
     is_finite (rd p1 0) = true -> is_finite (rd p1 1) = true ->
     is_finite (rd p3 0 - rd p4 0)%float = true ->
     is_finite (rd p3 1 - rd p4 1)%float = true ->
     compute_line_segment_intersection p1 p2 p3 p4 eps = None)
    /\ (rd p4 0 = rd p3 0 -> rd p4 1 = rd p3 1 ->
        is_finite (rd p3 0) = true -> is_finite (rd p3 1) = true ->
        is_finite (rd p1 0 - rd p2 0)%float = true ->
        is_finite (rd p1 1 - rd p2 1)%float = true ->
        compute_line_segment_intersection p1 p2 p3 p4 eps = None).
Proof.
  intros p1 p2 p3 p4 eps Heps. split.
  - unfold compute_line_segment_intersection. intros -> -> Hx Hy Hdx Hdy.
    rewrite fabs_zero_ltb, Heps; [done|].
    apply sub_zero_zero; apply mul_zero_l; try done; by apply sub_diag_zero.
  - unfold compute_line_segment_intersection. intros -> -> Hx Hy Hdx Hdy.
    rewrite fabs_zero_ltb, Heps; [done|].
    apply sub_zero_zero; apply mul_zero_r; try done; by apply sub_diag_zero.
Qed.

Lemma X4_zero_length_segment_never_intersects_witness :
  compute_line_segment_intersection [0.5; 0.5]%float [0.5; 0.5]%float
    [0; 0]%float [1; 0]%float 1e-10
  = None
  /\ compute_line_segment_intersection [-1; 0.5]%float [2; 0.5]%float
       [1; 1]%float [1; 1]%float 1e-10
     = None.
Proof.
  split.
  - apply (proj1 (X4_zero_length_segment_never_intersects
                    [0.5; 0.5]%float [0.5; 0.5]%float [0; 0]%float
                    [1; 0]%float 1e-10%float eq_refl));
      reflexivity.
  - apply (proj2 (X4_zero_length_segment_never_intersects
                    [-1; 0.5]%float [2; 0.5]%float [1; 1]%float
                    [1; 1]%float 1e-10%float eq_refl));
      reflexivity.
Defined.

(** X5.  Two segments along the same axis never intersect, even when one
    lies on the other: for a positive [eps], when both are horizontal (each
    with its two heights equal and finite) or both vertical, and the
    differences of the other coordinates are finite, the determinant is a
    zero and the primitive returns no intersection.  A hatch line that runs
    along a polygon edge gets no record from that edge. *)
Theorem X5_segments_along_one_axis_never_intersect :
  forall p1 p2 p3 p4 eps,
    (0 <? eps)%float = true ->
    (rd p2 1 = rd p1 1 -> rd p4 1 = rd p3 1 ->
     is_finite (rd p1 1) = true -> is_finite (rd p3 1) = true ->
     is_finite (rd p1 0 - rd p2 0)%float = true ->
     is_finite (rd p3 0 - rd p4 0)%float = true ->
     compute_line_segment_intersection p1 p2 p3 p4 eps = None)
    /\ (rd p2 0 = rd p1 0 -> rd p4 0 = rd p3 0 ->
        is_finite (rd p1 0) = true -> is_finite (rd p3 0) = true ->
        is_finite (rd p1 1 - rd p2 1)%float = true ->
        is_finite (rd p3 1 - rd p4 1)%float = true ->
        compute_line_segment_intersection p1 p2 p3 p4 eps = None).
Proof.
  intros p1 p2 p3 p4 eps Heps. split.
  - unfold compute_line_segment_intersection. intros -> -> Hy1 Hy3 Hdx Hdx'.
    rewrite fabs_zero_ltb, Heps; [done|].
    apply sub_zero_zero;
      [apply mul_zero_r|apply mul_zero_l]; try done; by apply sub_diag_zero.
  - unfold compute_line_segment_intersection. intros -> -> Hx1 Hx3 Hdy Hdy'.
    rewrite fabs_zero_ltb, Heps; [done|].
    apply sub_zero_zero;
      [apply mul_zero_l|apply mul_zero_r]; try done; by apply sub_diag_zero.
Qed.

Lemma X5_segments_along_one_axis_never_intersect_witness :
  compute_line_segment_intersection [-1; 0]%float [2; 0]%float [0; 0]%float
    [1; 0]%float 1e-10
  = None
  /\ compute_line_segment_intersection [1; -1]%float [1; 2]%float
       [1; 0]%float [1; 1]%float 1e-10
     = None.
Proof.
  split.
  - apply (proj1 (X5_segments_along_one_axis_never_intersect
                    [-1; 0]%float [2; 0]%float [0; 0]%float [1; 0]%float
                    1e-10%float eq_refl));
      reflexivity.
  - apply (proj2 (X5_segments_along_one_axis_never_intersect
                    [1; -1]%float [1; 2]%float [1; 0]%float [1; 1]%float
                    1e-10%float eq_refl));
      reflexivity.
Defined.

(** ** The entry point [clip_lines_to_polygon] as a whole *)

(** X6.  What the scratch block holds when it is allocated has no part in
    the outcome: two calls with the same arguments raise the same error or
    return the same list, whatever the allocator hands out. *)
Theorem X6_scratch_contents_irrelevant :
  forall heap heap' polygon_obj line_starts_obj line_ends_obj eps,
    clip_lines_to_polygon heap polygon_obj line_starts_obj line_ends_obj eps
    = clip_lines_to_polygon heap' polygon_obj line_starts_obj line_ends_obj
        eps.
Proof.
  intros heap heap' polygon_obj line_starts_obj line_ends_obj eps.
  unfold clip_lines_to_polygon.
  destruct (ensure_double_2d polygon_obj _); [done|].
  destruct (ensure_double_2d line_starts_obj _); [done|].
  destruct (ensure_double_2d line_ends_obj _); [done|].
  destruct (negb _); [done|]. destruct (_ || _); [done|].
  repeat match goal with
  | |- context [clip_lines ?p ?n ?e ?s ?t ?m (PyMem_Malloc ?h ?k)] =>
      let b := fresh "block" in
      destruct (clip_lines_refines p n e s t m (PyMem_Malloc h k))
        as (b & -> & _); [apply length_PyMem_Malloc|]
  end.
  done.
Qed.

(** X7.  Given three C-contiguous arrays of doubles with two columns, the
    two line arrays of the same number of rows, the call returns a list:
    it does not raise, whatever the doubles are (NaN and infinities
    included) and whatever [eps] is.  Allocation is taken to succeed, here
    as everywhere in this file. *)
Theorem X7_clip_of_arrays_returns :
  forall heap polygon (starts ends : list point) eps,
    length starts = length ends ->
    exists segs,
      clip_lines_to_polygon heap (array2 polygon) (array2 (flat starts))
        (array2 (flat ends)) eps = Returns segs.
Proof.
  intros heap polygon starts ends eps Hlen.
  rewrite clip_lines_to_polygon_flat, ensure_double_2d_array2.
  rewrite Hlen, Nat.eqb_refl. cbn [negb]. by eexists.
Qed.

Lemma X7_clip_of_arrays_returns_witness :
  exists segs,
    clip_lines_to_polygon []
      (array2 [nan; 0; 1; infinity; 1; 1; 0; 1]%float)
      (array2 (flat [(-1, 0.5); (nan, nan)]%float))
      (array2 (flat [(2, 0.5); (0, neg_infinity)]%float)) nan
    = Returns segs.
Proof.
  apply (X7_clip_of_arrays_returns [] [nan; 0; 1; infinity; 1; 1; 0; 1]%float
           [(-1, 0.5); (nan, nan)]%float [(2, 0.5); (0, neg_infinity)]%float
           nan).
  reflexivity.
Defined.

(** ** What [parse_point_like] does with an object without arrays *)

Section PointLike.
  Variables (obj : PyObject) (name : string).

Lemma parse_point_like_returns :
  (exists xy, parse_point_like obj name = Returns xy)
  <-> exists seq x y,
        PySequence_Fast obj None = Returns seq
        /\ length seq = 2
        /\ PyFloat_AsDouble (nth 0 seq Py_None) = inr x
        /\ PyFloat_AsDouble (nth 1 seq Py_None) = inr y.
Proof.
  unfold parse_point_like.
  destruct (PySequence_Fast obj None) as [seq| | |].
  2-4: split; [by intros [? ?]|by intros (? & ? & ? & ? & _)].
  cbv zeta. destruct (Nat.eqb_spec (length seq) 2) as [Hlen|Hlen]; cbn [negb].
  - destruct (PyFloat_AsDouble (nth 0 seq Py_None)) as [|x] eqn:Hx.
    { split; [by intros [? ?]|].
      intros (? & ? & ? & [= <-] & _ & ? & _). congruence. }
    destruct (PyFloat_AsDouble (nth 1 seq Py_None)) as [|y] eqn:Hy.
    { split; [by intros [? ?]|].
      intros (? & ? & ? & [= <-] & _ & _ & ?). congruence. }
    split; [|by eexists]. intros _. by exists seq, x, y.
  - split; [by intros [? ?]|]. by intros (? & ? & ? & [= <-] & ? & _).
Qed.

Lemma parse_point_like_dies :
  parse_point_like obj name = NullDereference
  <-> PySequence_Fast obj None = NullDereference.
Proof.
  unfold parse_point_like.
  destruct (PySequence_Fast obj None) as [seq| | |]; [|done..].
  cbv zeta. destruct (negb _); [done|].
  destruct (PyFloat_AsDouble (nth 0 seq Py_None)); [done|].
  by destruct (PyFloat_AsDouble (nth 1 seq Py_None)).
Qed.

Lemma parse_point_like_in_bounds : parse_point_like obj name <> OutOfBounds.
Proof.
  unfold parse_point_like.
  destruct obj as [| | | |c view]; cbn; try done.
  - destruct (negb _); [done|].
    destruct (PyFloat_AsDouble _); [done|].
    by destruct (PyFloat_AsDouble _).
  - destruct (ndim view =? 1)%Z; [|destruct (1 <? ndim view)%Z; [|done]].
    + destruct (negb _); [done|].
      destruct (PyFloat_AsDouble _); [done|].
      by destruct (PyFloat_AsDouble _).
    + destruct (negb _); [done|].
      destruct (PyFloat_AsDouble _); [done|].
      by destruct (PyFloat_AsDouble _).
Qed.
End PointLike.

(** The objects without arrays that can be iterated are the tuples, and the
    ones on which [PySequence_Fast] meets its null message are the
    numbers. *)
Lemma sequence_of_array_free obj seq :
  array_free obj = true ->
  PySequence_Fast obj None = Returns seq <-> obj = PyTuple seq.
Proof.
  destruct obj; cbn; try done.
  intros _. split; by intros [= ->].
Qed.

Lemma null_message_of_array_free obj :
  array_free obj = true -> obj <> Py_None ->
  PySequence_Fast obj None = NullDereference <-> a_number obj.
Proof.
  unfold a_number. destruct obj; cbn; try done; intros _ _.
  - split; [|done]. intros _. left. by eexists.
  - split; [|done]. intros _. right. by eexists.
  - split; [done|]. by intros [[? ?]|[? ?]].
Qed.

Lemma none_or_object obj : obj = Py_None \/ obj <> Py_None.
Proof. destruct obj; (by left) || by right. Qed.

Lemma pair_of_length_two (seq : list PyObject) :
  length seq = 2 -> seq = [nth 0 seq Py_None; nth 1 seq Py_None].
Proof. by destruct seq as [|a [|b [|c seq]]]. Qed.

(** X8.  How the entry points end.  [clip_lines_to_polygon] returns a list
    exactly when its three buffers are accepted and the two line arrays
    have the same number of rows, and raises otherwise.  For a centroid and
    a diagonal made of None, numbers and tuples, [generate_line_fill]
    returns a list exactly when the spacing is not rejected, the polygon
    buffer is accepted and, unless the polygon has fewer than 3 effective
    vertices, the centroid is absent or a pair of objects that convert to
    doubles and the diagonal is absent or converts; it reads through the
    null message of [PySequence_Fast] exactly when spacing and polygon are
    accepted, the polygon has 3 effective vertices or more and the centroid
    is a number; in every other case it raises (a failed allocation is not
    among the cases). *)
Theorem X8_when_the_entry_points_return :
  (forall heap polygon_obj line_starts_obj line_ends_obj eps,
     let result :=
       clip_lines_to_polygon heap polygon_obj line_starts_obj line_ends_obj
         eps in
     ((exists segs, result = Returns segs)
      <-> exists poly_view start_view end_view,
            ensure_double_2d polygon_obj "polygon" = inr poly_view
            /\ ensure_double_2d line_starts_obj "line_starts" = inr start_view
            /\ ensure_double_2d line_ends_obj "line_ends" = inr end_view
            /\ rows start_view = rows end_view)
     /\ ((exists segs, result = Returns segs) \/ exists e, result = Raises e))
  /\ (forall M polygon_obj spacing angle_deg centroid_obj bbox_obj overshoot,
        array_free centroid_obj = true ->
        array_free bbox_obj = true ->
        let result :=
          generate_line_fill M polygon_obj spacing angle_deg centroid_obj
            bbox_obj overshoot in
        ((exists segs, result = Returns segs)
         <-> (spacing <=? 0.0)%float = false
             /\ exists poly_view,
                  ensure_double_2d polygon_obj "polygon" = inr poly_view
                  /\ (effective_polygon_length (buf poly_view)
                        (Z.to_nat (rows poly_view)) < 3
                      \/ optional_arguments_parse centroid_obj bbox_obj))
        /\ (result = NullDereference
            <-> (spacing <=? 0.0)%float = false
                /\ exists poly_view,
                     ensure_double_2d polygon_obj "polygon" = inr poly_view
                     /\ 3 <= effective_polygon_length (buf poly_view)
                               (Z.to_nat (rows poly_view))
                     /\ a_number centroid_obj)
        /\ ((exists segs, result = Returns segs)
            \/ result = NullDereference
            \/ exists e, result = Raises e)).
Proof.
  split.
  - intros heap polygon_obj line_starts_obj line_ends_obj eps result.
    assert ((exists segs, result = Returns segs)
            <-> exists poly_view start_view end_view,
                  ensure_double_2d polygon_obj "polygon" = inr poly_view
                  /\ ensure_double_2d line_starts_obj "line_starts"
                     = inr start_view
                  /\ ensure_double_2d line_ends_obj "line_ends" = inr end_view
                  /\ rows start_view = rows end_view) as Hiff.
    { split.
      - intros [segs Hret]. revert Hret.
        unfold result, clip_lines_to_polygon.
        destruct (ensure_double_2d polygon_obj _) as [|poly_view]; [done|].
        destruct (ensure_double_2d line_starts_obj _) as [|start_view];
          [done|].
        destruct (ensure_double_2d line_ends_obj _) as [|end_view]; [done|].
        destruct (Z.eqb_spec (nth 0 (shape start_view) 0%Z)
                    (nth 0 (shape end_view) 0%Z)) as [Hrows|]; [|done].
        intros _. by exists poly_view, start_view, end_view.
      - intros (poly_view & start_view & end_view & Hp & Hs & He & Hrows).
        unfold result.
        rewrite (clip_lines_to_polygon_accepted _ _ _ _ _ _ _ _ Hp Hs He
                   Hrows).
        by eexists. }
    split; [exact Hiff|].
    unfold result, clip_lines_to_polygon in *.
    destruct (ensure_double_2d polygon_obj _) as [|poly_view];
      [right; by eexists|].
    destruct (ensure_double_2d line_starts_obj _) as [|start_view];
      [right; by eexists|].
    destruct (ensure_double_2d line_ends_obj _) as [|end_view];
      [right; by eexists|].
    destruct (Z.eqb_spec (nth 0 (shape start_view) 0%Z)
                (nth 0 (shape end_view) 0%Z)) as [Hrows|];
      [|right; by eexists].
    left. apply Hiff. by exists poly_view, start_view, end_view.
  - intros M polygon_obj spacing angle_deg centroid_obj bbox_obj overshoot
      Hcentroid Hbbox result.
    unfold result, generate_line_fill, rows.
    destruct (spacing <=? 0.0)%float.
    { split; [|split]; [| |right; right; by eexists].
      - split; [by intros [? ?]|by intros [? _]].
      - split; [done|by intros [? _]]. }
    destruct (ensure_double_2d polygon_obj _) as [e|poly_view].
    { split; [|split]; [| |right; right; by eexists].
      - split; [by intros [? ?]|by intros (_ & ? & ? & _)].
      - split; [done|by intros (_ & ? & ? & _)]. }
    destruct (Nat.ltb_spec
                (effective_polygon_length (buf poly_view)
                   (Z.to_nat (nth 0 (shape poly_view) 0%Z))) 3) as [Hn|Hn].
    { split; [|split]; [| |left; by eexists].
      - split; [|by eexists]. intros _. split; [done|].
        exists poly_view. split; [done|]. by left.
      - split; [done|]. intros (_ & pv & [= <-] & Hge & _). lia. }
    set (n := effective_polygon_length _ _) in *.
    (* the centroid *)
    assert ((exists xy,
               match centroid_obj with
               | Py_None => Returns (mean_vertex (buf poly_view) n)
               | _ => parse_point_like centroid_obj "centroid"
               end = Returns xy)
            <-> (centroid_obj = Py_None
                 \/ exists a b x y,
                      centroid_obj = PyTuple [a; b]
                      /\ PyFloat_AsDouble a = inr x
                      /\ PyFloat_AsDouble b = inr y)) as Hreturns.
    { destruct (none_or_object centroid_obj) as [->|Hnone].
      { split; [by left|by eexists]. }
      assert (match centroid_obj with
              | Py_None => Returns (mean_vertex (buf poly_view) n)
              | _ => parse_point_like centroid_obj "centroid"
              end = parse_point_like centroid_obj "centroid") as ->
        by by destruct centroid_obj.
      rewrite parse_point_like_returns. split.
      - intros (seq & x & y & Hseq & Hlen & Hx & Hy). right.
        apply sequence_of_array_free in Hseq; [|done].
        exists (nth 0 seq Py_None), (nth 1 seq Py_None), x, y.
        by rewrite <- pair_of_length_two.
      - intros [?|(a & b & x & y & -> & Hx & Hy)]; [done|].
        by exists [a; b], x, y. }
    assert (match centroid_obj with
            | Py_None => Returns (mean_vertex (buf poly_view) n)
            | _ => parse_point_like centroid_obj "centroid"
            end = NullDereference
            <-> a_number centroid_obj) as Hdies.
    { destruct (none_or_object centroid_obj) as [->|Hnone].
      { split; [done|]. by intros [[? ?]|[? ?]]. }
      assert (match centroid_obj with
              | Py_None => Returns (mean_vertex (buf poly_view) n)
              | _ => parse_point_like centroid_obj "centroid"
              end = parse_point_like centroid_obj "centroid") as ->
        by by destruct centroid_obj.
      rewrite parse_point_like_dies. by apply null_message_of_array_free. }
    assert (match centroid_obj with
            | Py_None => Returns (mean_vertex (buf poly_view) n)
            | _ => parse_point_like centroid_obj "centroid"
            end <> OutOfBounds) as Hbounds.
    { destruct centroid_obj; try done; apply parse_point_like_in_bounds. }
    assert ((exists v,
               match bbox_obj with
               | Py_None => inr 0.0%float
               | _ => PyFloat_AsDouble bbox_obj
               end = inr v)
            <-> (bbox_obj = Py_None
                 \/ exists v, PyFloat_AsDouble bbox_obj = inr v)) as Hdiag.
    { destruct (none_or_object bbox_obj) as [->|Hnone].
      { split; [by left|by eexists]. }
      assert (match bbox_obj with
              | Py_None => inr 0.0%float
              | _ => PyFloat_AsDouble bbox_obj
              end = PyFloat_AsDouble bbox_obj) as ->
        by by destruct bbox_obj.
      split; [by right|]. by intros [?|?]. }
    unfold optional_arguments_parse.
    setoid_rewrite <- Hreturns. setoid_rewrite <- Hdiag.
    setoid_rewrite <- Hdies. clear Hreturns Hdiag Hdies.
    subst n.
    destruct (match centroid_obj with Py_None => _ | _ => _ end)
      as [[centroid_x centroid_y]|e| |].
    + destruct (match bbox_obj with Py_None => _ | _ => _ end)
        as [e|bbox_diag].
      * split; [|split]; [| |right; right; by eexists].
        -- split; [by intros [? ?]|].
           intros (_ & pv & [= <-] & [?|[_ [? ?]]]); [lia|done].
        -- split; [done|by intros (_ & ? & _ & _ & ?)].
      * cbv zeta.
        match goal with
        | |- context [(if ?c then Returns [] else Returns ?l)] =>
            assert (exists segs,
                      (if c then Returns [] else Returns l) = Returns segs)
              as Hret by (destruct c; by eexists)
        end.
        split; [|split]; [| |by left].
        -- split; [|done]. intros _. split; [done|].
           exists poly_view. split; [done|]. right. split; by eexists.
        -- destruct Hret as [segs ->].
           split; [done|by intros (_ & ? & _ & _ & ?)].
    + split; [|split]; [| |right; right; by eexists].
      * split; [by intros [? ?]|].
        intros (_ & pv & [= <-] & [?|[[? ?] _]]); [lia|done].
      * split; [done|by intros (_ & ? & _ & _ & ?)].
    + done.
    + split; [|split]; [| |right; by left].
      * split; [by intros [? ?]|].
        intros (_ & pv & [= <-] & [?|[[? ?] _]]); [lia|done].
      * split; [|done]. intros _. split; [done|]. by exists poly_view.
Qed.

Lemma X8_when_the_entry_points_return_witness :
  array_free (PyFloat 0.5) = true
  /\ array_free Py_None = true
  /\ generate_line_fill taylor_libm unit_square 0.25 0 (PyFloat 0.5) Py_None
       2.0
     = NullDereference.
Proof.
  split; [reflexivity|split; [reflexivity|]].
  apply (proj2 X8_when_the_entry_points_return taylor_libm unit_square
           0.25%float 0%float (PyFloat 0.5) Py_None 2.0%float);
    [reflexivity..|].
  split; [reflexivity|]. exists (PyBuffer 2 [4%Z; 2%Z] (Some "d"%string)
                                   unit_square_buf).
  split; [reflexivity|]. split; [vm_compute; lia|].
  left. by eexists.
Defined.

(** X9.  The lines are clipped one by one and the outputs joined in the
    order of the lines: clipping the lines of two arrays put end to end
    returns the list of the first array followed by the list of the
    second. *)
Theorem X9_clip_lines_concatenate :
  forall heap polygon_obj (starts1 ends1 starts2 ends2 : list point) eps
         segs1 segs2,
    clip_lines_to_polygon heap polygon_obj (array2 (flat starts1))
      (array2 (flat ends1)) eps = Returns segs1 ->
    clip_lines_to_polygon heap polygon_obj (array2 (flat starts2))
      (array2 (flat ends2)) eps = Returns segs2 ->
    clip_lines_to_polygon heap polygon_obj
      (array2 (flat (starts1 ++ starts2))) (array2 (flat (ends1 ++ ends2)))
      eps
    = Returns (segs1 ++ segs2).
Proof.
  intros heap polygon_obj starts1 ends1 starts2 ends2 eps segs1 segs2.
  rewrite !clip_lines_to_polygon_flat.
  destruct (ensure_double_2d polygon_obj _) as [|poly_view]; [done|].
  destruct (Nat.eqb_spec (length starts1) (length ends1)) as [H1|];
    [|done].
  destruct (Nat.eqb_spec (length starts2) (length ends2)) as [H2|];
    [|done].
  rewrite !length_app, H1, H2, Nat.eqb_refl. cbn [negb]. cbv zeta.
  intros [= <-] [= <-]. f_equal.
  destruct (_ <? 3)%nat; [done|].
  rewrite seq_app, map_app, concat_app. f_equal.
  - f_equal. apply map_ext_in. intros i Hi%in_seq.
    unfold row. by rewrite !app_nth1 by lia.
  - f_equal. rewrite <- H1, (seq_from (length starts1)), map_map.
    apply map_ext_in. intros i Hi%in_seq.
    unfold row. rewrite !app_nth2 by lia.
    by replace (length starts1 + i - length starts1) with i by lia;
      replace (length starts1 + i - length ends1) with i by lia.
Qed.

Lemma X9_clip_lines_concatenate_witness :
  clip_lines_to_polygon [] unit_square
    (array2 (flat ([(-1, 0.5)] ++ [(-1, 2); (0.5, -1)])%float))
    (array2 (flat ([(2, 0.5)] ++ [(2, 2); (0.5, 2)])%float)) 1e-10
  = Returns ([((0, 0.5), (1, 0.5))] ++ [((0.5, 0), (0.5, 1))])%float.
Proof.
  apply (X9_clip_lines_concatenate [] unit_square
           [(-1, 0.5)]%float [(2, 0.5)]%float
           [(-1, 2); (0.5, -1)]%float [(2, 2); (0.5, 2)]%float 1e-10%float);
    reflexivity.
Defined.

(** ** How many segments, and where *)

Section Counting.
  Import FloatOrder.
  Local Open Scope float_scope.

Lemma length_pair_up {A : Type} (l : list A) :
  length (pair_up l) = (length l / 2)%nat.
Proof.
  assert (forall n (l : list A), (length l <= n)%nat ->
            length (pair_up l) = (length l / 2)%nat) as H.
  { intros n. induction n as [|n IH]; intros [|a [|b k]] Hk; try done.
    - simpl in Hk. lia.
    - cbn [pair_up length]. rewrite IH by (simpl in Hk; lia).
      change (S (S (length k))) with (1 * 2 + length k)%nat.
      by rewrite Nat.div_add_l. }
  by apply (H (length l)).
Qed.

Lemma length_omap_le {A B : Type} (f : A -> option B) (l : list A) :
  (length (omap f l) <= length l)%nat.
Proof.
  induction l as [|a l IH]; [done|].
  change (omap f (a :: l))
    with (match f a with Some y => y :: omap f l | None => omap f l end).
  destruct (f a); cbn [length]; lia.
Qed.

(** One line yields at most one segment for every two edges. *)
Lemma length_clip_spec polygon n eps start end_ :
  (length (clip_spec polygon n eps start end_) <= n / 2)%nat.
Proof.
  unfold clip_spec, emitted_pairs, kept_pairs.
  rewrite length_map. etrans; [apply filter_length_le|].
  set (records := edge_records polygon n eps start end_).
  assert (length records <= n)%nat as Hrec.
  { unfold records, edge_records. etrans; [apply length_omap_le|].
    by rewrite length_seq. }
  destruct (length records <? 2)%nat; [simpl; lia|].
  rewrite length_pair_up. apply Nat.Div0.div_le_mono.
  etrans; [apply length_collapse|]. by rewrite length_std_sort.
Qed.

Lemma length_concat_le {A B : Type} (f : A -> list B) (l : list A)
    (k : nat) :
  (forall a, length (f a) <= k)%nat ->
  (length (concat (map f l)) <= length l * k)%nat.
Proof.
  intros Hf. induction l as [|a l IH]; [done|].
  cbn [map concat length]. rewrite length_app. specialize (Hf a). lia.
Qed.

(** A product or a sum that is a number has operands that are numbers. *)
Lemma mul_not_nan a b :
  is_nan (a * b) = false -> is_nan a = false /\ is_nan b = false.
Proof.
  rewrite !is_nan_false, FloatAxioms.mul_spec. unfold not_nan, SF64mul, SFmul.
  by destruct (Prim2SF a) as [[]|[]| |[]], (Prim2SF b) as [[]|[]| |[]].
Qed.

Lemma add_not_nan a b :
  is_nan (a + b) = false -> is_nan a = false /\ is_nan b = false.
Proof.
  rewrite !is_nan_false, FloatAxioms.add_spec. unfold not_nan, SF64add, SFadd.
  by destruct (Prim2SF a) as [[]|[]| |[]], (Prim2SF b) as [[]|[]| |[]].
Qed.

Lemma ltb_not_nan_l a b : (a <? b) = true -> is_nan a = false.
Proof.
  intros H. apply not_true_is_false. intros Hn.
  by rewrite (ltb_nan_l a b Hn) in H.
Qed.

Lemma clip_spec_inside polygon n eps start end_ :
  Forall (emitted_inside polygon n) (clip_spec polygon n eps start end_).
Proof.
  unfold clip_spec, emitted_pairs. apply Forall_forall. intros seg Hseg.
  apply list_elem_of_fmap in Hseg as ([a b] & -> & Hin).
  rewrite list_elem_of_In, filter_In in Hin. destruct Hin as [_ Hmid].
  unfold midpoint_inside in Hmid. cbn [fst snd] in Hmid.
  unfold emitted_inside, midpoint, endpoints. cbn [fst snd].
  split; [done|].
  pose proof (point_in_polygon_finite_height _ _ _ _ Hmid) as Hy.
  apply mul_finite in Hy as [_ Hy]. apply add_finite in Hy as [Hy1 Hy2].
  pose proof (point_in_polygon_abscissa _ _ _ _ Hmid) as Hx.
  apply ltb_not_nan_l, mul_not_nan in Hx as [_ Hx].
  apply add_not_nan in Hx as [Hx1 Hx2].
  done.
Qed.
End Counting.

(** X10.  One line yields at most one segment for every two polygon edges.
    So [clip_lines_to_polygon] returns at most [rows * (n / 2)] segments
    for [rows] lines and a polygon of effective length [n], and the main
    loop of [generate_line_fill], which tries [2 * num_lines + 1] candidate
    lines, returns at most [(2 * num_lines + 1) * (n / 2)]. *)
Theorem X10_segment_count_bounded :
  (forall heap polygon_obj line_starts_obj line_ends_obj eps
          poly_view start_view segs,
     ensure_double_2d polygon_obj "polygon" = inr poly_view ->
     ensure_double_2d line_starts_obj "line_starts" = inr start_view ->
     clip_lines_to_polygon heap polygon_obj line_starts_obj line_ends_obj eps
     = Returns segs ->
     length segs
     <= Z.to_nat (rows start_view)
        * (effective_polygon_length (buf poly_view)
             (Z.to_nat (rows poly_view)) / 2))
  /\ (forall polygon polygon_len spacing centroid_x centroid_y bbox_diag
             overshoot line_dir_x line_dir_y,
        length (fill_lines polygon polygon_len spacing centroid_x centroid_y
                  bbox_diag overshoot line_dir_x line_dir_y)
        <= Z.to_nat (2 * num_lines spacing bbox_diag + 1)
           * (polygon_len / 2)).
Proof.
  split.
  - intros heap polygon_obj line_starts_obj line_ends_obj eps
      poly_view start_view segs Hp Hs.
    unfold clip_lines_to_polygon. rewrite Hp, Hs.
    destruct (ensure_double_2d line_ends_obj _) as [|end_view]; [done|].
    destruct (negb _); [done|].
    destruct (_ || _); [intros [= <-]; simpl; lia|].
    match goal with
    | |- context [clip_lines ?p ?n ?e ?s ?t ?m ?b] =>
        destruct (clip_lines_refines p n e s t m b) as (block & -> & _)
    end; [apply length_PyMem_Malloc|].
    intros [= <-].
    etrans; [apply length_concat_le; intros i; apply length_clip_spec|].
    by rewrite length_seq.
  - intros. rewrite fill_lines_refines.
    etrans; [apply length_concat_le; intros i; apply length_clip_spec|].
    unfold fill_indices. by rewrite length_seqZ.
Qed.

Lemma X10_segment_count_bounded_witness :
  length [((0, 0.5), (1, 0.5))%float] <= Z.to_nat 1 * (4 / 2).
Proof.
  apply (proj1 X10_segment_count_bounded [] unit_square
           (array2 [-1; 0.5]%float) (array2 [2; 0.5]%float) 1e-10%float
           (PyBuffer 2 [4%Z; 2%Z] (Some "d"%string) unit_square_buf)
           (PyBuffer 2 [1%Z; 2%Z] (Some "d"%string) [-1; 0.5]%float)
           [((0, 0.5), (1, 0.5))%float]);
    reflexivity.
Defined.

(** X11.  Every segment either entry point returns has passed the midpoint
    test against the polygon it was given: the midpoint of its two end
    points is inside by the ray cast.  Hence both of its heights are finite
    and neither of its abscissas is a NaN. *)
Theorem X11_emitted_segments_inside :
  (forall heap polygon_obj line_starts_obj line_ends_obj eps poly_view segs,
     ensure_double_2d polygon_obj "polygon" = inr poly_view ->
     clip_lines_to_polygon heap polygon_obj line_starts_obj line_ends_obj eps
     = Returns segs ->
     Forall
       (emitted_inside (buf poly_view)
          (effective_polygon_length (buf poly_view)
             (Z.to_nat (rows poly_view))))
       segs)
  /\ (forall M polygon_obj spacing angle_deg centroid_obj bbox_obj overshoot
             poly_view segs,
        ensure_double_2d polygon_obj "polygon" = inr poly_view ->
        generate_line_fill M polygon_obj spacing angle_deg centroid_obj
          bbox_obj overshoot = Returns segs ->
        Forall
          (emitted_inside (buf poly_view)
             (effective_polygon_length (buf poly_view)
                (Z.to_nat (rows poly_view))))
          segs).
Proof.
  split.
  - intros heap polygon_obj line_starts_obj line_ends_obj eps poly_view segs
      Hp.
    unfold clip_lines_to_polygon. rewrite Hp.
    destruct (ensure_double_2d line_starts_obj _) as [|start_view]; [done|].
    destruct (ensure_double_2d line_ends_obj _) as [|end_view]; [done|].
    destruct (negb _); [done|].
    destruct (_ || _); [by intros [= <-]|].
    match goal with
    | |- context [clip_lines ?p ?n ?e ?s ?t ?m ?b] =>
        destruct (clip_lines_refines p n e s t m b) as (block & -> & _)
    end; [apply length_PyMem_Malloc|].
    intros [= <-]. apply Forall_concat, Forall_map, Forall_forall.
    intros i _. apply clip_spec_inside.
  - intros M polygon_obj spacing angle_deg centroid_obj bbox_obj overshoot
      poly_view segs Hp.
    unfold generate_line_fill. rewrite Hp.
    destruct (spacing <=? 0.0)%float; [done|].
    destruct (_ <? 3)%nat; [by intros [= <-]|].
    destruct (match centroid_obj with Py_None => _ | _ => _ end)
      as [[centroid_x centroid_y]| | |]; [|done..].
    destruct (match bbox_obj with Py_None => _ | _ => _ end)
      as [|bbox_diag]; [done|].
    cbv zeta. destruct (_ <=? 0.0)%float; [by intros [= <-]|].
    intros [= <-]. rewrite fill_lines_refines.
    apply Forall_concat, Forall_map, Forall_forall.
    intros idx _. apply clip_spec_inside.
Qed.

Lemma X11_emitted_segments_inside_witness :
  Forall (emitted_inside unit_square_buf 4) [((0, 0.5), (1, 0.5))%float].
Proof.
  apply (proj1 X11_emitted_segments_inside [] unit_square
           (array2 [-1; 0.5]%float) (array2 [2; 0.5]%float) 1e-10%float
           (PyBuffer 2 [4%Z; 2%Z] (Some "d"%string) unit_square_buf)
           [((0, 0.5), (1, 0.5))%float]);
    reflexivity.
Defined.

(** ** Lines and polygons that yield nothing *)

Section Nothing.
  Import FloatOrder.
  Local Open Scope float_scope.

Lemma sub_finite a b :
  is_finite (a - b) = true -> is_finite a = true /\ is_finite b = true.
Proof.
  rewrite !is_finite_SF, FloatAxioms.sub_spec. unfold SF64sub, SFsub.
  by destruct (Prim2SF a) as [[]|[]| |[]], (Prim2SF b) as [[]|[]| |[]].
Qed.

Lemma sub_not_nan a b :
  is_nan (a - b) = false -> is_nan a = false /\ is_nan b = false.
Proof.
  rewrite !is_nan_false, FloatAxioms.sub_spec. unfold not_nan, SF64sub, SFsub.
  by destruct (Prim2SF a) as [[]|[]| |[]], (Prim2SF b) as [[]|[]| |[]].
Qed.

(** A record with a finite height lies on a line of finite heights, and a
    record whose abscissa is a number on a line whose abscissas are. *)
Lemma accepted_line_coordinates p1 p2 eps r :
  accepted p1 p2 eps r ->
  (is_finite (ip_y r) = true ->
   is_finite (rd p1 1) = true /\ is_finite (rd p2 1) = true)
  /\ (is_nan (ip_x r) = false ->
      is_nan (rd p1 0) = false /\ is_nan (rd p2 0) = false).
Proof.
  intros (_ & _ & -> & ->). split.
  - intros [Hy1 Hy]%add_finite. apply mul_finite in Hy as [_ Hy].
    by apply sub_finite in Hy as [Hy2 _].
  - intros [Hx1 Hx]%add_not_nan. apply mul_not_nan in Hx as [_ Hx].
    by apply sub_not_nan in Hx as [Hx2 _].
Qed.

(** A polygon with all its vertices at one height yields no segment. *)
Lemma clip_spec_flat_polygon polygon n eps start end_ (y0 : float) :
  (forall i, (i < n)%nat -> rd polygon (i * 2 + 1) = y0) ->
  clip_spec polygon n eps start end_ = [].
Proof.
  intros Hflat.
  pose proof (clip_spec_inside polygon n eps start end_) as Hin.
  destruct (clip_spec polygon n eps start end_) as [|seg segs]; [done|].
  apply Forall_cons in Hin as [[Hmid _] _].
  rewrite (point_in_polygon_one_side _ (midpoint seg).2 polygon n
             (y0 >? (midpoint seg).2)) in Hmid; [done|].
  intros i Hi. by rewrite Hflat.
Qed.
End Nothing.

(** X12.  A query line from which [clip_lines_to_polygon] returns a segment
    has finite heights at both ends and abscissas that are numbers: a line
    with a NaN coordinate, or with an infinite height, yields nothing (and
    raises nothing). *)
Theorem X12_line_that_yields_has_coordinates :
  forall heap polygon_obj (start end_ : point) eps segs,
    clip_lines_to_polygon heap polygon_obj (array2 (flat [start]))
      (array2 (flat [end_])) eps = Returns segs ->
    segs <> [] ->
    is_finite start.2 = true /\ is_finite end_.2 = true
    /\ is_nan start.1 = false /\ is_nan end_.1 = false.
Proof.
  intros heap polygon_obj start end_ eps segs.
  rewrite clip_lines_to_polygon_flat.
  destruct (ensure_double_2d polygon_obj _) as [|poly_view]; [done|].
  cbn [length Nat.eqb negb]. cbv zeta. intros [= <-].
  destruct (_ <? 3); [done|].
  cbn [seq map concat]. rewrite app_nil_r.
  set (polygon := buf poly_view).
  set (n := effective_polygon_length polygon _).
  intros Hne.
  destruct (clip_spec polygon n eps (row [start] 0) (row [end_] 0))
    as [|seg segs] eqn:Hsegs; [done|].
  pose proof (clip_spec_inside polygon n eps (row [start] 0) (row [end_] 0))
    as Hin.
  rewrite Hsegs in Hin. apply Forall_cons in Hin as [(_ & Hy & _ & Hx & _) _].
  assert (seg ∈ clip_spec polygon n eps (row [start] 0) (row [end_] 0))
    as Hseg by (rewrite Hsegs; by left).
  unfold clip_spec in Hseg.
  apply list_elem_of_fmap in Hseg as ([a b] & -> & Hab).
  apply emitted_pairs_ordered in Hab as (_ & _ & Ha & _).
  cbn [endpoints fst snd] in Hx, Hy.
  destruct (accepted_line_coordinates _ _ _ _ Ha) as [Hfin Hnan].
  destruct (Hfin Hy) as [? ?], (Hnan Hx) as [? ?]. done.
Qed.

Lemma X12_line_that_yields_has_coordinates_witness :
  is_finite 0.5 = true /\ is_finite 0.5 = true
  /\ is_nan (-1) = false /\ is_nan 2 = false.
Proof.
  apply (X12_line_that_yields_has_coordinates [] unit_square
           (-1, 0.5)%float (2, 0.5)%float 1e-10%float
           [((0, 0.5), (1, 0.5))%float]);
    [reflexivity|done].
Defined.

(** X13.  A polygon whose effective vertices all have the same height
    encloses nothing: whatever the lines, [clip_lines_to_polygon] returns
    the empty list, and so does [generate_line_fill] whenever it returns,
    since no midpoint passes the ray cast. *)
Theorem X13_flat_polygon_yields_nothing :
  forall polygon_obj poly_view (y0 : float),
    ensure_double_2d polygon_obj "polygon" = inr poly_view ->
    (forall i,
       i < effective_polygon_length (buf poly_view)
             (Z.to_nat (rows poly_view)) ->
       rd (buf poly_view) (i * 2 + 1) = y0) ->
    (forall heap line_starts_obj line_ends_obj eps segs,
       clip_lines_to_polygon heap polygon_obj line_starts_obj line_ends_obj
         eps = Returns segs ->
       segs = [])
    /\ (forall M spacing angle_deg centroid_obj bbox_obj overshoot segs,
          generate_line_fill M polygon_obj spacing angle_deg centroid_obj
            bbox_obj overshoot = Returns segs ->
          segs = []).
Proof.
  intros polygon_obj poly_view y0 Hp Hflat.
  assert (forall {A : Type} (f : A -> list segment) (l : list A),
            (forall a, f a = []) -> concat (map f l) = []) as Hnil.
  { intros A f l Hf. induction l as [|a l IH]; [done|].
    cbn [map concat]. by rewrite Hf, IH. }
  split.
  - intros heap line_starts_obj line_ends_obj eps segs.
    unfold clip_lines_to_polygon. rewrite Hp.
    destruct (ensure_double_2d line_starts_obj _) as [|start_view]; [done|].
    destruct (ensure_double_2d line_ends_obj _) as [|end_view]; [done|].
    destruct (negb _); [done|].
    destruct (_ || _); [by intros [= <-]|].
    match goal with
    | |- context [clip_lines ?p ?n ?e ?s ?t ?m ?b] =>
        destruct (clip_lines_refines p n e s t m b) as (block & -> & _)
    end; [apply length_PyMem_Malloc|].
    intros [= <-]. apply Hnil. intros i.
    by apply (clip_spec_flat_polygon _ _ _ _ _ y0).
  - intros M spacing angle_deg centroid_obj bbox_obj overshoot segs.
    unfold generate_line_fill. rewrite Hp.
    destruct (spacing <=? 0.0)%float; [done|].
    destruct (_ <? 3); [by intros [= <-]|].
    destruct (match centroid_obj with Py_None => _ | _ => _ end)
      as [[centroid_x centroid_y]| | |]; [|done..].
    destruct (match bbox_obj with Py_None => _ | _ => _ end)
      as [|bbox_diag]; [done|].
    cbv zeta. destruct (_ <=? 0.0)%float; [by intros [= <-]|].
    intros [= <-]. rewrite fill_lines_refines. apply Hnil. intros idx.
    by apply (clip_spec_flat_polygon _ _ _ _ _ y0).
Qed.

Lemma X13_flat_polygon_yields_nothing_witness :
  exists segs,
    generate_line_fill taylor_libm
      (array2 [0; 0.5; 1; 0.5; 2; 0.5; 3; 0.5]%float) 0.25 0 Py_None Py_None
      2.0
    = Returns segs
    /\ segs = [].
Proof.
  eexists. split; [vm_compute; reflexivity|].
  apply (proj2 (X13_flat_polygon_yields_nothing
                  (array2 [0; 0.5; 1; 0.5; 2; 0.5; 3; 0.5]%float)
                  (PyBuffer 2 [4%Z; 2%Z] (Some "d"%string)
                     [0; 0.5; 1; 0.5; 2; 0.5; 3; 0.5]%float)
                  0.5%float eq_refl
                  ltac:(intros [|[|[|[|i]]]] Hi;
                        [reflexivity..|vm_compute in Hi; lia]))
           taylor_libm 0.25%float 0%float Py_None Py_None 2.0%float).
  vm_compute. reflexivity.
Defined.

(** ** The segments of one line, in order *)

Section InOrder.
  Import FloatOrder.
  Local Open Scope float_scope.

Lemma adjacent_impl {A : Type} (P Q : A -> A -> Prop) (l : list A) :
  (forall a b, P a b -> Q a b) -> adjacent P l -> adjacent Q l.
Proof.
  intros HPQ. induction l as [|a [|b l] IH]; try done.
  intros [Hab Hl]. split; [by apply HPQ|by apply IH].
Qed.

Lemma adjacent_tail {A : Type} (P : A -> A -> Prop) (a : A) (l : list A) :
  adjacent P (a :: l) -> adjacent P l.
Proof. destruct l as [|b l]; [done|]. by intros [_ H]. Qed.

Lemma ltb_lt_le_trans a b c :
  is_nan c = false -> (a <? b) = true -> (c <? b) = false -> (a <? c) = true.
Proof.
  intros Hc Hab Hbc. apply not_false_iff_true. intros Hac.
  by rewrite (ltb_le_trans b c a Hc Hbc Hac) in Hab.
Qed.

(** In a list of records without NaN whose neighbours are apart, a finite
    record is strictly before every record after it. *)
Lemma apart_before_all b l :
  Forall (fun r => is_nan (ip_t r) = false) (b :: l) ->
  adjacent apart (b :: l) ->
  is_finite (ip_t b) = true ->
  Forall (fun c => (ip_t b <? ip_t c) = true) l.
Proof.
  intros Hnan Hadj Hfin.
  destruct l as [|c l]; [done|].
  destruct Hadj as [[Hle Hfar] Hadj].
  apply Forall_cons in Hnan as [Hb Hnan].
  pose proof Hnan as Hnan'. apply Forall_cons in Hnan' as [Hc _].
  assert ((ip_t b <? ip_t c) = true) as Hbc.
  { unfold is_finite in Hfin.
    apply negb_true_iff, orb_false_elim in Hfin as [_ Hinf].
    by apply apart_lt. }
  assert (StronglySorted le_t (c :: l)) as Hsorted.
  { apply adjacent_sorted; [|done].
    eapply adjacent_impl; [|exact Hadj]. by intros ?? [? _]. }
  apply StronglySorted_inv in Hsorted as [_ Hafter].
  apply Forall_cons. split; [done|].
  rewrite Forall_forall in Hafter, Hnan. apply Forall_forall. intros d Hd.
  apply (ltb_lt_le_trans _ (ip_t c)); [|done|by apply Hafter].
  apply Hnan. by right.
Qed.

Lemma pair_up_follows l :
  Forall (fun r => is_nan (ip_t r) = false) l ->
  adjacent apart l ->
  StronglySorted follows_finite (pair_up l).
Proof.
  assert (forall n l, (length l <= n)%nat ->
            Forall (fun r => is_nan (ip_t r) = false) l ->
            adjacent apart l ->
            StronglySorted follows_finite (pair_up l)) as H.
  { intros n. induction n as [|n IH]; intros [|a [|b k]] Hk Hnan Hadj;
      try (by constructor).
    - simpl in Hk. lia.
    - cbn [pair_up].
      pose proof Hnan as Hnan'. apply Forall_cons in Hnan' as [_ Hnan'].
      pose proof (adjacent_tail _ _ _ Hadj) as Hadj'.
      constructor.
      + apply IH; [simpl in Hk; lia| |exact (adjacent_tail _ _ _ Hadj')].
        by apply Forall_cons in Hnan' as [_ ?].
      + apply Forall_forall. intros [c d] Hcd Hfin.
        unfold follows. cbn [fst snd] in *.
        apply elem_of_pair_up in Hcd as [Hc _].
        pose proof (apart_before_all b k Hnan' Hadj' Hfin) as Hall.
        rewrite Forall_forall in Hall. by apply Hall. }
  intros. by eapply (H (length l)).
Qed.

Lemma StronglySorted_filter {A : Type} (R : A -> A -> Prop) (f : A -> bool)
    (l : list A) :
  StronglySorted R l -> StronglySorted R (List.filter f l).
Proof.
  induction 1 as [|a l Hl IH Ha]; [constructor|].
  cbn [List.filter]. destruct (f a); [|done].
  constructor; [done|].
  apply Forall_forall. intros b Hb.
  rewrite list_elem_of_In, filter_In, <- list_elem_of_In in Hb.
  destruct Hb as [Hb _]. rewrite Forall_forall in Ha. by apply Ha.
Qed.

Lemma StronglySorted_adjacent {A : Type} (R : A -> A -> Prop) (l : list A) :
  StronglySorted R l -> adjacent R l.
Proof.
  induction 1 as [|a [|b l] Hl IH Ha]; try done.
  split; [|done]. apply Forall_cons in Ha as [? _]. done.
Qed.

Lemma emitted_pairs_in_order polygon polygon_len eps start end_ :
  Forall (fun r => is_nan (ip_t r) = false)
    (edge_records polygon polygon_len eps start end_) ->
  adjacent follows (emitted_pairs polygon polygon_len eps start end_).
Proof.
  intros Hnan.
  assert (StronglySorted follows_finite
            (emitted_pairs polygon polygon_len eps start end_)) as Hsorted.
  { unfold emitted_pairs. apply StronglySorted_filter. unfold kept_pairs.
    destruct (_ <? 2)%nat; [constructor|].
    apply pair_up_follows; [|apply collapse_adjacent, std_sort_adjacent].
    apply Forall_forall. intros r Hr%elem_of_collapse.
    rewrite (std_sort_perm by_t) in Hr.
    rewrite Forall_forall in Hnan. by apply Hnan. }
  assert (Forall (fun p => is_finite (ip_t p.2) = true)
            (emitted_pairs polygon polygon_len eps start end_)) as Hfin.
  { apply Forall_forall. intros [a b] Hab.
    pose proof (emitted_pairs_ordered _ _ _ _ _ _ _ Hab) as (_ & _ & Ha & Hb).
    unfold emitted_pairs in Hab.
    rewrite list_elem_of_In, filter_In in Hab. destruct Hab as [_ Hmid].
    by destruct (midpoint_inside_finite _ _ _ _ _ _ _ Ha Hb Hmid). }
  revert Hsorted Hfin.
  generalize (emitted_pairs polygon polygon_len eps start end_) as prs.
  intros prs Hsorted Hfin.
  apply StronglySorted_adjacent in Hsorted.
  induction prs as [|p [|q prs] IH]; try done.
  destruct Hsorted as [Hpq Hsorted].
  apply Forall_cons in Hfin as [Hp Hfin].
  split; [by apply Hpq|by apply IH].
Qed.
End InOrder.

(** X14.  When no record of a query line has a NaN for its [t], the
    segments [clip_lines_to_polygon] returns for that line come in the
    order of the line and do not overlap: each runs forward between two
    accepted records, and each starts at a [t] strictly larger than the [t]
    at which the segment before it ends. *)
Theorem X14_segments_of_a_line_in_order :
  forall heap polygon_obj poly_view (start end_ : point) eps segs,
    ensure_double_2d polygon_obj "polygon" = inr poly_view ->
    let polygon := buf poly_view in
    let polygon_len :=
      effective_polygon_length polygon (Z.to_nat (rows poly_view)) in
    Forall (fun r => is_nan (ip_t r) = false)
      (edge_records polygon polygon_len eps [start.1; start.2]
         [end_.1; end_.2]) ->
    clip_lines_to_polygon heap polygon_obj (array2 (flat [start]))
      (array2 (flat [end_])) eps = Returns segs ->
    exists prs,
      segs = map endpoints prs
      /\ Forall (runs_forward [start.1; start.2] [end_.1; end_.2] eps) prs
      /\ adjacent follows prs.
Proof.
  intros heap polygon_obj poly_view start end_ eps segs Hp polygon
    polygon_len Hnan.
  rewrite clip_lines_to_polygon_flat, Hp. cbn [length Nat.eqb negb].
  cbv zeta. fold polygon polygon_len. intros [= <-].
  destruct (_ <? 3)%nat; [by exists []|].
  exists (emitted_pairs polygon polygon_len eps [start.1; start.2]
            [end_.1; end_.2]).
  split; [|split].
  - cbn [seq map concat]. by rewrite app_nil_r.
  - apply Forall_forall. intros [a b]. apply emitted_pairs_ordered.
  - by apply emitted_pairs_in_order.
Qed.

Lemma X14_segments_of_a_line_in_order_witness :
  exists segs,
    clip_lines_to_polygon []
      (array2 [0; 0; 3; 0; 3; 2; 2; 2; 2; 1; 1; 1; 1; 2; 0; 2]%float)
      (array2 (flat [(-1, 1.5)%float])) (array2 (flat [(7, 1.5)%float]))
      1e-10
    = Returns segs
    /\ length segs = 2
    /\ exists prs,
         segs = map endpoints prs
         /\ Forall (runs_forward [-1; 1.5]%float [7; 1.5]%float 1e-10) prs
         /\ adjacent follows prs.
Proof.
  eexists. split; [vm_compute; reflexivity|]. split; [reflexivity|].
  apply (X14_segments_of_a_line_in_order []
           (array2 [0; 0; 3; 0; 3; 2; 2; 2; 2; 1; 1; 1; 1; 2; 0; 2]%float)
           (PyBuffer 2 [8%Z; 2%Z] (Some "d"%string)
              [0; 0; 3; 0; 3; 2; 2; 2; 2; 1; 1; 1; 1; 2; 0; 2]%float)
           (-1, 1.5)%float (7, 1.5)%float 1e-10%float _ eq_refl).
  - vm_compute. repeat constructor.
  - vm_compute. reflexivity.
Defined.

(** ** The order [std::sort] must produce *)

(** X15.  The sort is written here as an insertion sort, but what the code
    does with the records of a line does not hang on the algorithm: when
    every [t] of the line is a number and none is the negative zero, the
    records have exactly one arrangement that is a permutation of them in
    which no record is before an earlier one, and it is the one the sort of
    this file returns. *)
Theorem X15_sorted_order_is_unique :
  forall polygon polygon_len eps start end_ (sorted : list IntersectionPoint),
    let records := edge_records polygon polygon_len eps start end_ in
    Forall plain_t records ->
    sorted ≡ₚ records -> StronglySorted le_t sorted ->
    sorted = std_sort by_t records.
Proof.
  intros polygon polygon_len eps start end_ sorted records Hplain Hperm Hs.
  rewrite Forall_forall in Hplain.
  apply sorted_unique; [|done| |].
  - intros a b Ha Hb. rewrite Hperm in Ha, Hb.
    apply (tie_is_equal start end_ eps);
      first [by apply (edge_records_accepted polygon polygon_len)
            |by apply Hplain].
  - apply adjacent_sorted; [apply std_sort_adjacent|].
    apply Forall_forall. intros r Hr. rewrite std_sort_perm in Hr.
    by apply Hplain.
  - by rewrite std_sort_perm.
Qed.

Lemma X15_sorted_order_is_unique_witness :
  [IP 0.25 0 0.5; IP 0.5 1 0.5]%float
  = std_sort by_t
      (edge_records unit_square_buf 4 1e-10 [-1; 0.5]%float [3; 0.5]%float).
Proof.
  apply (X15_sorted_order_is_unique unit_square_buf 4 1e-10%float
           [-1; 0.5]%float [3; 0.5]%float
           [IP 0.25 0 0.5; IP 0.5 1 0.5]%float).
  - vm_compute. repeat constructor; done.
  - vm_compute. apply perm_swap.
  - vm_compute. repeat constructor.
Defined.

(** ** Rows past the effective length *)

Section Agree.
  Variable M : libm.
  Variables (p q : list float) (n : nat).
  Hypothesis Hpq : agree n p q.
  Local Open Scope float_scope.

Lemma edge_records_agree eps start end_ :
  edge_records p n eps start end_ = edge_records q n eps start end_.
Proof.
  unfold edge_records. apply omap_seq_ext. intros j Hj.
  unfold edge_record, next_vertex.
  assert ((j + 1) mod n < n)%nat by (apply Nat.mod_upper_bound; lia).
  apply intersection_ext; try done; rewrite !rd_drop; apply Hpq; lia.
Qed.

Lemma point_in_polygon_agree x y :
  point_in_polygon x y p n = point_in_polygon x y q n.
Proof.
  unfold point_in_polygon.
  destruct (Nat.ltb_spec n 3) as [|Hn]; [done|]. f_equal.
  assert (forall l j acc,
            Forall (fun i => (i < n)%nat) l -> (j < n)%nat ->
            fold_left
              (fun '(inside, j) i => (pip_step x y p i j inside, i)) l (acc, j)
            = fold_left
                (fun '(inside, j) i => (pip_step x y q i j inside, i)) l
                (acc, j))
    as Hfold.
  { induction l as [|i l IH]; intros j acc Hl Hj; [done|].
    apply Forall_cons in Hl as [Hi Hl]. cbn [fold_left].
    rewrite <- IH by done. do 2 f_equal.
    unfold pip_step. by rewrite !Hpq by lia. }
  apply Hfold; [|lia].
  apply Forall_forall. intros i Hi%elem_of_seq. lia.
Qed.

Lemma clip_spec_agree eps start end_ :
  clip_spec p n eps start end_ = clip_spec q n eps start end_.
Proof.
  unfold clip_spec, emitted_pairs, kept_pairs.
  rewrite edge_records_agree. f_equal.
  apply filter_ext. intros pr. unfold midpoint_inside.
  apply point_in_polygon_agree.
Qed.

Lemma mean_vertex_agree : mean_vertex p n = mean_vertex q n.
Proof.
  unfold mean_vertex.
  rewrite (fold_left_ext_in _
             (fun '(cx, cy) i => (cx + rd q (i * 2), cy + rd q (i * 2 + 1))));
    [done|].
  intros [cx cy] i Hi%in_seq. by rewrite !Hpq by lia.
Qed.

Lemma bbox_diagonal_agree :
  (0 < n)%nat -> bbox_diagonal M p n = bbox_diagonal M q n.
Proof.
  intros Hn. unfold bbox_diagonal.
  rewrite (fold_left_ext_in _
             (fun '(min_x, max_x, min_y, max_y) i =>
                let x := rd q (i * 2) in
                let y := rd q (i * 2 + 1) in
                let min_x := if x <? min_x then x else min_x in
                let max_x := if x >? max_x then x else max_x in
                let min_y := if y <? min_y then y else min_y in
                let max_y := if y >? max_y then y else max_y in
                (min_x, max_x, min_y, max_y))).
  - by rewrite !(Hpq 0%nat), !(Hpq 1%nat) by lia.
  - intros [[[min_x max_x] min_y] max_y] i Hi%in_seq.
    by rewrite !Hpq by lia.
Qed.

Lemma fill_lines_agree spacing cx cy bbox o dx dy :
  fill_lines p n spacing cx cy bbox o dx dy
  = fill_lines q n spacing cx cy bbox o dx dy.
Proof.
  rewrite !fill_lines_refines. f_equal. apply map_ext. intros idx.
  unfold fill_line_spec. by apply clip_spec_agree.
Qed.
End Agree.

Lemma agree_closing (vs : list point) (extra : list float) :
  agree (length vs) (flat vs ++ extra) (flat vs).
Proof.
  intros k Hk. unfold rd. apply app_nth1. rewrite length_flat. lia.
Qed.

(** X16.  A polygon may be given open or closed.  When the last row of a
    buffer is taken for a closing vertex (the effective length is one less
    than the number of rows) and the same vertices without that row are not
    (their last vertex is not within 1e-9 of the first), both entry points
    give the same outcome on the two buffers, whatever the other arguments:
    the closing row is never read. *)
Theorem X16_closing_vertex_ignored :
  forall (vs : list point) (w : point),
    effective_polygon_length (flat (vs ++ [w])) (S (length vs)) = length vs ->
    effective_polygon_length (flat vs) (length vs) = length vs ->
    (forall heap line_starts_obj line_ends_obj eps,
       clip_lines_to_polygon heap (array2 (flat (vs ++ [w]))) line_starts_obj
         line_ends_obj eps
       = clip_lines_to_polygon heap (array2 (flat vs)) line_starts_obj
           line_ends_obj eps)
    /\ (forall M spacing angle_deg centroid_obj bbox_obj overshoot,
          generate_line_fill M (array2 (flat (vs ++ [w]))) spacing angle_deg
            centroid_obj bbox_obj overshoot
          = generate_line_fill M (array2 (flat vs)) spacing angle_deg
              centroid_obj bbox_obj overshoot).
Proof.
  intros vs w Hclosed Hopen.
  assert (agree (length vs) (flat (vs ++ [w])) (flat vs)) as Hagree.
  { rewrite flat_app. apply agree_closing. }
  assert (Z.to_nat (Z.of_nat (length (flat (vs ++ [w])) / 2)) = S (length vs))
    as Hrows.
  { rewrite rows_flat, length_app, Nat2Z.id. simpl. lia. }
  assert (Z.to_nat (Z.of_nat (length (flat vs) / 2)) = length vs) as Hrows'.
  { by rewrite rows_flat, Nat2Z.id. }
  split.
  - intros heap line_starts_obj line_ends_obj eps.
    unfold clip_lines_to_polygon. rewrite !ensure_double_2d_array2.
    destruct (ensure_double_2d line_starts_obj _); [done|].
    destruct (ensure_double_2d line_ends_obj _); [done|].
    destruct (negb _); [done|]. cbn [shape nth buf].
    rewrite Hrows, Hrows', Hclosed, Hopen.
    destruct (_ || _); [done|].
    repeat match goal with
    | |- context [clip_lines ?p ?n ?e ?s ?t ?m (PyMem_Malloc ?h ?k)] =>
        let b := fresh "block" in
        destruct (clip_lines_refines p n e s t m (PyMem_Malloc h k))
          as (b & -> & _); [apply length_PyMem_Malloc|]
    end.
    do 2 f_equal. apply map_ext. intros i. by apply clip_spec_agree.
  - intros M spacing angle_deg centroid_obj bbox_obj overshoot.
    unfold generate_line_fill. rewrite !ensure_double_2d_array2.
    destruct (spacing <=? 0.0)%float; [done|]. cbn [shape nth buf].
    rewrite Hrows, Hrows', Hclosed, Hopen.
    destruct (Nat.ltb_spec (length vs) 3) as [|Hn]; [done|].
    rewrite (mean_vertex_agree _ _ _ Hagree).
    destruct (match centroid_obj with Py_None => _ | _ => _ end)
      as [[centroid_x centroid_y]| | |]; [|done..].
    destruct (match bbox_obj with Py_None => _ | _ => _ end)
      as [|bbox_diag]; [done|].
    cbv zeta. rewrite (bbox_diagonal_agree M _ _ _ Hagree) by lia.
    destruct (_ <=? 0.0)%float; [done|]. f_equal.
    by apply fill_lines_agree.
Qed.

Lemma X16_closing_vertex_ignored_witness :
  clip_lines_to_polygon []
    (array2 (flat ([(0, 0); (1, 0); (1, 1); (0, 1)] ++ [(0, 0)])%float))
    (array2 [-1; 0.5]%float) (array2 [2; 0.5]%float) 1e-10
  = clip_lines_to_polygon []
      (array2 (flat [(0, 0); (1, 0); (1, 1); (0, 1)]%float))
      (array2 [-1; 0.5]%float) (array2 [2; 0.5]%float) 1e-10.
Proof.
  apply (proj1 (X16_closing_vertex_ignored
                  [(0, 0); (1, 0); (1, 1); (0, 1)]%float (0, 0)%float
                  eq_refl eq_refl)).
Defined.

(** X17.  A triangle whose third vertex is within 1e-9 of its first in
    both coordinates is read as a closed polygon of two vertices: however
    large the triangle is otherwise, [clip_lines_to_polygon] returns the
    empty list for any lines, and so does [generate_line_fill] for any
    spacing it accepts, before it looks at the centroid. *)
Theorem X17_triangle_closed_on_itself_is_empty :
  forall (a b c : point),
    (Dbl.fabs (a.1 - c.1) <? 1e-9)%float = true ->
    (Dbl.fabs (a.2 - c.2) <? 1e-9)%float = true ->
    (forall heap (starts ends : list point) eps,
       length starts = length ends ->
       clip_lines_to_polygon heap (array2 (flat [a; b; c]))
         (array2 (flat starts)) (array2 (flat ends)) eps
       = Returns [])
    /\ (forall M spacing angle_deg centroid_obj bbox_obj overshoot,
          (spacing <=? 0.0)%float = false ->
          generate_line_fill M (array2 (flat [a; b; c])) spacing angle_deg
            centroid_obj bbox_obj overshoot
          = Returns []).
Proof.
  intros a b c Hx Hy.
  assert (effective_polygon_length (flat [a; b; c]) 3 = 2) as Hlen.
  { unfold effective_polygon_length. cbv zeta.
    change (rd (flat [a; b; c]) 0) with a.1.
    change (rd (flat [a; b; c]) 1) with a.2.
    change (rd (drop ((3 - 1) * 2) (flat [a; b; c])) 0) with c.1.
    change (rd (drop ((3 - 1) * 2) (flat [a; b; c])) 1) with c.2.
    by rewrite Hx, Hy. }
  split.
  - intros heap starts ends eps Hse.
    rewrite clip_lines_to_polygon_flat, ensure_double_2d_array2.
    rewrite Hse, Nat.eqb_refl. cbn [negb]. cbv zeta.
    unfold rows. cbn [shape nth buf]. rewrite rows_flat, Nat2Z.id.
    cbn [length]. by rewrite Hlen.
  - intros M spacing angle_deg centroid_obj bbox_obj overshoot Hs.
    unfold generate_line_fill. rewrite Hs, ensure_double_2d_array2.
    cbn [shape nth buf]. rewrite rows_flat, Nat2Z.id.
    cbn [length]. by rewrite Hlen.
Qed.

Lemma X17_triangle_closed_on_itself_is_empty_witness :
  clip_lines_to_polygon []
    (array2 (flat [(0, 0); (1000, 1000); (1e-10, -1e-10)]%float))
    (array2 (flat [(-1, 0.5)%float])) (array2 (flat [(2, 0.5)%float])) 1e-10
  = Returns [].
Proof.
  apply (proj1 (X17_triangle_closed_on_itself_is_empty
                  (0, 0)%float (1000, 1000)%float (1e-10, -1e-10)%float
                  eq_refl eq_refl));
    reflexivity.
Defined.

(** ** The hatch fill as a clipping of its candidate lines *)

Lemma clip_candidates heap polygon_obj poly_view spacing centroid_x centroid_y
    bbox_diag overshoot line_dir_x line_dir_y :
  ensure_double_2d polygon_obj "polygon" = inr poly_view ->
  let polygon := buf poly_view in
  let polygon_len :=
    effective_polygon_length polygon (Z.to_nat (rows poly_view)) in
  3 <= polygon_len ->
  clip_lines_to_polygon heap polygon_obj
    (array2
       (flat (candidate_starts spacing centroid_x centroid_y bbox_diag
                overshoot line_dir_x line_dir_y)))
    (array2
       (flat (candidate_ends spacing centroid_x centroid_y bbox_diag
                overshoot line_dir_x line_dir_y)))
    1e-10
  = Returns
      (fill_lines polygon polygon_len spacing centroid_x centroid_y bbox_diag
         overshoot line_dir_x line_dir_y).
Proof.
  intros Hp polygon polygon_len Hn.
  rewrite clip_lines_to_polygon_flat, Hp.
  unfold candidate_starts, candidate_ends. rewrite !length_map, Nat.eqb_refl.
  cbn [negb]. cbv zeta. fold polygon polygon_len.
  destruct (Nat.ltb_spec polygon_len 3) as [|_]; [lia|].
  rewrite fill_lines_refines.
  apply (f_equal Returns), (f_equal (@concat segment)).
  etrans; [|apply (map_nth_seq _ (fill_indices spacing bbox_diag) 0%Z)].
  apply map_ext_in. intros i Hi%in_seq.
  unfold fill_line_spec, row.
  by rewrite !(nth_map_lt _ _ _ _ 0%Z) by lia.
Qed.

(** X18.  The hatch fill is the clipping of its candidate lines: for an
    accepted polygon of effective length at least 3, handing the start
    points and the end points of the candidate lines to
    [clip_lines_to_polygon] with [eps = 1e-10] returns the very list the
    main loop of [generate_line_fill] builds.  So whatever
    [generate_line_fill] returns, when it is not the empty list, is what
    [clip_lines_to_polygon] returns for the candidate lines of some
    centroid and some diagonal. *)
Theorem X18_fill_is_clip_of_candidate_lines :
  (forall heap polygon_obj poly_view spacing centroid_x centroid_y bbox_diag
          overshoot line_dir_x line_dir_y,
     ensure_double_2d polygon_obj "polygon" = inr poly_view ->
     let polygon := buf poly_view in
     let polygon_len :=
       effective_polygon_length polygon (Z.to_nat (rows poly_view)) in
     3 <= polygon_len ->
     clip_lines_to_polygon heap polygon_obj
       (array2
          (flat (candidate_starts spacing centroid_x centroid_y bbox_diag
                   overshoot line_dir_x line_dir_y)))
       (array2
          (flat (candidate_ends spacing centroid_x centroid_y bbox_diag
                   overshoot line_dir_x line_dir_y)))
       1e-10
     = Returns
         (fill_lines polygon polygon_len spacing centroid_x centroid_y
            bbox_diag overshoot line_dir_x line_dir_y))
  /\ (forall heap M polygon_obj spacing angle_deg centroid_obj bbox_obj
             overshoot segs,
        generate_line_fill M polygon_obj spacing angle_deg centroid_obj
          bbox_obj overshoot = Returns segs ->
        segs = []
        \/ exists centroid_x centroid_y bbox_diag,
             let overshoot :=
               if (overshoot <=? 0.0)%float then 2.0%float else overshoot in
             let radians := (angle_deg * kDegToRad)%float in
             clip_lines_to_polygon heap polygon_obj
               (array2
                  (flat (candidate_starts spacing centroid_x centroid_y
                           bbox_diag overshoot (m_cos M radians)
                           (m_sin M radians))))
               (array2
                  (flat (candidate_ends spacing centroid_x centroid_y
                           bbox_diag overshoot (m_cos M radians)
                           (m_sin M radians))))
               1e-10
             = Returns segs).
Proof.
  split; [intros; by apply clip_candidates|].
  intros heap M polygon_obj spacing angle_deg centroid_obj bbox_obj
    overshoot segs.
  unfold generate_line_fill.
  destruct (spacing <=? 0.0)%float; [done|].
  destruct (ensure_double_2d polygon_obj _) as [|poly_view] eqn:Hp; [done|].
  destruct (_ <? 3) eqn:Hn; [intros [= <-]; left; done|].
  apply Nat.ltb_ge in Hn.
  destruct (match centroid_obj with Py_None => _ | _ => _ end)
    as [[centroid_x centroid_y]| | |]; [|done..].
  destruct (match bbox_obj with Py_None => _ | _ => _ end)
    as [|bbox_diag]; [done|].
  cbv zeta.
  set (diag := if (bbox_diag <=? 0.0)%float then _ else bbox_diag).
  destruct (diag <=? 0.0)%float; [intros [= <-]; left; done|].
  intros [= <-]. right. exists centroid_x, centroid_y, diag.
  by apply clip_candidates.
Qed.

Lemma X18_fill_is_clip_of_candidate_lines_witness :
  exists segs,
    generate_line_fill taylor_libm unit_square 0.25 0 Py_None Py_None 2.0
    = Returns segs
    /\ (segs = []
        \/ exists centroid_x centroid_y bbox_diag,
             clip_lines_to_polygon [] unit_square
               (array2
                  (flat (candidate_starts 0.25 centroid_x centroid_y bbox_diag
                           2.0 (m_cos taylor_libm (0 * kDegToRad)%float)
                           (m_sin taylor_libm (0 * kDegToRad)%float))))
               (array2
                  (flat (candidate_ends 0.25 centroid_x centroid_y bbox_diag
                           2.0 (m_cos taylor_libm (0 * kDegToRad)%float)
                           (m_sin taylor_libm (0 * kDegToRad)%float))))
               1e-10
             = Returns segs).
Proof.
  eexists. split; [vm_compute; reflexivity|].
  apply (proj2 X18_fill_is_clip_of_candidate_lines [] taylor_libm unit_square
           0.25%float 0%float Py_None Py_None 2.0%float).
  vm_compute. reflexivity.
Defined.

(** ** The bounding box of [generate_line_fill] *)

Section Bounds.
  Import FloatOrder.
  Local Open Scope float_scope.

Lemma ltb_irrefl a : (a <? a) = false.
Proof.
  destruct (a <? a) eqn:H; [|done]. by rewrite (ltb_asym a a H) in H.
Qed.

(** A running minimum stays at or below what it was at or below, and a
    running maximum at or above. *)
Lemma running_min_below x m v :
  (v <? m) = false -> (v <? (if x <? m then x else m)) = false.
Proof.
  intros Hv. destruct (x <? m) eqn:Hx; [|done].
  apply (ltb_le_trans x m v); [|by apply ltb_asym|done].
  apply not_true_is_false. intros Hn.
  rewrite FloatAxioms.ltb_spec in Hx. apply is_nan_true in Hn.
  by rewrite Hn, SFltb_nan_r in Hx.
Qed.

Lemma running_max_above x m v :
  (v >? m) = false -> (v >? (if x >? m then x else m)) = false.
Proof.
  unfold Dbl.gtb. intros Hv. destruct (m <? x) eqn:Hx; [|done].
  apply (ltb_le_trans v m x); [|done|by apply ltb_asym].
  by apply ltb_not_nan_l in Hx.
Qed.

Lemma running_min_self x m : (x <? (if x <? m then x else m)) = false.
Proof. destruct (x <? m) eqn:Hx; [apply ltb_irrefl|done]. Qed.

Lemma running_max_self x m : (x >? (if x >? m then x else m)) = false.
Proof.
  unfold Dbl.gtb. destruct (m <? x) eqn:Hx; [apply ltb_irrefl|done].
Qed.

(** The invariant of the loop, after the vertices [0] to [k]. *)
Lemma bbox_bounds_prefix (polygon : list float) (k : nat) :
  let '(min_x, max_x, min_y, max_y) :=
    fold_left (bbox_step polygon) (seq 1 k)
      (rd polygon 0, rd polygon 0, rd polygon 1, rd polygon 1) in
  (forall i, (i <= k)%nat ->
     (rd polygon (i * 2) <? min_x) = false
     /\ (rd polygon (i * 2) >? max_x) = false
     /\ (rd polygon (i * 2 + 1) <? min_y) = false
     /\ (rd polygon (i * 2 + 1) >? max_y) = false)
  /\ (exists a b c d,
        (a <= k /\ b <= k /\ c <= k /\ d <= k)%nat
        /\ min_x = rd polygon (a * 2) /\ max_x = rd polygon (b * 2)
        /\ min_y = rd polygon (c * 2 + 1) /\ max_y = rd polygon (d * 2 + 1)).
Proof.
  induction k as [|k IH].
  - cbn [seq fold_left]. split.
    + intros i Hi. assert (i = 0%nat) as -> by lia. cbn [Nat.mul Nat.add].
      unfold Dbl.gtb. by rewrite !ltb_irrefl.
    + by exists 0%nat, 0%nat, 0%nat, 0%nat.
  - rewrite seq_S, fold_left_app. cbn [fold_left Nat.add].
    destruct (fold_left (bbox_step polygon) (seq 1 k) _)
      as [[[min_x max_x] min_y] max_y].
    destruct IH as [Hall (a & b & c & d & Hle & Ha & Hb & Hc & Hd)].
    unfold bbox_step. cbv zeta. split.
    + intros i Hi. destruct (decide (i = S k)) as [->|Hne].
      * repeat split; first [apply running_min_self | apply running_max_self].
      * destruct (Hall i ltac:(lia)) as (H1 & H2 & H3 & H4).
        repeat split;
          first [by apply running_min_below | by apply running_max_above].
    + exists (if rd polygon (S k * 2) <? min_x then S k else a),
             (if rd polygon (S k * 2) >? max_x then S k else b),
             (if rd polygon (S k * 2 + 1) <? min_y then S k else c),
             (if rd polygon (S k * 2 + 1) >? max_y then S k else d).
      unfold Dbl.gtb.
      destruct (rd polygon (S k * 2) <? min_x),
        (max_x <? rd polygon (S k * 2)),
        (rd polygon (S k * 2 + 1) <? min_y),
        (max_y <? rd polygon (S k * 2 + 1));
        (split; [lia|done]).
Qed.

Lemma bbox_diagonal_bounds M polygon polygon_len :
  bbox_diagonal M polygon polygon_len
  = let '(min_x, max_x, min_y, max_y) := bbox_bounds polygon polygon_len in
    m_hypot M (max_x - min_x) (max_y - min_y).
Proof. reflexivity. Qed.
End Bounds.

(** X19.  The diagonal [generate_line_fill] computes when none is given is
    the [hypot] of the extents of a box that holds every effective vertex:
    no vertex has an abscissa below [min_x] or above [max_x], nor a height
    below [min_y] or above [max_y], and each of the four bounds is a
    coordinate of some vertex. *)
Theorem X19_bounding_box_holds_every_vertex :
  forall M polygon polygon_len,
    let '(min_x, max_x, min_y, max_y) := bbox_bounds polygon polygon_len in
    bbox_diagonal M polygon polygon_len
    = m_hypot M (max_x - min_x)%float (max_y - min_y)%float
    /\ (forall i, i < polygon_len ->
          (rd polygon (i * 2) <? min_x)%float = false
          /\ (rd polygon (i * 2) >? max_x)%float = false
          /\ (rd polygon (i * 2 + 1) <? min_y)%float = false
          /\ (rd polygon (i * 2 + 1) >? max_y)%float = false)
    /\ (0 < polygon_len ->
        exists a b c d,
          (a < polygon_len /\ b < polygon_len
           /\ c < polygon_len /\ d < polygon_len)
          /\ min_x = rd polygon (a * 2) /\ max_x = rd polygon (b * 2)
          /\ min_y = rd polygon (c * 2 + 1)
          /\ max_y = rd polygon (d * 2 + 1)).
Proof.
  intros M polygon polygon_len.
  pose proof (bbox_bounds_prefix polygon (polygon_len - 1)) as H.
  rewrite bbox_diagonal_bounds. unfold bbox_bounds in *.
  destruct (fold_left _ _ _) as [[[min_x max_x] min_y] max_y].
  destruct H as [Hall (a & b & c & d & Hle & Heq)].
  split; [done|]. split.
  - intros i Hi. apply Hall. lia.
  - intros Hn. exists a, b, c, d. split; [lia|done].
Qed.

Lemma X19_bounding_box_holds_every_vertex_witness :
  (rd unit_square_buf (2 * 2) <? 0)%float = false
  /\ (rd unit_square_buf (2 * 2) >? 1)%float = false
  /\ (rd unit_square_buf (2 * 2 + 1) <? 0)%float = false
  /\ (rd unit_square_buf (2 * 2 + 1) >? 1)%float = false.
Proof.
  apply (proj1 (proj2 (X19_bounding_box_holds_every_vertex taylor_libm
                         unit_square_buf 4)) 2).
  lia.
Defined.

(** ** The number of candidate lines *)

Section Quotient.
  Import FloatOrder.
  Local Open Scope Z_scope.

Lemma binary_round_aux_nonneg mx ex lx :
  0 <= mx -> SFnonneg (binary_round_aux prec emax false mx ex lx) = true.
Proof.
  intros Hm. unfold binary_round_aux.
  pose proof (shr_fexp_nonneg mx ex lx Hm) as H1.
  destruct (shr_fexp prec emax mx ex lx) as [mrs' e']. cbn [fst] in H1.
  pose proof (shr_fexp_nonneg
                (round_nearest_even (shr_m mrs') (loc_of_shr_record mrs'))
                e' loc_Exact
                (round_nearest_even_nonneg _ _ H1)) as H2.
  destruct (shr_fexp prec emax _ e' loc_Exact) as [mrs'' e''].
  cbn [fst] in H2.
  destruct (shr_m mrs'') as [|m|m]; [done| |lia].
  by destruct (e'' <=? emax - prec).
Qed.

Lemma SFdiv_core_nonneg m1 e1 m2 e2 :
  0 <= (SFdiv_core_binary prec emax (Zpos m1) e1 (Zpos m2) e2).1.1.
Proof.
  unfold SFdiv_core_binary. cbv zeta.
  set (s := e1 - e2 - _).
  set (m' := match s with Z0 => _ | Zpos _ => _ | Zneg _ => _ end).
  assert (0 <= m') as Hm.
  { unfold m'. destruct s; [lia| |lia]. by apply Z.shiftl_nonneg. }
  pose proof (Z.div_pos m' (Zpos m2) Hm ltac:(lia)) as Hq.
  unfold Z.div in Hq. by destruct (Z.div_eucl m' (Zpos m2)).
Qed.

(** The quotient of two positive values is not negative, when it is a
    number. *)
Lemma SFdiv_positive x y :
  SFltb (S754_zero false) x = true -> SFltb (S754_zero false) y = true ->
  SF64div x y = S754_nan \/ SFnonneg (SF64div x y) = true.
Proof.
  unfold SF64div, SFdiv.
  destruct x as [[]|[]| |[] mx ex], y as [[]|[]| |[] my ey];
    intros Hx Hy; try done; try (by left); try (by right).
  right. cbn [xorb].
  pose proof (SFdiv_core_nonneg mx ex my ey) as Hq.
  destruct (SFdiv_core_binary _ _ _ _ _ _) as [[mz ez] lz]. cbn [fst] in Hq.
  by apply binary_round_aux_nonneg.
Qed.

Lemma to_Z_nonneg a :
  Prim2SF a = S754_nan \/ SFnonneg (Prim2SF a) = true -> 0 <= Dbl.to_Z a.
Proof.
  unfold Dbl.to_Z. intros [->|Ha]; [done|].
  destruct (Prim2SF a) as [[]|[]| |[] m e]; try done.
  destruct e as [|e|e].
  - by rewrite Z.shiftl_0_r.
  - by apply Z.shiftl_nonneg.
  - by apply Z.shiftr_nonneg.
Qed.

Lemma safe_spacing_positive spacing :
  (0 <? spacing)%float = true -> (0 <? safe_spacing spacing)%float = true.
Proof.
  intros Hs. unfold safe_spacing. by destruct (spacing <? 1e-6)%float.
Qed.
End Quotient.

(** X20.  For a positive spacing and a positive diagonal whose quotient
    [bbox_diag / safe_spacing] is in the range where the cast to
    [Py_ssize_t] is defined, [num_lines] is at least 3: the loop over
    [idx] tries at least seven candidate lines, however large the spacing
    is against the polygon. *)
Theorem X20_at_least_seven_candidate_lines :
  forall spacing bbox_diag,
    (0 <? spacing)%float = true -> (0 <? bbox_diag)%float = true ->
    (bbox_diag / safe_spacing spacing <? 0x1p62)%float = true ->
    (3 <= num_lines spacing bbox_diag)%Z
    /\ 7 <= length (fill_indices spacing bbox_diag).
Proof.
  intros spacing bbox_diag Hs Hb _.
  assert (3 <= num_lines spacing bbox_diag)%Z as Hn.
  { unfold num_lines.
    enough (0 <= Dbl.to_Z (bbox_diag / safe_spacing spacing))%Z by lia.
    apply to_Z_nonneg. rewrite FloatAxioms.div_spec.
    apply safe_spacing_positive in Hs.
    rewrite FloatAxioms.ltb_spec in Hs, Hb.
    by apply SFdiv_positive. }
  split; [done|]. unfold fill_indices. rewrite length_seqZ. lia.
Qed.

Lemma X20_at_least_seven_candidate_lines_witness :
  (3 <= num_lines 0.25 (sqrt 2))%Z
  /\ 7 <= length (fill_indices 0.25 (sqrt 2)).
Proof.
  apply (X20_at_least_seven_candidate_lines 0.25%float (sqrt 2)%float);
    reflexivity.
Defined.

(** ** Arguments that stand for a default *)

(** X21.  Three arguments of [generate_line_fill] have values that stand
    for the default: an [overshoot] that is not positive is replaced by
    2.0; a [bbox_diag] that is not positive is replaced by the diagonal
    computed from the polygon, as when it is omitted; and the mean of the
    effective vertices, given as [centroid], gives what omitting the
    centroid gives. *)
Theorem X21_fill_sentinel_arguments :
  (forall M polygon_obj spacing angle_deg centroid_obj bbox_obj overshoot,
     (overshoot <=? 0.0)%float = true ->
     generate_line_fill M polygon_obj spacing angle_deg centroid_obj bbox_obj
       overshoot
     = generate_line_fill M polygon_obj spacing angle_deg centroid_obj
         bbox_obj 2.0)
  /\ (forall M polygon_obj spacing angle_deg centroid_obj bbox_diag overshoot,
        (bbox_diag <=? 0.0)%float = true ->
        generate_line_fill M polygon_obj spacing angle_deg centroid_obj
          (PyFloat bbox_diag) overshoot
        = generate_line_fill M polygon_obj spacing angle_deg centroid_obj
            Py_None overshoot)
  /\ (forall M polygon_obj poly_view spacing angle_deg bbox_obj overshoot,
        ensure_double_2d polygon_obj "polygon" = inr poly_view ->
        let centroid :=
          mean_vertex (buf poly_view)
            (effective_polygon_length (buf poly_view)
               (Z.to_nat (rows poly_view))) in
        generate_line_fill M polygon_obj spacing angle_deg
          (PyTuple [PyFloat centroid.1; PyFloat centroid.2]) bbox_obj
          overshoot
        = generate_line_fill M polygon_obj spacing angle_deg Py_None bbox_obj
            overshoot).
Proof.
  split; [|split].
  - intros M polygon_obj spacing angle_deg centroid_obj bbox_obj overshoot Ho.
    unfold generate_line_fill. rewrite Ho.
    by change (2.0 <=? 0.0)%float with false.
  - intros M polygon_obj spacing angle_deg centroid_obj bbox_diag overshoot
      Hb.
    unfold generate_line_fill. cbn [PyFloat_AsDouble]. rewrite Hb.
    by change (0.0 <=? 0.0)%float with true.
  - intros M polygon_obj poly_view spacing angle_deg bbox_obj overshoot Hp
      centroid.
    unfold generate_line_fill. rewrite Hp.
    cbn [parse_point_like PySequence_Fast length Nat.eqb negb nth
         PyFloat_AsDouble].
    unfold centroid, rows. by destruct (mean_vertex _ _).
Qed.

Lemma X21_fill_sentinel_arguments_witness :
  generate_line_fill taylor_libm unit_square 0.25 0 Py_None Py_None (-1)
  = generate_line_fill taylor_libm unit_square 0.25 0 Py_None Py_None 2.0
  /\ generate_line_fill taylor_libm unit_square 0.25 0 Py_None (PyFloat 0) 2.0
     = generate_line_fill taylor_libm unit_square 0.25 0 Py_None Py_None 2.0
  /\ generate_line_fill taylor_libm unit_square 0.25 0
       (PyTuple [PyFloat 0.5; PyFloat 0.5]) Py_None 2.0
     = generate_line_fill taylor_libm unit_square 0.25 0 Py_None Py_None 2.0.
Proof.
  split; [|split].
  - by apply (proj1 X21_fill_sentinel_arguments).
  - by apply (proj1 (proj2 X21_fill_sentinel_arguments)).
  - apply (proj2 (proj2 X21_fill_sentinel_arguments) taylor_libm unit_square
             (PyBuffer 2 [4%Z; 2%Z] (Some "d"%string) unit_square_buf)
             0.25%float 0%float Py_None 2.0%float eq_refl).
Defined.

(** ** A negative tolerance ([circle_circle_intersections]) *)

Section Tolerance.
  Import FloatOrder.

(** The square root of a value that is not negative is not negative. *)
Lemma SFsqrt_nonneg x : SFnonneg x = true -> SFnonneg (SF64sqrt x) = true.
Proof.
  unfold SF64sqrt, SFsqrt.
  destruct x as [[]|[]| |[] m e]; intros Hx; try done.
  destruct (SFsqrt_core_binary prec emax (Z.pos m) e) as [[mz ez] lz]
    eqn:Hcore.
  apply binary_round_aux_nonneg.
  unfold SFsqrt_core_binary in Hcore.
  destruct (Z.sqrtrem _) as [q r] eqn:Hq.
  injection Hcore as <- _ _.
  change q with (fst (q, r)). rewrite <- Hq, Z.sqrtrem_sqrt.
  apply Z.sqrt_nonneg.
Qed.

Lemma negative_below_nonneg tol h :
  (tol <? 0)%float = true -> SFnonneg (Prim2SF h) = true ->
  (h >? tol)%float = true.
Proof.
  unfold Dbl.gtb. rewrite !FloatAxioms.ltb_spec.
  change (Prim2SF 0) with (S754_zero false).
  by destruct (Prim2SF tol) as [[]|[]| |[]], (Prim2SF h) as [[]|[]| |[]].
Qed.
End Tolerance.

(** X22.  With a negative [tol] the list never has a single point: it is
    empty after one of the four tests, and has two points otherwise, since
    [h] is not negative and so is above [tol]. *)
Theorem X22_negative_tolerance_never_one_point :
  forall M cx1 cy1 r1 cx2 cy2 r2 tol,
    (tol <? 0)%float = true ->
    length (circle_circle_intersections M cx1 cy1 r1 cx2 cy2 r2 tol)
    = if no_intersection M cx1 cy1 r1 cx2 cy2 r2 tol then 0 else 2.
Proof.
  intros M cx1 cy1 r1 cx2 cy2 r2 tol Htol.
  unfold circle_circle_intersections, no_intersection, half_chord_sq,
    centre_distance. cbv zeta.
  destruct (_ || _ || _)%float; [done|]. cbn [orb].
  destruct (_ <? - tol)%float; [done|].
  rewrite clamped_root_gtb, negative_below_nonneg; [done..|].
  rewrite FloatAxioms.sqrt_spec.
  apply SFsqrt_nonneg, fmax_zero_nonneg.
Qed.

Lemma X22_negative_tolerance_never_one_point_witness :
  length (circle_circle_intersections taylor_libm 0 0 1 1 0 1 (-1e-9)) = 2.
Proof.
  rewrite (X22_negative_tolerance_never_one_point taylor_libm 0 0 1 1 0 1
             (-1e-9)%float);
    reflexivity.
Defined.
